(** * gen_data.py: the synthetic transaction generator

    A shallow embedding of [gen_data.py] and the properties of its
    specification.  The script draws 1000 transaction records from Python's
    [random] module and from a [Faker] instance, and writes them to
    [transactions_.csv] (through pandas) and to [transactions_.json]
    (through [json.dump]).

    Layout:
    - binary64 floats ([Corelib]'s [SpecFloat], precision 53, emax 1024) with
      the Python operations the script applies to them;
    - the [random] module and the [Faker] object as interfaces over an
      explicit generator state, the wall clock as a stream of readings;
    - the record generator, in a state-and-exception monad;
    - the two serializers, the decoder of [json] and the script itself over
      a small file system;
    - the properties of the specification, then further properties of the
      script: failed runs, the characters and lines of the two files, the
      text of dates and amounts, reading the JSON file back, which source
      each field depends on, and the dates of a run;
    - the layout of the two files, with readers of their own for the rows
      and cells of the CSV file and the members of the JSON file. *)

From Stdlib Require Import ZArith NArith Lia Ascii String List Bool.
From Stdlib Require Import DecimalString DecimalFacts DecimalN DecimalPos DecimalZ.
From Stdlib Require Import Floats.SpecFloat.
From stdpp Require Import base option list strings gmap.

Local Open Scope string_scope.
Local Open Scope Z_scope.

(* ===================================================================== *)
(** ** Python values *)

(** A Python [float] is an IEEE 754 binary64 number. *)
Definition float : Type := spec_float.

Definition prec : Z := 53.
Definition emax : Z := 1024.

Definition float_add : float -> float -> float := SFadd prec emax.
Definition float_mul : float -> float -> float := SFmul prec emax.
Definition float_leb : float -> float -> bool := SFleb.

(** [float(z)] for a Python [int]: the nearest binary64. *)
Definition float_of_Z (z : Z) : float := binary_normalize prec emax z 0 false.

(** The binary64 nearest to the rational [num / den] (ties to even): what
    the correctly rounded [strtod] returns for the decimal [num / den]. *)
Definition float_of_ratio (num den : positive) : float :=
  SFdiv prec emax (S754_finite false num 0) (S754_finite false den 0).

(** [num / den] rounded to the nearest integer, ties to the even one. *)
Definition round_half_even (num den : Z) : Z :=
  let q := num / den in
  let r := num mod den in
  match 2 * r ?= den with
  | Lt => q
  | Gt => q + 1
  | Eq => if Z.even q then q else q + 1
  end.

(** [m * 2^e * p] rounded to the nearest integer, ties to even. *)
Definition scaled_round (m : positive) (e : Z) (p : Z) : Z :=
  match e with
  | Zneg s => round_half_even (Zpos m * p) (2 ^ Zpos s)
  | _ => Zpos m * p * 2 ^ e
  end.

(** [round(x, ndigits)] on a float, for [0 <= ndigits]: CPython prints [x]
    with [ndigits] decimals, correctly rounded from the exact binary value
    (ties to even), and reads the decimal back, correctly rounded. *)
Definition py_round (x : float) (ndigits : Z) : float :=
  match x with
  | S754_finite s m e =>
      match scaled_round m e (10 ^ ndigits) with
      | Zpos k =>
          let y := float_of_ratio k (Z.to_pos (10 ^ ndigits)) in
          if s then SFopp y else y
      | _ => S754_zero s
      end
  | _ => x
  end.

(** [math.floor(x)]: [None] where Python raises (infinities and NaN). *)
Definition py_floor (x : float) : option Z :=
  match x with
  | S754_zero _ => Some 0
  | S754_finite s m e =>
      let v := if s then Zneg m else Zpos m in
      Some (match e with
            | Zneg k => v / 2 ^ Zpos k
            | _ => v * 2 ^ e
            end)
  | _ => None
  end.

(** [x == y] on floats. *)
Definition float_eqb : float -> float -> bool := SFeqb.

(** [repr(x)] is the shortest decimal that reads back as [x].  For a
    positive finite [x], [roundtrips j d x] tells whether [j / 10^d] reads
    back as [x], and [shortest_decimal] tries [d = 0, 1, ...] decimals, each
    time with the integer [j] nearest to [x * 10^d]; 17 significant digits
    always suffice. *)
Definition roundtrips (j d : Z) (x : float) : bool :=
  match j with
  | Zpos pj => float_eqb (float_of_ratio pj (Z.to_pos (10 ^ d))) x
  | _ => false
  end.

Fixpoint shortest_decimal (fuel : nat) (d : Z) (m : positive) (e : Z) : Z * Z :=
  let j := scaled_round m e (10 ^ d) in
  match fuel with
  | O => (j, d)
  | S fuel' =>
      if roundtrips j d (S754_finite false m e) then (j, d)
      else shortest_decimal fuel' (d + 1) m e
  end.

(** The number of digits after the decimal point in the shortest decimal
    of [x]. *)
Definition decimal_places (x : float) : Z :=
  match x with
  | S754_finite _ m e => snd (shortest_decimal 17 0 m e)
  | _ => 0
  end.

(** The values a record holds: [int], [float] and [str].  A [str] is a
    sequence of code points; code points below 256 are represented. *)
Inductive value : Type :=
  | VInt (z : Z)
  | VFloat (x : float)
  | VStr (s : string).

(** A [dict] literal, in insertion order. *)
Definition dict : Type := list (string * value).

Fixpoint dict_get (k : string) (d : dict) : option value :=
  match d with
  | [] => None
  | (k', v) :: d' => if String.eqb k k' then Some v else dict_get k d'
  end.

Definition keys (d : dict) : list string := map fst d.
Definition values (d : dict) : list value := map snd d.

(** [str(n)] for an [int]. *)
Definition str_of_N (n : N) : string := NilZero.string_of_uint (N.to_uint n).

Definition str_of_Z (z : Z) : string :=
  match z with
  | Zneg p => "-" ++ str_of_N (Npos p)
  | _ => str_of_N (Z.to_N z)
  end.

(** The digits of [n], left-padded with zeros to [width] characters. *)
Fixpoint zeros (k : nat) : string :=
  match k with
  | O => ""
  | S k' => "0" ++ zeros k'
  end.

Definition zfill (width : nat) (n : N) : string :=
  let s := str_of_N n in
  zeros (width - String.length s) ++ s.

(** [j / 10^d] in positional notation, with at least one decimal. *)
Definition fixed_repr (j d : Z) : string :=
  str_of_N (Z.to_N (j / 10 ^ d)) ++ "."
  ++ (if d =? 0 then "0" else zfill (Z.to_nat d) (Z.to_N (j mod 10 ^ d))).

(** [repr(x)] for a float, in the positional notation Python uses for
    magnitudes from [1e-4] up to [1e16]. *)
Definition float_repr (x : float) : string :=
  match x with
  | S754_zero s => if s then "-0.0" else "0.0"
  | S754_infinity s => if s then "-inf" else "inf"
  | S754_nan => "nan"
  | S754_finite s m e =>
      let '(j, d) := shortest_decimal 17 0 m e in
      (if s then "-" else "") ++ fixed_repr j d
  end.

(* ===================================================================== *)
(** ** datetime *)

(** A naive [datetime], as microseconds since 1970-01-01T00:00:00. *)
Definition datetime : Type := Z.

Definition usec_per_sec : Z := 1000000.
Definition sec_per_day : Z := 86400.

(** Proleptic Gregorian date of a day count relative to 1970-01-01. *)
Definition civil_from_days (days : Z) : Z * Z * Z :=
  let z := days + 719468 in
  let era := z / 146097 in
  let doe := z - era * 146097 in
  let yoe := (doe - doe / 1460 + doe / 36524 - doe / 146096) / 365 in
  let y := yoe + era * 400 in
  let doy := doe - (365 * yoe + yoe / 4 - yoe / 100) in
  let mp := (5 * doy + 2) / 153 in
  let d := doy - (153 * mp + 2) / 5 + 1 in
  let m := if mp <? 10 then mp + 3 else mp - 9 in
  (if m <=? 2 then y + 1 else y, m, d).

(** [dt.isoformat()]: [YYYY-MM-DDTHH:MM:SS], followed by [.ffffff] when the
    microsecond field is not zero. *)
Definition isoformat (dt : datetime) : string :=
  let secs := dt / usec_per_sec in
  let us := dt mod usec_per_sec in
  let days := secs / sec_per_day in
  let sod := secs mod sec_per_day in
  let '(y, m, d) := civil_from_days days in
  zfill 4 (Z.to_N y) ++ "-" ++ zfill 2 (Z.to_N m) ++ "-" ++ zfill 2 (Z.to_N d)
  ++ "T" ++ zfill 2 (Z.to_N (sod / 3600)) ++ ":"
  ++ zfill 2 (Z.to_N (sod mod 3600 / 60)) ++ ":" ++ zfill 2 (Z.to_N (sod mod 60))
  ++ (if us =? 0 then "" else "." ++ zfill 6 (Z.to_N us)).

(* ===================================================================== *)
(** ** The sources of randomness *)

(** The generator behind the functions of the [random] module.  [random()]
    returns the float [m / 2^53] for a 53-bit [m]; [_randbelow(n)] returns an
    integer below [n].  [rg_random] gives the numerator [m]. *)
Class RandomGen (R : Type) : Type := {
  rg_random : R -> N * R;
  rg_randbelow : N -> R -> N * R;
  rg_random_lt : forall r, (fst (rg_random r) < 2 ^ 53)%N;
  rg_randbelow_lt : forall n r, (0 < n)%N -> (fst (rg_randbelow n r) < n)%N
}.

(** The four methods of the [Faker] object the script calls.
    [date_time_between] reads the wall clock to resolve its relative bounds;
    the reading is passed as [now]. *)
Class FakerGen (F : Type) : Type := {
  fk_name : F -> string * F;
  fk_country : F -> string * F;
  fk_image_url : F -> string * F;
  fk_date_time_between : string -> string -> datetime -> F -> datetime * F
}.

(** [random()]: the float [m * 2^-53]. *)
Definition random_float (m : N) : float :=
  binary_normalize prec emax (Z.of_N m) (-53) false.

(** Exceptions the modelled calls can raise. *)
Inductive exn : Type :=
  | IndexError
  | ValueError
  | OSError.

Inductive result (A : Type) : Type :=
  | Ok (a : A)
  | Raise (e : exn).
Arguments Ok {A} a.
Arguments Raise {A} e.

(* ===================================================================== *)
(** ** Constants of the script *)

Definition NUM_AGENTS : Z := 25.
Definition NUM_CLIENTS : Z := 100.
Definition NUM_TRANSACTIONS : nat := 1000.

(** [string.ascii_uppercase + string.digits] *)
Definition ascii_uppercase : string := "ABCDEFGHIJKLMNOPQRSTUVWXYZ".
Definition digits : string := "0123456789".

Definition currencies : list string := ["USD"; "EUR"; "GBP"; "INR"; "AUD"; "CAD"].
Definition statuses : list string := ["Completed"; "Pending"; "Failed"; "Cancelled"].
Definition categories : list string := ["Send"; "Receive"; "Other"].

(* ===================================================================== *)
(** ** The generator *)

Section Generator.
Context {R F : Type} {HR : RandomGen R} {HF : FakerGen F}.

(** What a run reads: the state of the [random] module, the state of the
    [Faker] object, and the wall clock as the stream of its readings. *)
Record World : Type := mkWorld {
  w_random : R;
  w_faker : F;
  w_clock : nat -> datetime;
  w_ticks : nat
}.

Definition M (A : Type) : Type := World -> result (A * World).

Definition ret {A} (a : A) : M A := fun w => Ok (a, w).

Definition bind {A B} (c : M A) (k : A -> M B) : M B :=
  fun w =>
    match c w with
    | Ok (a, w') => k a w'
    | Raise e => Raise e
    end.

Definition raise {A} (e : exn) : M A := fun _ => Raise e.

Notation "x <- c ;; k" := (bind c (fun x => k))
  (at level 100, c at next level, right associativity).

(** Lifting a method of the [random] generator. *)
Definition with_random {A} (f : R -> A * R) : M A :=
  fun w =>
    let '(a, r) := f (w_random w) in
    Ok (a, mkWorld r (w_faker w) (w_clock w) (w_ticks w)).

(** Lifting a method of the [Faker] object. *)
Definition with_faker {A} (f : F -> A * F) : M A :=
  fun w =>
    let '(a, f') := f (w_faker w) in
    Ok (a, mkWorld (w_random w) f' (w_clock w) (w_ticks w)).

(** [datetime.now()] *)
Definition now : M datetime :=
  fun w =>
    Ok (w_clock w (w_ticks w),
        mkWorld (w_random w) (w_faker w) (w_clock w) (S (w_ticks w))).

(** *** The [random] module *)

Definition random : M float :=
  m <- with_random rg_random ;; ret (random_float m).

(** [random.randint(a, b)]: [a + _randbelow(b - a + 1)], [ValueError] on
    an empty range. *)
Definition randint (a b : Z) : M Z :=
  let width := b + 1 - a in
  if width <=? 0 then raise ValueError
  else k <- with_random (rg_randbelow (Z.to_N width)) ;; ret (a + Z.of_N k).

(** [random.choice(seq)]: [seq[_randbelow(len(seq))]], [IndexError] on an
    empty sequence. *)
Definition choice {A} (seq : list A) : M A :=
  match seq with
  | [] => raise IndexError
  | _ =>
      i <- with_random (rg_randbelow (N.of_nat (length seq))) ;;
      match nth_error seq (N.to_nat i) with
      | Some x => ret x
      | None => raise IndexError
      end
  end.

(** [random.uniform(a, b)] on [int] bounds: [a + (b - a) * random()]. *)
Definition uniform (a b : Z) : M float :=
  r <- random ;;
  ret (float_add (float_of_Z a) (float_mul (float_of_Z (b - a)) r)).

(** [seq[i]] for a Python [int] index: negative indices count from the
    end, anything else out of range raises [IndexError]. *)
Definition getitem {A} (seq : list A) (i : Z) : M A :=
  let n := Z.of_nat (length seq) in
  let j := if i <? 0 then i + n else i in
  if (0 <=? j) && (j <? n) then
    match nth_error seq (Z.to_nat j) with
    | Some x => ret x
    | None => raise IndexError
    end
  else raise IndexError.

(** [random.choices(population, k=k)] without weights:
    [[population[floor(random() * n)] for i in range(k)]] with
    [n = len(population) + 0.0]. *)
Fixpoint choices {A} (population : list A) (k : nat) : M (list A) :=
  match k with
  | O => ret []
  | S k' =>
      r <- random ;;
      match py_floor (float_mul r (float_of_Z (Z.of_nat (length population)))) with
      | Some i =>
          x <- getitem population i ;;
          xs <- choices population k' ;;
          ret (x :: xs)
      | None => raise ValueError
      end
  end.

(** *** The helpers of the script *)

(** [random_datetime(start, end)] *)
Definition random_datetime (start end_ : string) : M datetime :=
  t <- now ;;
  with_faker (fk_date_time_between start end_ t).

(** [generate_transaction_code()] *)
Definition generate_transaction_code : M string :=
  cs <- choices (list_ascii_of_string (ascii_uppercase ++ digits)) 8 ;;
  ret ("TXN-" ++ string_of_list_ascii cs).

(** The dict literal of the comprehension, for the loop index [i]. *)
Definition transaction (i : nat) : M dict :=
  code <- generate_transaction_code ;;
  client <- randint 1 NUM_CLIENTS ;;
  client_name <- with_faker fk_name ;;
  agent <- randint 1 NUM_AGENTS ;;
  agent_name <- with_faker fk_name ;;
  tdate <- random_datetime "-5y" "now" ;;
  amount <- uniform 10 10000 ;;
  currency <- choice currencies ;;
  origin <- with_faker fk_country ;;
  destination <- with_faker fk_country ;;
  fee <- uniform 1 50 ;;
  status <- choice statuses ;;
  sdate <- random_datetime "-5y" "now" ;;
  category <- choice categories ;;
  icon <- with_faker fk_image_url ;;
  fraud <- choice [0; 1] ;;
  ret [ ("TransactionID", VInt (Z.of_nat i + 1));
        ("TransactionCode", VStr code);
        ("ClientID", VInt client);
        ("ClientFullName", VStr client_name);
        ("AgentID", VInt agent);
        ("AgentFullName", VStr agent_name);
        ("TransactionDate", VStr (isoformat tdate));
        ("Amount", VFloat (py_round amount 2));
        ("Currency", VStr currency);
        ("OriginalCountry", VStr origin);
        ("DestinationCountry", VStr destination);
        ("Fee", VFloat (py_round fee 2));
        ("TransactionStatus", VStr status);
        ("StatusDate", VStr (isoformat sdate));
        ("Category", VStr category);
        ("Icon", VStr icon);
        ("IsFraudulent", VInt fraud) ].

(** [[f(i) for i in range(start, start + count)]] *)
Fixpoint comprehension {A} (f : nat -> M A) (start count : nat) : M (list A) :=
  match count with
  | O => ret []
  | S c =>
      x <- f start ;;
      xs <- comprehension f (S start) c ;;
      ret (x :: xs)
  end.

(** [transactions_data], for a count [n] of transactions. *)
Definition transactions_data_of (n : nat) : M (list dict) :=
  comprehension transaction 0 n.

Definition transactions_data : M (list dict) :=
  transactions_data_of NUM_TRANSACTIONS.

End Generator.

Arguments World R F : clear implicits.
Arguments M R F A : clear implicits.


(* ===================================================================== *)
(** ** The schema of a record *)

(** The 17 field names, in the order of the schema table. *)
Definition schema_fields : list string :=
  [ "TransactionID"; "TransactionCode"; "ClientID"; "ClientFullName";
    "AgentID"; "AgentFullName"; "TransactionDate"; "Amount"; "Currency";
    "OriginalCountry"; "DestinationCountry"; "Fee"; "TransactionStatus";
    "StatusDate"; "Category"; "Icon"; "IsFraudulent" ].

(** The pattern [TXN-[A-Z0-9]{8}]. *)
Definition is_upper_or_digit (c : ascii) : bool :=
  let n := nat_of_ascii c in
  ((65 <=? n)%nat && (n <=? 90)%nat) || ((48 <=? n)%nat && (n <=? 57)%nat).

Definition matches_txn_pattern (s : string) : bool :=
  match s with
  | String "T" (String "X" (String "N" (String "-" rest))) =>
      (String.length rest =? 8)%nat
      && forallb is_upper_or_digit (list_ascii_of_string rest)
  | _ => false
  end.

(* ===================================================================== *)
(** ** Serialization *)

Definition dquote : ascii := "034"%char.
Definition backslash : ascii := "092"%char.
Definition newline : ascii := "010"%char.
Definition carriage_return : ascii := "013"%char.
Definition tab : ascii := "009"%char.
Definition backspace : ascii := "008"%char.
Definition formfeed : ascii := "012"%char.

Definition nl : string := String newline "".

Fixpoint spaces (n : nat) : string :=
  match n with
  | O => ""
  | S n' => String " " (spaces n')
  end.

(** [sep.join(l)] *)
Definition join (sep : string) (l : list string) : string := String.concat sep l.

(** *** Python objects, as [json] sees them *)

#[local] Unset Elimination Schemes.
Inductive pyobj : Type :=
  | PNone
  | PBool (b : bool)
  | PInt (z : Z)
  | PFloat (x : float)
  | PStr (s : string)
  | PList (l : list pyobj)
  | PDict (d : list (string * pyobj)).
#[local] Set Elimination Schemes.

Definition obj_of_value (v : value) : pyobj :=
  match v with
  | VInt z => PInt z
  | VFloat x => PFloat x
  | VStr s => PStr s
  end.

Definition obj_of_dict (d : dict) : pyobj :=
  PDict (map (fun kv => (fst kv, obj_of_value (snd kv))) d).

Definition obj_of_data (data : list dict) : pyobj := PList (map obj_of_dict data).

(** The types of these objects. *)
Inductive pytype : Type :=
  | TNoneType | TBool | TInt | TFloat | TStr | TList | TDict.

(** [type(o)] *)
Definition type_of (o : pyobj) : pytype :=
  match o with
  | PNone => TNoneType
  | PBool _ => TBool
  | PInt _ => TInt
  | PFloat _ => TFloat
  | PStr _ => TStr
  | PList _ => TList
  | PDict _ => TDict
  end.

Definition value_type (v : value) : pytype := type_of (obj_of_value v).

(** *** [json.dump(obj, f, indent=4)] *)

Definition hex_digit (n : N) : ascii :=
  nth (N.to_nat n) (list_ascii_of_string "0123456789abcdef") "0"%char.

(** One character of a string, as [json] writes it with [ensure_ascii]:
    the short escapes, the character itself from space to tilde, and
    [\u00xx] for the others. *)
Definition escape_char (c : ascii) : string :=
  if Ascii.eqb c dquote then String backslash (String dquote "")
  else if Ascii.eqb c backslash then String backslash (String backslash "")
  else if Ascii.eqb c newline then String backslash "n"
  else if Ascii.eqb c carriage_return then String backslash "r"
  else if Ascii.eqb c tab then String backslash "t"
  else if Ascii.eqb c backspace then String backslash "b"
  else if Ascii.eqb c formfeed then String backslash "f"
  else
    let n := N_of_ascii c in
    if ((32 <=? n) && (n <=? 126))%N then String c ""
    else String backslash
           (String "u" (String "0" (String "0"
              (String (hex_digit (n / 16)) (String (hex_digit (n mod 16)) ""))))).

Fixpoint escape_chars (s : string) : string :=
  match s with
  | EmptyString => ""
  | String c s' => escape_char c ++ escape_chars s'
  end.

Definition py_encode_basestring_ascii (s : string) : string :=
  String dquote (escape_chars s ++ String dquote "").

Definition float_json (x : float) : string :=
  match x with
  | S754_nan => "NaN"
  | S754_infinity false => "Infinity"
  | S754_infinity true => "-Infinity"
  | _ => float_repr x
  end.

Definition newline_indent (indent level : nat) : string :=
  nl ++ spaces (indent * level).

(** The encoder of [json], with [indent] spaces per nesting level, the item
    separator [,] and the key separator [: ]. *)
Fixpoint encode (indent level : nat) (o : pyobj) : string :=
  match o with
  | PNone => "null"
  | PBool true => "true"
  | PBool false => "false"
  | PInt z => str_of_Z z
  | PFloat x => float_json x
  | PStr s => py_encode_basestring_ascii s
  | PList [] => "[]"
  | PList l =>
      "[" ++ newline_indent indent (S level)
      ++ join ("," ++ newline_indent indent (S level))
           (map (encode indent (S level)) l)
      ++ newline_indent indent level ++ "]"
  | PDict [] => "{}"
  | PDict d =>
      "{" ++ newline_indent indent (S level)
      ++ join ("," ++ newline_indent indent (S level))
           (map (fun kv =>
                   match kv with
                   | (k, v) =>
                       py_encode_basestring_ascii k ++ ": "
                       ++ encode indent (S level) v
                   end) d)
      ++ newline_indent indent level ++ "}"
  end.

Definition json_dumps_indent4 (o : pyobj) : string := encode 4 0 o.

(** *** [json.load] *)

Definition is_ws (c : ascii) : bool :=
  Ascii.eqb c " " || Ascii.eqb c newline || Ascii.eqb c carriage_return
  || Ascii.eqb c tab.

Fixpoint skip_ws (s : string) : string :=
  match s with
  | String c s' => if is_ws c then skip_ws s' else s
  | EmptyString => s
  end.

Definition is_digit (c : ascii) : bool :=
  let n := N_of_ascii c in ((48 <=? n) && (n <=? 57))%N.

(** The longest prefix of digits, and what follows it. *)
Fixpoint take_digits (s : string) : string * string :=
  match s with
  | String c s' =>
      if is_digit c then let '(ds, rest) := take_digits s' in (String c ds, rest)
      else ("", s)
  | EmptyString => ("", s)
  end.

(** The number a string of digits denotes. *)
Definition digits_value (ds : string) : N :=
  match NilZero.uint_of_string ds with
  | Some u => N.of_uint u
  | None => 0%N
  end.

Definition hex_value (c : ascii) : option N :=
  let n := N_of_ascii c in
  if ((48 <=? n) && (n <=? 57))%N then Some (n - 48)%N
  else if ((97 <=? n) && (n <=? 102))%N then Some (n - 87)%N
  else if ((65 <=? n) && (n <=? 70))%N then Some (n - 55)%N
  else None.

(** The body of a string literal, after its opening quote: up to the
    closing quote, with the escapes undone.  Control characters must be
    escaped; a [\u] escape beyond [ÿ] is outside the represented code
    points. *)
Fixpoint scan_string (s : string) : option (string * string) :=
  match s with
  | EmptyString => None
  | String c s' =>
      if Ascii.eqb c dquote then Some ("", s')
      else if Ascii.eqb c backslash then
        match s' with
        | String e s'' =>
            let simple (ch : ascii) :=
              match scan_string s'' with
              | Some (body, rest) => Some (String ch body, rest)
              | None => None
              end in
            if Ascii.eqb e dquote then simple dquote
            else if Ascii.eqb e backslash then simple backslash
            else if Ascii.eqb e "/" then simple "/"%char
            else if Ascii.eqb e "b" then simple backspace
            else if Ascii.eqb e "f" then simple formfeed
            else if Ascii.eqb e "n" then simple newline
            else if Ascii.eqb e "r" then simple carriage_return
            else if Ascii.eqb e "t" then simple tab
            else if Ascii.eqb e "u" then
              match s'' with
              | String h1 (String h2 (String h3 (String h4 s3))) =>
                  match hex_value h1, hex_value h2, hex_value h3, hex_value h4 with
                  | Some 0%N, Some 0%N, Some a, Some b =>
                      match scan_string s3 with
                      | Some (body, rest) =>
                          Some (String (ascii_of_N (16 * a + b)) body, rest)
                      | None => None
                      end
                  | _, _, _, _ => None
                  end
              | _ => None
              end
            else None
        | EmptyString => None
        end
      else if (N_of_ascii c <? 32)%N then None
      else
        match scan_string s' with
        | Some (body, rest) => Some (String c body, rest)
        | None => None
        end
  end.

(** The float a decimal literal denotes: [j / 10^d], read correctly
    rounded. *)
Definition float_of_decimal (negative : bool) (j : N) (d : Z) : float :=
  match j with
  | N0 => S754_zero negative
  | Npos pj =>
      let y :=
        match d with
        | Zneg k => float_of_ratio (pj * Z.to_pos (10 ^ Zpos k)) 1
        | _ => float_of_ratio pj (Z.to_pos (10 ^ d))
        end in
      if negative then SFopp y else y
  end.

(** A number: an optional sign, an integer part without leading zeros, an
    optional fraction and an optional exponent; an [int] when it has
    neither fraction nor exponent, a [float] otherwise. *)
Definition scan_number (s : string) : option (pyobj * string) :=
  let '(negative, s1) :=
    match s with
    | String "-" s' => (true, s')
    | _ => (false, s)
    end in
  let '(int_part, s2) :=
    match s1 with
    | String "0" s' => ("0", s')
    | _ => take_digits s1
    end in
  if (String.length int_part =? 0)%nat then None
  else
    let '(frac, s3) :=
      match s2 with
      | String "." s' =>
          let '(ds, rest) := take_digits s' in
          if (String.length ds =? 0)%nat then ("", s2) else (ds, rest)
      | _ => ("", s2)
      end in
    let '(has_exp, exp, s4) :=
      match s3 with
      | String c s' =>
          if Ascii.eqb c "e" || Ascii.eqb c "E" then
            let '(neg_exp, s'') :=
              match s' with
              | String "-" t => (true, t)
              | String "+" t => (false, t)
              | _ => (false, s')
              end in
            let '(ds, rest) := take_digits s'' in
            if (String.length ds =? 0)%nat then (false, 0%Z, s3)
            else (true, if neg_exp then (- Z.of_N (digits_value ds))%Z
                        else Z.of_N (digits_value ds), rest)
          else (false, 0%Z, s3)
      | EmptyString => (false, 0%Z, s3)
      end in
    if (String.length frac =? 0)%nat && negb has_exp then
      let n := Z.of_N (digits_value int_part) in
      Some (PInt (if negative then (- n)%Z else n), s4)
    else
      Some (PFloat (float_of_decimal negative (digits_value (int_part ++ frac))
                      (Z.of_nat (String.length frac) - exp)), s4).

(** [d[k] = v] on a dict in insertion order. *)
Fixpoint dict_set {V} (k : string) (v : V) (d : list (string * V)) : list (string * V) :=
  match d with
  | [] => [(k, v)]
  | (k', v') :: d' =>
      if String.eqb k k' then (k, v) :: d' else (k', v') :: dict_set k v d'
  end.

(** The items of a non-empty array and its closing bracket, separated by
    commas.  [fuel] bounds the number of items. *)
Fixpoint scan_items (value : string -> option (pyobj * string)) (fuel : nat)
    (s : string) : option (list pyobj * string) :=
  match fuel with
  | O => None
  | S fuel' =>
      match value s with
      | Some (v, rest) =>
          match skip_ws rest with
          | String "," rest' =>
              match scan_items value fuel' (skip_ws rest') with
              | Some (vs, rest'') => Some (v :: vs, rest'')
              | None => None
              end
          | String "]" rest' => Some ([v], rest')
          | _ => None
          end
      | None => None
      end
  end.

(** The members of a non-empty object and its closing brace: a key, a
    colon and a value each, separated by commas. *)
Fixpoint scan_members (value : string -> option (pyobj * string)) (fuel : nat)
    (s : string) : option (list (string * pyobj) * string) :=
  match fuel with
  | O => None
  | S fuel' =>
      match s with
      | String c s' =>
          if Ascii.eqb c dquote then
            match scan_string s' with
            | Some (k, rest) =>
                match skip_ws rest with
                | String ":" rest1 =>
                    match value (skip_ws rest1) with
                    | Some (v, rest2) =>
                        match skip_ws rest2 with
                        | String "," rest3 =>
                            match scan_members value fuel' (skip_ws rest3) with
                            | Some (kvs, rest4) => Some ((k, v) :: kvs, rest4)
                            | None => None
                            end
                        | String "}" rest3 => Some ([(k, v)], rest3)
                        | _ => None
                        end
                    | None => None
                    end
                | _ => None
                end
            | None => None
            end
          else None
      | EmptyString => None
      end
  end.

Definition starts_with (p s : string) : option string :=
  if String.prefix p s then Some (String.substring (String.length p) (String.length s - String.length p) s)
  else None.

(** One JSON value at the head of [s]; [depth] bounds the nesting, as the
    interpreter's recursion limit does. *)
Fixpoint scan_value (depth : nat) (s : string) : option (pyobj * string) :=
  match depth with
  | O => None
  | S depth' =>
      match s with
      | EmptyString => None
      | String c s' =>
          if Ascii.eqb c dquote then
            match scan_string s' with
            | Some (body, rest) => Some (PStr body, rest)
            | None => None
            end
          else if Ascii.eqb c "[" then
            match skip_ws s' with
            | String "]" rest => Some (PList [], rest)
            | s'' =>
                match scan_items (scan_value depth') (String.length s'') s'' with
                | Some (vs, rest) => Some (PList vs, rest)
                | None => None
                end
            end
          else if Ascii.eqb c "{" then
            match skip_ws s' with
            | String "}" rest => Some (PDict [], rest)
            | s'' =>
                match scan_members (scan_value depth') (String.length s'') s'' with
                | Some (kvs, rest) =>
                    Some (PDict (fold_left (fun d kv => dict_set (fst kv) (snd kv) d) kvs []),
                          rest)
                | None => None
                end
            end
          else
            match starts_with "null" s, starts_with "true" s, starts_with "false" s with
            | Some rest, _, _ => Some (PNone, rest)
            | _, Some rest, _ => Some (PBool true, rest)
            | _, _, Some rest => Some (PBool false, rest)
            | _, _, _ =>
                match starts_with "NaN" s, starts_with "Infinity" s,
                      starts_with "-Infinity" s with
                | Some rest, _, _ => Some (PFloat S754_nan, rest)
                | _, Some rest, _ => Some (PFloat (S754_infinity false), rest)
                | _, _, Some rest => Some (PFloat (S754_infinity true), rest)
                | _, _, _ => scan_number s
                end
            end
      end
  end.

Definition recursion_limit : nat := 1000.

(** [json.loads(s)]: one value, with nothing but white space around it. *)
Definition json_loads (s : string) : option pyobj :=
  match scan_value recursion_limit (skip_ws s) with
  | Some (v, rest) =>
      match skip_ws rest with
      | EmptyString => Some v
      | _ => None
      end
  | None => None
  end.

(** *** [pandas.DataFrame(data).to_csv(path, index=False)] *)

(** The columns of a frame built from a list of dicts: their keys, in the
    order of first appearance. *)
Definition add_column (cols : list string) (k : string) : list string :=
  if existsb (String.eqb k) cols then cols else cols ++ [k].

Definition columns (data : list dict) : list string :=
  fold_left (fun cols d => fold_left add_column (keys d) cols) data [].

(** A field is quoted when it holds the delimiter, the quote character or
    a character of the line terminator, which is the line feed here; a
    carriage return alone does not make [csv] quote a field.  A quote
    inside a quoted field is written twice. *)
Definition needs_quoting (s : string) : bool :=
  existsb (fun c => Ascii.eqb c "," || Ascii.eqb c dquote || Ascii.eqb c newline)
    (list_ascii_of_string s).

Fixpoint double_quotes (s : string) : string :=
  match s with
  | EmptyString => ""
  | String c s' =>
      if Ascii.eqb c dquote then String dquote (String dquote (double_quotes s'))
      else String c (double_quotes s')
  end.

Definition csv_field (s : string) : string :=
  if needs_quoting s then String dquote (double_quotes s ++ String dquote "")
  else s.

(** The text of a cell; a missing value and NaN are written empty. *)
Definition csv_cell (v : option value) : string :=
  match v with
  | None => ""
  | Some (VInt z) => str_of_Z z
  | Some (VFloat S754_nan) => ""
  | Some (VFloat x) => float_repr x
  | Some (VStr s) => csv_field s
  end.

Definition csv_row (cols : list string) (d : dict) : string :=
  join "," (map (fun c => csv_cell (dict_get c d)) cols).

Definition csv_lines (data : list dict) : list string :=
  let cols := columns data in
  join "," (map csv_field cols) :: map (csv_row cols) data.

Fixpoint unlines (ls : list string) : string :=
  match ls with
  | [] => ""
  | l :: ls' => l ++ nl ++ unlines ls'
  end.

Definition to_csv (data : list dict) : string := unlines (csv_lines data).

(** *** The two texts for records of the schema *)

(** What the two writers give when every record holds the fields of the
    schema and the floats are positive and normal, written with the
    writers' own helpers; the writers are proved to give these texts, and
    the texts are then read with readers that share nothing with them. *)

(** The text of a value in a CSV row: numbers in decimal, a string as it is
    (quoted when it holds a delimiter). *)
Definition csv_text (v : value) : string :=
  match v with
  | VInt z => str_of_Z z
  | VFloat x => float_repr x
  | VStr s => csv_field s
  end.

(** The text of a value in a JSON object: numbers unquoted, in decimal,
    strings quoted. *)
Definition json_text (v : value) : string :=
  match v with
  | VInt z => str_of_Z z
  | VFloat x => float_repr x
  | VStr s => py_encode_basestring_ascii s
  end.

(** The text of [to_csv]: the header row with the field names of the
    schema, then one row per record. *)
Definition records_csv (data : list dict) : string :=
  unlines (join "," schema_fields
           :: map (fun d => join "," (map csv_text (values d))) data).

(** The text of [json.dump]: an array of objects, one per record, each
    member on a line of its own; objects are indented by 4 spaces, members
    by 8. *)
Definition field_member (kv : string * value) : string :=
  spaces 8 ++ py_encode_basestring_ascii (fst kv) ++ ": " ++ json_text (snd kv).

Definition record_object (d : dict) : string :=
  spaces 4 ++ "{" ++ nl
  ++ join ("," ++ nl) (map field_member d) ++ nl
  ++ spaces 4 ++ "}".

Definition records_json (data : list dict) : string :=
  "[" ++ nl ++ join ("," ++ nl) (map record_object data) ++ nl ++ "]".

(* ===================================================================== *)
(** ** The script *)

(** The working directory: its files, the paths that cannot be opened for
    writing (a permission denied), and, for the paths the file system
    cannot hold in full (a full disk, a quota), the number of characters
    that reach the file before the write fails. *)
Record filesystem : Type := mkFileSystem {
  fs_files : gmap string string;
  fs_denied : gset string;
  fs_room : gmap string nat
}.

(** A working directory with room for every write. *)
Definition mkFS (files_ : gmap string string) (denied : gset string) : filesystem :=
  mkFileSystem files_ denied ∅.

Definition with_file (path content : string) (fs : filesystem) : filesystem :=
  mkFileSystem (<[path := content]> (fs_files fs)) (fs_denied fs) (fs_room fs).

(** [open(path, "w")] followed by the writes and the close.  When the path
    cannot be opened, [OSError] is raised and nothing changes.  When it is
    opened, the file is emptied and the characters are written; when the
    file system has no room for all of them, the file is left with those
    that reached it and [OSError] is raised. *)
Definition write_file (path content : string) (fs : filesystem)
    : filesystem * result unit :=
  if decide (path ∈ fs_denied fs) then (fs, Raise OSError)
  else
    match fs_room fs !! path with
    | Some room =>
        if (room <? String.length content)%nat then
          (with_file path (String.substring 0 room content) fs, Raise OSError)
        else (with_file path content fs, Ok tt)
    | None => (with_file path content fs, Ok tt)
    end.

Definition completion_message : string :=
  "Data generation complete. Files saved as CSV, JSON, and SQL dump.".

(** How a run of the interpreter ends: the exit status, the files, and the
    lines printed on standard output. *)
Record outcome : Type := mkOutcome {
  exit_code : Z;
  files : filesystem;
  stdout : list string
}.

Section Script.
Context {R F : Type} {HR : RandomGen R} {HF : FakerGen F}.

(** The script with [n] transactions: an exception that nothing handles
    ends the interpreter with status 1. *)
Definition run_script_of (n : nat) (w : World R F) (fs : filesystem) : outcome :=
  match transactions_data_of n w with
  | Raise _ => mkOutcome 1 fs []
  | Ok (transactions_data, _) =>
      match write_file "transactions_.csv" (to_csv transactions_data) fs with
      | (fs1, Raise _) => mkOutcome 1 fs1 []
      | (fs1, Ok _) =>
          match write_file "transactions_.json"
                  (json_dumps_indent4 (obj_of_data transactions_data)) fs1 with
          | (fs2, Raise _) => mkOutcome 1 fs2 []
          | (fs2, Ok _) => mkOutcome 0 fs2 [completion_message]
          end
      end
  end.


End Script.
(* ===================================================================== *)
(** ** A concrete source: tapes of draws *)

(** A generator that replays a finite tape of raw draws, then zeros. *)
Definition tape_next (t : list N) : N * list N :=
  match t with
  | [] => (0%N, [])
  | x :: t' => (x, t')
  end.

Definition tape_random_draw (t : list N) : N * list N :=
  let '(x, t') := tape_next t in ((x mod 2 ^ 53)%N, t').

Definition tape_randbelow (n : N) (t : list N) : N * list N :=
  let '(x, t') := tape_next t in ((x mod n)%N, t').

Lemma tape_random_draw_lt t : (fst (tape_random_draw t) < 2 ^ 53)%N.
Proof.
  unfold tape_random_draw. destruct (tape_next t) as [x t']. cbn [fst].
  apply N.mod_lt. discriminate.
Qed.

Lemma tape_randbelow_lt n t : (0 < n)%N -> (fst (tape_randbelow n t) < n)%N.
Proof.
  intros Hn. unfold tape_randbelow. destruct (tape_next t) as [x t']. cbn [fst].
  apply N.mod_lt. lia.
Qed.

#[export] Instance tape_RandomGen : RandomGen (list N) :=
  Build_RandomGen (list N) tape_random_draw tape_randbelow
    tape_random_draw_lt tape_randbelow_lt.

(** A provider in the manner of Faker: names, countries and URLs picked from
    tables by one draw, a date as a whole number of seconds picked between
    the two resolved bounds. *)
Definition sample_names : list string := ["Alice Martin"; "Bob Stone"; "Carol Reyes"].
Definition sample_countries : list string := ["France"; "Kenya"; "Peru"; "Japan"].
Definition sample_urls : list string :=
  ["https://picsum.photos/640/480"; "https://placekitten.com/320/240"].

Definition tape_pick (table : list string) (t : list N) : string * list N :=
  let '(x, t') := tape_next t in
  (nth (N.to_nat x mod length table) table "", t').

(** The offset in seconds of a relative bound: [now] and [-5y], a year
    counting 365 days. *)
Definition relative_seconds (bound : string) : Z :=
  if String.eqb bound "-5y" then - (5 * 365 * sec_per_day) else 0.

Definition tape_date_time_between (start end_ : string) (now : datetime)
    (t : list N) : datetime * list N :=
  let now_s := now / usec_per_sec in
  let lo := now_s + relative_seconds start in
  let hi := now_s + relative_seconds end_ in
  let '(x, t') := tape_next t in
  ((lo + Z.of_N x mod (hi - lo + 1)) * usec_per_sec, t').

#[export] Instance tape_FakerGen : FakerGen (list N) :=
  Build_FakerGen (list N) (tape_pick sample_names) (tape_pick sample_countries)
    (tape_pick sample_urls) tape_date_time_between.

Definition tape_world (rs fs : list N) (clock : nat -> datetime) : World (list N) (list N) :=
  mkWorld rs fs clock 0.


(** A clock stopped at [t]. *)
Definition stopped_clock (t : datetime) : nat -> datetime := fun _ => t.

(** 2025-11-04T09:53:20.123456 *)
Definition sample_time : datetime := 1762250000 * 1000000 + 123456.
(* ===================================================================== *)
(** * Properties *)

(** ** Rounding to binary64 *)

(** The location of [r / d] in the unit interval, for [0 <= r < d]. *)
Definition loc_ratio (r d : Z) : location :=
  if r =? 0 then loc_Exact else loc_Inexact (2 * r ?= d).


Lemma digits2_pos_bounds p :
  2 ^ (Zpos (digits2_pos p) - 1) <= Zpos p < 2 ^ Zpos (digits2_pos p).
Proof.
  induction p as [p IH|p IH|]; cbn [digits2_pos].
  - rewrite Pos2Z.inj_succ, Z.pow_succ_r by lia.
    replace (Z.succ (Zpos (digits2_pos p)) - 1) with (Z.succ (Zpos (digits2_pos p) - 1)) by lia.
    rewrite Z.pow_succ_r by lia. lia.
  - rewrite Pos2Z.inj_succ, Z.pow_succ_r by lia.
    replace (Z.succ (Zpos (digits2_pos p)) - 1) with (Z.succ (Zpos (digits2_pos p) - 1)) by lia.
    rewrite Z.pow_succ_r by lia. lia.
  - cbn. lia.
Qed.

(** The digit count is determined by the binade. *)
Lemma digits2_pos_unique p d :
  2 ^ (d - 1) <= Zpos p < 2 ^ d -> Zpos (digits2_pos p) = d.
Proof.
  intros [Hlo Hhi]. pose proof (digits2_pos_bounds p) as [Hlo' Hhi'].
  assert (0 < d).
  { destruct (Z.ltb_spec 0 d) as [?|Hd]; [assumption|].
    rewrite (Z.pow_neg_r 2 (d - 1)) in Hlo by lia.
    destruct (Z.eqb_spec d 0) as [->|]; [cbn in Hhi; lia|].
    rewrite Z.pow_neg_r in Hhi by lia. lia. }
  assert (Zpos (digits2_pos p) - 1 < d).
  { apply (Z.pow_lt_mono_r_iff 2); lia. }
  assert (d - 1 < Zpos (digits2_pos p)).
  { apply (Z.pow_lt_mono_r_iff 2); lia. }
  lia.
Qed.

Lemma round_half_even_error num den :
  0 < den -> 2 * Z.abs (round_half_even num den * den - num) <= den.
Proof.
  intros Hden. unfold round_half_even.
  pose proof (Z.div_mod num den ltac:(lia)) as Hdm.
  pose proof (Z.mod_pos_bound num den Hden) as Hr.
  destruct (Z.compare_spec (2 * (num mod den)) den) as [He|Hl|Hg];
    [destruct (Z.even (num / den))|..]; lia.
Qed.

Lemma round_half_even_ge num den a :
  0 < den -> a * den <= num -> a <= round_half_even num den.
Proof.
  intros Hden Ha. unfold round_half_even.
  pose proof (Z.div_mod num den ltac:(lia)) as Hdm.
  pose proof (Z.mod_pos_bound num den Hden) as Hr.
  assert (a <= num / den) by (apply Z.div_le_lower_bound; lia).
  destruct (2 * (num mod den) ?= den); [destruct (Z.even (num / den))|..]; lia.
Qed.

Lemma round_half_even_le num den a :
  0 < den -> num <= a * den -> round_half_even num den <= a.
Proof.
  intros Hden Ha. unfold round_half_even.
  pose proof (Z.div_mod num den ltac:(lia)) as Hdm.
  pose proof (Z.mod_pos_bound num den Hden) as Hr.
  destruct (Z.eq_dec (num mod den) 0) as [H0|H0].
  - rewrite H0. assert (num / den <= a) by nia.
    destruct (Z.compare_spec (2 * 0) den); try lia.
  - assert (num / den < a) by nia.
    destruct (2 * (num mod den) ?= den); [destruct (Z.even (num / den))|..]; lia.
Qed.

(** Strict versions, off the half-way points. *)
Lemma round_half_even_gt_half num den a :
  0 < den -> 2 * a * den - den < 2 * num -> a <= round_half_even num den.
Proof.
  intros Hden Ha. unfold round_half_even.
  pose proof (Z.div_mod num den ltac:(lia)) as Hdm.
  pose proof (Z.mod_pos_bound num den Hden) as Hr.
  assert (a - 1 <= num / den) by (apply Z.div_le_lower_bound; lia).
  destruct (Z.compare_spec (2 * (num mod den)) den) as [He|Hl|Hg];
    [destruct (Z.even (num / den))|..]; nia.
Qed.

Lemma round_half_even_lt_half num den a :
  0 < den -> 2 * num < 2 * a * den + den -> round_half_even num den <= a.
Proof.
  intros Hden Ha. unfold round_half_even.
  pose proof (Z.div_mod num den ltac:(lia)) as Hdm.
  pose proof (Z.mod_pos_bound num den Hden) as Hr.
  assert (num / den <= a) by (apply Z.lt_succ_r, Z.div_lt_upper_bound; lia).
  destruct (Z.compare_spec (2 * (num mod den)) den) as [He|Hl|Hg];
    [destruct (Z.even (num / den))|..]; nia.
Qed.


(** A shift record [mrs] stands for the quotient [num / D] when its mantissa
    is the integer quotient and its two bits locate the remainder. *)
Definition represents (mrs : shr_record) (num D : Z) : Prop :=
  shr_m mrs = num / D /\ loc_of_shr_record mrs = loc_ratio (num mod D) D.

Lemma represents_of_loc num D :
  0 < D -> represents (shr_record_of_loc (num / D) (loc_ratio (num mod D) D)) num D.
Proof.
  intros HD. unfold represents, loc_ratio.
  destruct (num mod D =? 0); [split; reflexivity|].
  destruct (2 * (num mod D) ?= D); split; reflexivity.
Qed.

Lemma loc_of_shr_record_cases mrs :
  loc_of_shr_record mrs =
  match shr_r mrs, shr_s mrs with
  | false, false => loc_Exact
  | false, true => loc_Inexact Lt
  | true, false => loc_Inexact Eq
  | true, true => loc_Inexact Gt
  end.
Proof. destruct mrs as [m [|] [|]]; reflexivity. Qed.

Lemma shr_1_nonneg m r s :
  0 <= m ->
  shr_1 (Build_shr_record m r s) = Build_shr_record (m / 2) (Z.odd m) (r || s).
Proof.
  intros Hm. destruct m as [|[p|p|]|p]; try lia; cbn [shr_1].
  - reflexivity.
  - replace (Z.pos p~1 / 2) with (Z.pos p); [reflexivity|].
    apply (Z.div_unique _ _ _ 1); lia.
  - replace (Z.pos p~0 / 2) with (Z.pos p); [reflexivity|].
    apply (Z.div_unique _ _ _ 0); lia.
  - reflexivity.
Qed.

Lemma loc_ratio_inv r D :
  0 <= r < D ->
  (loc_ratio r D = loc_Exact -> r = 0) /\
  (loc_ratio r D = loc_Inexact Lt -> 0 < r /\ 2 * r < D) /\
  (loc_ratio r D = loc_Inexact Eq -> 2 * r = D) /\
  (loc_ratio r D = loc_Inexact Gt -> D < 2 * r).
Proof.
  intros Hr. unfold loc_ratio.
  destruct (Z.eqb_spec r 0) as [->|Hne].
  - split; [|split; [|split]]; intros Hx; try discriminate; lia.
  - destruct (Z.compare_spec (2 * r) D); (split; [|split; [|split]]); intros Hx;
      try discriminate; try lia.
Qed.

Lemma shr_1_represents mrs num D :
  0 <= num -> 0 < D -> represents mrs num D -> represents (shr_1 mrs) num (2 * D).
Proof.
  intros Hnum HD [Hm Hloc].
  destruct mrs as [m r s]. cbn [shr_m] in Hm.
  assert (0 <= m) by (subst m; apply Z.div_pos; lia).
  rewrite shr_1_nonneg by assumption.
  rewrite loc_of_shr_record_cases in Hloc. cbn [shr_r shr_s] in Hloc.
  pose proof (Z.div_mod num D ltac:(lia)) as Hdm.
  pose proof (Z.mod_pos_bound num D HD) as Hr.
  pose proof (Z.div_mod num (2 * D) ltac:(lia)) as Hdm2.
  pose proof (Z.mod_pos_bound num (2 * D) ltac:(lia)) as Hr2.
  pose proof (Z.div_mod m 2 ltac:(lia)) as Hdmm.
  pose proof (Z.mod_pos_bound m 2 ltac:(lia)) as Hrm.
  assert (Hq : m / 2 = num / (2 * D)).
  { subst m. rewrite Z.div_div by lia. f_equal. lia. }
  assert (Hrem : num mod (2 * D) = num mod D + D * (m mod 2)) by nia.
  pose proof (loc_ratio_inv _ _ Hr) as (I1 & I2 & I3 & I4).
  split; [exact Hq|].
  rewrite loc_of_shr_record_cases. cbn [shr_r shr_s]. rewrite Hrem.
  pose proof (Zmod_odd m) as Hodd.
  unfold loc_ratio at 1.
  destruct r, s; cbn [orb];
    [specialize (I4 (eq_sym Hloc)) | specialize (I3 (eq_sym Hloc))
    | specialize (I2 (eq_sym Hloc)) | specialize (I1 (eq_sym Hloc))];
    destruct (Z.odd m); rewrite Hodd;
    match goal with |- context [?a =? 0] => destruct (Z.eqb_spec a 0) end;
    try lia; try reflexivity;
    match goal with |- context [?a ?= ?b] => destruct (Z.compare_spec a b) end;
    try lia; reflexivity.
Qed.

Lemma iter_pos_represents n : forall mrs num D,
  0 <= num -> 0 < D -> represents mrs num D ->
  represents (SpecFloat.iter_pos shr_1 n mrs) num (D * 2 ^ Zpos n).
Proof.
  induction n as [n IH|n IH|]; intros mrs num D Hnum HD Hrep; cbn [SpecFloat.iter_pos].
  - replace (D * 2 ^ Z.pos n~1) with (2 * D * 2 ^ Zpos n * 2 ^ Zpos n).
    + apply IH; try lia. apply IH; try lia. apply shr_1_represents; assumption.
    + replace (Z.pos n~1) with (Z.pos n + Z.pos n + 1) by lia.
      rewrite !Z.pow_add_r, Z.pow_1_r by lia. ring.
  - replace (D * 2 ^ Z.pos n~0) with (D * 2 ^ Zpos n * 2 ^ Zpos n).
    + apply IH; try lia. apply IH; try lia. assumption.
    + replace (Z.pos n~0) with (Z.pos n + Z.pos n) by lia.
      rewrite !Z.pow_add_r by lia. ring.
  - rewrite Z.pow_1_r, Z.mul_comm. apply shr_1_represents; assumption.
Qed.

Lemma round_nearest_even_represents mrs num D :
  0 < D -> represents mrs num D ->
  round_nearest_even (shr_m mrs) (loc_of_shr_record mrs) = round_half_even num D.
Proof.
  intros HD [Hm Hloc]. rewrite Hm, Hloc.
  unfold loc_ratio, round_half_even, round_nearest_even.
  destruct (Z.eqb_spec (num mod D) 0) as [E|E].
  - rewrite E. destruct (Z.compare_spec (2 * 0) D); lia.
  - destruct (2 * (num mod D) ?= D); reflexivity.
Qed.



(** The least exponent of binary64 is [-1074], the greatest [971]. *)
Lemma emin_eq : SpecFloat.emin prec emax = -1074.
Proof. reflexivity. Qed.

Lemma fexp_eq x : fexp prec emax x = Z.max (x - 53) (-1074).
Proof. reflexivity. Qed.

(** Rounding the quotient [num / den] (at exponent [e]) to 53 bits: for a
    quotient of at least 53 digits in the normal range, the mantissa is
    [num / (den * 2^n)] rounded to nearest-even, [n] being the number of
    digits in excess, renormalised when the rounding carries into a 54th
    digit. *)
Lemma binary_round_aux_ratio num den p e :
  0 < den -> num / den = Zpos p ->
  53 <= Zpos (digits2_pos p) ->
  -1074 <= e -> e + (Zpos (digits2_pos p) - 53) + 1 <= 971 ->
  exists m3 e3,
    binary_round_aux prec emax false (Zpos p) e (loc_ratio (num mod den) den)
      = S754_finite false m3 e3
    /\ 2 ^ 52 <= Zpos m3 < 2 ^ 53
    /\ e + (Zpos (digits2_pos p) - 53) <= e3 <= e + (Zpos (digits2_pos p) - 53) + 1
    /\ Zpos m3 * 2 ^ (e3 - (e + (Zpos (digits2_pos p) - 53)))
       = round_half_even num (den * 2 ^ (Zpos (digits2_pos p) - 53)).
Proof.
  intros Hden Hq Hd He Hov.
  set (d := Zpos (digits2_pos p)) in *.
  set (n := d - 53) in *.
  pose proof (digits2_pos_bounds p) as [Hlo Hhi]. fold d in Hlo, Hhi.
  assert (Hnum : 0 <= num).
  { destruct (Z.ltb_spec num 0) as [Hneg|]; [|assumption].
    pose proof (Z.div_lt_upper_bound num den 0 Hden ltac:(lia)). lia. }
  assert (Hpn : 0 < 2 ^ n) by (apply Z.pow_pos_nonneg; lia).
  assert (Hsplit : 2 ^ d = 2 ^ 53 * 2 ^ n).
  { rewrite <- Z.pow_add_r by lia. f_equal. lia. }
  assert (Hsplit' : 2 ^ (d - 1) = 2 ^ 52 * 2 ^ n).
  { rewrite <- Z.pow_add_r by lia. f_equal. lia. }
  pose proof (Z.div_mod num den ltac:(lia)) as Hdm.
  pose proof (Z.mod_pos_bound num den Hden) as Hr.
  rewrite Hq in Hdm.
  (* the first shift *)
  assert (Hfexp : fexp prec emax (Zdigits2 (Zpos p) + e) - e = n).
  { rewrite fexp_eq. cbn [Zdigits2]. fold d. lia. }
  assert (Hrep : exists mrs,
    shr_fexp prec emax (Zpos p) e (loc_ratio (num mod den) den) = (mrs, e + n)
    /\ represents mrs num (den * 2 ^ n)).
  { unfold shr_fexp. rewrite Hfexp. rewrite <- Hq.
    pose proof (represents_of_loc num den Hden) as Hrep0.
    destruct n as [|pn|pn] eqn:En; try lia.
    - eexists; split; [cbn [shr]; f_equal; lia|].
      rewrite Z.pow_0_r, Z.mul_1_r. exact Hrep0.
    - eexists; split; [cbn [shr]; reflexivity|].
      apply iter_pos_represents; assumption. }
  destruct Hrep as (mrs & Hshr & Hrep).
  set (m2 := round_half_even num (den * 2 ^ n)).
  assert (Hm2 : round_nearest_even (shr_m mrs) (loc_of_shr_record mrs) = m2).
  { apply round_nearest_even_represents; [nia|assumption]. }
  assert (Hm2lo : 2 ^ 52 <= m2).
  { apply round_half_even_ge; nia. }
  assert (Hm2hi : m2 <= 2 ^ 53).
  { apply round_half_even_le; nia. }
  unfold binary_round_aux. rewrite Hshr, Hm2.
  destruct m2 as [|pm|pm] eqn:Em2; try lia.
  destruct (Z.eq_dec (Zpos pm) (2 ^ 53)) as [Hc|Hc].
  - (* the rounding carried *)
    exists (Z.to_pos (2 ^ 52)), (e + n + 1).
    assert (pm = Z.to_pos (2 ^ 53)) as -> by lia.
    assert (Hf2 : fexp prec emax (Zdigits2 (Zpos (Z.to_pos (2 ^ 53))) + (e + n)) - (e + n) = 1).
    { rewrite fexp_eq.
      change (Zdigits2 (Zpos (Z.to_pos (2 ^ 53)))) with 54. lia. }
    unfold shr_fexp. rewrite Hf2. cbn [shr_record_of_loc shr SpecFloat.iter_pos].
    change (shr_m (shr_1 _)) with (Zpos (Z.to_pos (2 ^ 52))).
    cbv beta iota.
    change (emax - prec) with 971.
    destruct (Z.leb_spec (e + n + 1) 971); [|lia].
    split; [reflexivity|]. split; [cbn; lia|]. split; [lia|].
    replace (e + n + 1 - (e + n)) with 1 by lia.
    rewrite <- Hc. reflexivity.
  - exists pm, (e + n).
    assert (Hdm2 : Zpos (digits2_pos pm) = 53).
    { apply digits2_pos_unique. lia. }
    assert (Hf2 : fexp prec emax (Zdigits2 (Zpos pm) + (e + n)) - (e + n) = 0).
    { rewrite fexp_eq. cbn [Zdigits2]. rewrite Hdm2. lia. }
    unfold shr_fexp. rewrite Hf2. cbn [shr_record_of_loc shr shr_m].
    change (emax - prec) with 971.
    destruct (Z.leb_spec (e + n) 971); [|lia].
    split; [reflexivity|]. split; [lia|]. split; [lia|].
    rewrite Z.sub_diag, Z.pow_0_r. lia.
Qed.


(** Value of a finite positive float in units of [2^-B]: an integer as soon
    as [-B] is at most the exponent. *)
Definition scaled (B : Z) (x : spec_float) : Z :=
  match x with
  | S754_finite false m e => Zpos m * 2 ^ (e + B)
  | _ => 0
  end.

(** A positive normal number: the mantissa has exactly 53 digits. *)
Definition normal (x : spec_float) : Prop :=
  match x with
  | S754_finite false m e => 2 ^ 52 <= Zpos m < 2 ^ 53
  | _ => False
  end.

Definition exponent (x : spec_float) : Z :=
  match x with
  | S754_finite _ _ e => e
  | _ => 0
  end.

Lemma binary_round_aux_exact p e :
  53 <= Zpos (digits2_pos p) ->
  -1074 <= e -> e + (Zpos (digits2_pos p) - 53) + 1 <= 971 ->
  exists y,
    binary_round_aux prec emax false (Zpos p) e loc_Exact = y
    /\ normal y
    /\ e + (Zpos (digits2_pos p) - 53) <= exponent y <= e + (Zpos (digits2_pos p) - 53) + 1
    /\ scaled (- e) y
       = round_half_even (Zpos p) (2 ^ (Zpos (digits2_pos p) - 53))
         * 2 ^ (Zpos (digits2_pos p) - 53).
Proof.
  intros Hd He Hov.
  destruct (binary_round_aux_ratio (Zpos p) 1 p e) as (m3 & e3 & Heq & Hn & He3 & Hval);
    try assumption; try lia.
  { apply Z.div_1_r. }
  rewrite Z.mod_1_r in Heq. change (loc_ratio 0 1) with loc_Exact in Heq.
  exists (S754_finite false m3 e3). split; [exact Heq|]. split; [exact Hn|].
  split; [exact He3|]. cbn [scaled].
  set (n := Zpos (digits2_pos p) - 53) in *.
  rewrite Z.mul_1_l in Hval. rewrite <- Hval.
  replace (e3 + - e) with ((e3 - (e + n)) + n) by lia.
  rewrite Z.pow_add_r by lia. ring.
Qed.

(** The relative error of rounding to 53 bits is at most [2^-53]. *)
Lemma round_half_even_relative p :
  53 <= Zpos (digits2_pos p) ->
  let n := Zpos (digits2_pos p) - 53 in
  2 ^ 53 * Z.abs (round_half_even (Zpos p) (2 ^ n) * 2 ^ n - Zpos p) <= Zpos p.
Proof.
  intros Hd n.
  pose proof (digits2_pos_bounds p) as [Hlo Hhi].
  assert (Hpn : 0 < 2 ^ n) by (apply Z.pow_pos_nonneg; lia).
  assert (Hsplit' : 2 ^ (Zpos (digits2_pos p) - 1) = 2 ^ 52 * 2 ^ n).
  { rewrite <- Z.pow_add_r by lia. f_equal. lia. }
  pose proof (round_half_even_error (Zpos p) (2 ^ n) Hpn) as Herr.
  lia.
Qed.

Lemma round_half_even_1 num : round_half_even num 1 = num.
Proof.
  unfold round_half_even. rewrite Z.mod_1_r, Z.div_1_r. reflexivity.
Qed.

Lemma pos_iter_xO m d : Zpos (Pos.iter xO m d) = Zpos m * 2 ^ Zpos d.
Proof.
  induction d as [|d IH] using Pos.peano_ind.
  - cbn. lia.
  - rewrite Pos.iter_succ, Pos2Z.inj_succ, Z.pow_succ_r by lia.
    rewrite Pos2Z.inj_xO, IH. lia.
Qed.

(** [shl_align] does not change the value. *)
Lemma shl_align_value m e e' :
  let '(m', e'') := shl_align m e e' in
  e'' <= e /\ Zpos m' = Zpos m * 2 ^ (e - e'') /\ (e' <= e -> e'' = e') /\ (e <= e' -> e'' = e).
Proof.
  unfold shl_align. destruct (e' - e) as [|d|d] eqn:Ed.
  - rewrite Z.sub_diag. cbn. lia.
  - rewrite Z.sub_diag. cbn. lia.
  - rewrite pos_iter_xO. replace (e - e') with (Zpos d) by lia. lia.
Qed.

(** Multiplication of positive normal numbers: the relative error is at
    most [2^-53]. *)
Lemma float_mul_error B x y :
  normal x -> normal y ->
  - B <= exponent x -> - B <= exponent y ->
  -1074 <= exponent x + exponent y -> exponent x + exponent y + 54 <= 971 ->
  let z := SFmul prec emax x y in
  normal z
  /\ exponent x + exponent y + 52 <= exponent z <= exponent x + exponent y + 54
  /\ 2 ^ 53 * Z.abs (scaled (2 * B) z - scaled B x * scaled B y) <= scaled B x * scaled B y.
Proof.
  destruct x as [| | |[|] mx ex]; try contradiction.
  destruct y as [| | |[|] my ey]; try contradiction.
  cbn [normal exponent scaled]. intros Hx Hy Hex Hey Hmin Hmax.
  cbn [SFmul xorb].
  pose proof (digits2_pos_bounds (mx * my)) as [Hlo Hhi].
  rewrite Pos2Z.inj_mul in Hlo, Hhi.
  assert (Hd : 105 <= Zpos (digits2_pos (mx * my)) <= 106).
  { assert (2 ^ 104 < 2 ^ Zpos (digits2_pos (mx * my))) by (change (2 ^ 104) with (2 ^ 52 * 2 ^ 52); nia).
    assert (2 ^ (Zpos (digits2_pos (mx * my)) - 1) < 2 ^ 106) by (change (2 ^ 106) with (2 ^ 53 * 2 ^ 53); nia).
    split.
    - assert (104 < Zpos (digits2_pos (mx * my))) by (apply (Z.pow_lt_mono_r_iff 2); lia). lia.
    - assert (Zpos (digits2_pos (mx * my)) - 1 < 106) by (apply (Z.pow_lt_mono_r_iff 2); lia). lia. }
  destruct (binary_round_aux_exact (mx * my) (ex + ey)) as (z & Hz & Hnz & Hez & Herr);
    try lia.
  rewrite Hz. split; [exact Hnz|]. split; [lia|].
  destruct z as [| | |[|] mz ez]; try contradiction.
  cbn [scaled exponent] in *.
  pose proof (round_half_even_relative (mx * my) ltac:(lia)) as Hrel.
  cbv zeta in Hrel. rewrite <- Herr in Hrel. clear Herr. rename Hrel into Herr.
  rewrite Pos2Z.inj_mul in Herr.
  set (T := 2 ^ (ex + B) * 2 ^ (ey + B)).
  assert (HT : 0 < T) by (apply Z.mul_pos_pos; apply Z.pow_pos_nonneg; lia).
  replace (Zpos mx * 2 ^ (ex + B) * (Zpos my * 2 ^ (ey + B))) with (Zpos mx * Zpos my * T)
    by (unfold T; ring).
  replace (2 ^ (ez + 2 * B)) with (2 ^ (ez + - (ex + ey)) * T).
  2:{ unfold T. rewrite <- !Z.pow_add_r by lia. f_equal. lia. }
  rewrite Z.mul_assoc, <- Z.mul_sub_distr_r, Z.abs_mul, (Z.abs_eq T) by lia.
  rewrite Z.mul_assoc. apply Z.mul_le_mono_nonneg_r; [lia|exact Herr].
Qed.


(** The digit count of the aligned sum of two 53-bit mantissas. *)
Lemma add_digits_bound mx my Px Py h d :
  2 ^ 52 <= mx < 2 ^ 53 -> 2 ^ 52 <= my < 2 ^ 53 ->
  0 < Px <= 2 ^ h -> 0 < Py <= 2 ^ h -> Px = 2 ^ h \/ Py = 2 ^ h -> 0 <= h ->
  2 ^ (d - 1) <= mx * Px + my * Py < 2 ^ d ->
  53 + h <= d <= 54 + h.
Proof.
  intros Hx Hy HPx HPy Hone Hh [Hlo Hhi].
  assert (H0 : 0 < 2 ^ h) by (apply Z.pow_pos_nonneg; lia).
  assert (Hux : mx * Px < 2 ^ 53 * 2 ^ h).
  { apply Z.le_lt_trans with (mx * 2 ^ h).
    - apply Z.mul_le_mono_nonneg_l; lia.
    - apply Z.mul_lt_mono_pos_r; lia. }
  assert (Huy : my * Py < 2 ^ 53 * 2 ^ h).
  { apply Z.le_lt_trans with (my * 2 ^ h).
    - apply Z.mul_le_mono_nonneg_l; lia.
    - apply Z.mul_lt_mono_pos_r; lia. }
  assert (Hlx : 0 < mx * Px) by (apply Z.mul_pos_pos; lia).
  assert (Hly : 0 < my * Py) by (apply Z.mul_pos_pos; lia).
  assert (Hl : 2 ^ 52 * 2 ^ h < mx * Px + my * Py).
  { destruct Hone as [->| ->].
    - assert (2 ^ 52 * 2 ^ h <= mx * 2 ^ h) by (apply Z.mul_le_mono_nonneg_r; lia). lia.
    - assert (2 ^ 52 * 2 ^ h <= my * 2 ^ h) by (apply Z.mul_le_mono_nonneg_r; lia). lia. }
  rewrite <- Z.pow_add_r in Hl, Hux, Huy by lia.
  assert (H1 : 2 ^ (52 + h) < 2 ^ d) by lia.
  assert (H2 : 2 ^ (d - 1) < 2 ^ (54 + h)).
  { replace (54 + h) with (Z.succ (53 + h)) by lia. rewrite Z.pow_succ_r by lia. lia. }
  apply Z.pow_lt_mono_r_iff in H1; [|lia|].
  2:{ destruct (Z.ltb_spec d 0); [|lia]. rewrite (Z.pow_neg_r 2 d) in Hhi by lia. lia. }
  apply Z.pow_lt_mono_r_iff in H2; lia.
Qed.

(** Addition of positive normal numbers: the relative error is at most
    [2^-53]. *)
Lemma float_add_error B x y :
  normal x -> normal y ->
  - B <= exponent x -> - B <= exponent y ->
  -1074 <= exponent x -> -1074 <= exponent y ->
  exponent x + 2 <= 971 -> exponent y + 2 <= 971 ->
  let z := SFadd prec emax x y in
  normal z
  /\ Z.max (exponent x) (exponent y) <= exponent z <= Z.max (exponent x) (exponent y) + 2
  /\ 2 ^ 53 * Z.abs (scaled B z - (scaled B x + scaled B y)) <= scaled B x + scaled B y.
Proof.
  destruct x as [| | |[|] mx ex]; try contradiction.
  destruct y as [| | |[|] my ey]; try contradiction.
  cbn [normal exponent scaled]. intros Hx Hy Hex Hey Hminx Hminy Hmaxx Hmaxy.
  cbn [SFadd cond_Zopp].
  remember (Z.min ex ey) as ez eqn:Eez.
  remember (Z.max ex ey) as hi eqn:Ehi.
  assert (Hord : ez <= ex /\ ez <= ey /\ ex <= hi /\ ey <= hi /\ (ex = hi \/ ey = hi)
                 /\ - B <= ez /\ -1074 <= ez /\ hi + 2 <= 971) by lia.
  clear Eez Ehi Hex Hey Hminx Hminy Hmaxx Hmaxy.
  destruct Hord as (Hzx & Hzy & Hxh & Hyh & Hone & HBz & Hminz & Hmaxh).
  (* the powers of two at play *)
  assert (Ex : 2 ^ (ex + B) = 2 ^ (ex - ez) * 2 ^ (ez + B)).
  { rewrite <- Z.pow_add_r by lia. f_equal. lia. }
  assert (Ey : 2 ^ (ey + B) = 2 ^ (ey - ez) * 2 ^ (ez + B)).
  { rewrite <- Z.pow_add_r by lia. f_equal. lia. }
  assert (HT : 0 < 2 ^ (ez + B)) by (apply Z.pow_pos_nonneg; lia).
  assert (HPx : 0 < 2 ^ (ex - ez) <= 2 ^ (hi - ez)).
  { split; [apply Z.pow_pos_nonneg; lia|apply Z.pow_le_mono_r; lia]. }
  assert (HPy : 0 < 2 ^ (ey - ez) <= 2 ^ (hi - ez)).
  { split; [apply Z.pow_pos_nonneg; lia|apply Z.pow_le_mono_r; lia]. }
  assert (Hone' : 2 ^ (ex - ez) = 2 ^ (hi - ez) \/ 2 ^ (ey - ez) = 2 ^ (hi - ez)).
  { destruct Hone as [->| ->]; [left|right]; reflexivity. }
  (* alignment *)
  pose proof (shl_align_value mx ex ez) as Hax.
  pose proof (shl_align_value my ey ez) as Hay.
  destruct (shl_align mx ex ez) as [ax ex'], (shl_align my ey ez) as [ay ey'].
  destruct Hax as (_ & Hax & Hex' & _), Hay as (_ & Hay & Hey' & _).
  rewrite (Hex' Hzx) in Hax. rewrite (Hey' Hzy) in Hay. clear Hex' Hey'.
  cbn [fst]. change (Zpos ax + Zpos ay) with (Zpos (ax + ay)).
  cbn [binary_normalize]. unfold binary_round.
  pose proof (digits2_pos_bounds (ax + ay)) as Hdig.
  rewrite Pos2Z.inj_add, Hax, Hay in Hdig.
  remember (Zpos (digits2_pos (ax + ay))) as d eqn:Ed.
  assert (Hd : 53 + (hi - ez) <= d <= 54 + (hi - ez)).
  { apply (add_digits_bound (Zpos mx) (Zpos my) (2 ^ (ex - ez)) (2 ^ (ey - ez)));
      try assumption. lia. }
  assert (Hfexp : fexp prec emax (d + ez) = d + ez - 53).
  { rewrite fexp_eq. clear - Hd Hxh Hzx Hminz. lia. }
  rewrite Hfexp.
  pose proof (shl_align_value (ax + ay) ez (d + ez - 53)) as Hal.
  destruct (shl_align (ax + ay) ez (d + ez - 53)) as [mz ez'].
  destruct Hal as (_ & Hmz & _ & Hez').
  assert (Hle : ez <= d + ez - 53) by (clear - Hd Hxh Hzx; lia).
  rewrite (Hez' Hle) in *. clear Hez' Hle.
  rewrite Z.sub_diag, Z.pow_0_r, Z.mul_1_r in Hmz.
  injection Hmz as ->.
  destruct (binary_round_aux_exact (ax + ay) ez) as (z & Hz & Hnz & Hez & Hval);
    rewrite <- ?Ed; try (clear - Hd Hxh Hzx Hminz Hmaxh; lia).
  rewrite Hz. split; [exact Hnz|]. rewrite <- Ed in Hez.
  split; [clear - Hd Hez; lia|].
  pose proof (round_half_even_relative (ax + ay)) as Hrel.
  cbv zeta in Hrel. rewrite <- Ed in Hrel, Hval.
  specialize (Hrel ltac:(clear - Hd Hxh Hzx; lia)).
  rewrite <- Hval in Hrel. clear Hval.
  destruct z as [| | |[|] mz ez'']; try contradiction.
  cbn [scaled exponent] in *.
  rewrite Pos2Z.inj_add, Hax, Hay in Hrel.
  assert (Ez : 2 ^ (ez'' + B) = 2 ^ (ez'' + - ez) * 2 ^ (ez + B)).
  { rewrite <- Z.pow_add_r by (clear - Hd Hez HBz Hxh Hzx; lia).
    f_equal. clear. lia. }
  rewrite Ex, Ey, Ez.
  rewrite !Z.mul_assoc, <- !Z.mul_add_distr_r, <- Z.mul_sub_distr_r, Z.abs_mul,
    (Z.abs_eq (2 ^ (ez + B))) by (clear - HT; lia).
  rewrite Z.mul_assoc. apply Z.mul_le_mono_nonneg_r; [clear - HT; lia|exact Hrel].
Qed.

(** A mantissa below [2^53] is normalised without rounding. *)
Lemma binary_normalize_exact p e :
  Zpos p < 2 ^ 53 -> -1022 <= e -> e + 1 <= 971 ->
  let r := binary_normalize prec emax (Zpos p) e false in
  normal r /\ e - 52 <= exponent r <= e + 1 /\ scaled (52 - e) r = Zpos p * 2 ^ 52.
Proof.
  intros Hp Hmin Hmax. cbn [binary_normalize].
  unfold binary_round.
  pose proof (digits2_pos_bounds p) as [Hlo Hhi].
  set (d := Zpos (digits2_pos p)) in *.
  assert (Hd : 1 <= d <= 53).
  { split; [unfold d; lia|].
    assert (2 ^ (d - 1) < 2 ^ 53) by lia.
    assert (d - 1 < 53) by (apply (Z.pow_lt_mono_r_iff 2); lia). lia. }
  assert (Hfexp : fexp prec emax (d + e) = d + e - 53).
  { rewrite fexp_eq. lia. }
  rewrite Hfexp.
  pose proof (shl_align_value p e (d + e - 53)) as Hal.
  destruct (shl_align p e (d + e - 53)) as [mz ez].
  destruct Hal as (_ & Hmz & Hez & _). rewrite Hez in * by lia. clear Hez.
  replace (e - (d + e - 53)) with (53 - d) in Hmz by lia.
  assert (Hs1 : 2 ^ (d - 1) * 2 ^ (53 - d) = 2 ^ 52).
  { rewrite <- Z.pow_add_r by lia. f_equal. lia. }
  assert (Hs2 : 2 ^ d * 2 ^ (53 - d) = 2 ^ 53).
  { rewrite <- Z.pow_add_r by lia. f_equal. lia. }
  assert (H0 : 0 < 2 ^ (53 - d)) by (apply Z.pow_pos_nonneg; lia).
  assert (Hdz : Zpos (digits2_pos mz) = 53).
  { apply digits2_pos_unique. rewrite Hmz. change (53 - 1) with 52. nia. }
  destruct (binary_round_aux_exact mz (d + e - 53)) as (z & Hz & Hnz & Hez & Hval);
    rewrite ?Hdz; try lia.
  rewrite Hz. split; [exact Hnz|]. rewrite Hdz in Hez. split; [lia|].
  rewrite Hdz in Hval. change (2 ^ (53 - 53)) with 1 in Hval.
  rewrite round_half_even_1, Z.mul_1_r in Hval.
  destruct z as [| | |[|] m3 e3]; try contradiction.
  cbn [scaled exponent] in *.
  replace (e3 + (52 - e)) with ((e3 + - (d + e - 53)) + (d - 1)) by lia.
  rewrite Z.pow_add_r, Z.mul_assoc, Hval, Hmz by lia.
  rewrite <- Hs1. ring.
Qed.

(** Changing the unit of [scaled]. *)
Lemma scaled_shift B B' x :
  normal x -> - B <= exponent x -> B <= B' ->
  scaled B' x = scaled B x * 2 ^ (B' - B).
Proof.
  destruct x as [| | |[|] m e]; try contradiction. cbn [normal exponent scaled].
  intros _ He HB. rewrite <- Z.mul_assoc, <- Z.pow_add_r by lia.
  do 2 f_equal. lia.
Qed.

Lemma scaled_pos B x : normal x -> - B <= exponent x -> 0 < scaled B x.
Proof.
  destruct x as [| | |[|] m e]; try contradiction. cbn [normal exponent scaled].
  intros _ He. apply Z.mul_pos_pos; [lia|]. apply Z.pow_pos_nonneg; lia.
Qed.


Lemma round_half_even_scale c num den :
  0 < c -> 0 < den -> round_half_even (num * c) (den * c) = round_half_even num den.
Proof.
  intros Hc Hden. unfold round_half_even.
  rewrite Z.div_mul_cancel_r, Z.mul_mod_distr_r by lia.
  replace (2 * (num mod den * c)) with (2 * (num mod den) * c) by ring.
  rewrite <- (Zmult_compare_compat_r (2 * (num mod den)) den c) by lia. reflexivity.
Qed.

Lemma round_half_even_mul a den : 0 < den -> round_half_even (a * den) den = a.
Proof.
  intros Hden. unfold round_half_even.
  rewrite Z.div_mul, Z.mod_mul by lia.
  destruct (Z.compare_spec (2 * 0) den); lia.
Qed.

Lemma py_floor_scaled B x :
  normal x -> - B <= exponent x -> 0 <= B ->
  py_floor x = Some (scaled B x / 2 ^ B).
Proof.
  destruct x as [| | |[|] m e]; try contradiction. cbn [normal exponent scaled py_floor].
  intros _ He HB. f_equal.
  assert (H0 : 0 < 2 ^ (e + B)) by (apply Z.pow_pos_nonneg; lia).
  destruct e as [|e|k].
  - rewrite Z.pow_0_r, Z.mul_1_r, Z.add_0_l, Z.div_mul; lia.
  - rewrite Z.pow_add_r, Z.mul_assoc, Z.div_mul by lia. reflexivity.
  - replace (2 ^ B) with (2 ^ Zpos k * 2 ^ (Zneg k + B)).
    + rewrite Z.div_mul_cancel_r by lia. reflexivity.
    + rewrite <- Z.pow_add_r by lia. f_equal. lia.
Qed.

Lemma scaled_round_scaled B m e p :
  - B <= e -> 0 <= B ->
  scaled_round m e p = round_half_even (Zpos m * 2 ^ (e + B) * p) (2 ^ B).
Proof.
  intros He HB. unfold scaled_round.
  assert (H0 : 0 < 2 ^ (e + B)) by (apply Z.pow_pos_nonneg; lia).
  assert (HB0 : 0 < 2 ^ B) by (apply Z.pow_pos_nonneg; lia).
  destruct e as [|e|k].
  - rewrite Z.pow_0_r, Z.mul_1_r, Z.add_0_l.
    replace (Zpos m * 2 ^ B * p) with (Zpos m * p * 2 ^ B) by ring.
    rewrite round_half_even_mul by lia. reflexivity.
  - rewrite Z.pow_add_r by lia.
    replace (Zpos m * (2 ^ Zpos e * 2 ^ B) * p) with (Zpos m * p * 2 ^ Zpos e * 2 ^ B) by ring.
    rewrite round_half_even_mul by lia. reflexivity.
  - replace (2 ^ B) with (2 ^ Zpos k * 2 ^ (Zneg k + B)).
    + replace (Zpos m * 2 ^ (Zneg k + B) * p) with (Zpos m * p * 2 ^ (Zneg k + B)) by ring.
      rewrite round_half_even_scale; [reflexivity|lia|]. apply Z.pow_pos_nonneg; lia.
    + rewrite <- Z.pow_add_r by lia. f_equal. lia.
Qed.

(** [floor(random() * n)] is an index below [n]. *)
Lemma floor_random_mul_range (m : N) (n : Z) :
  (m < 2 ^ 53)%N -> 1 <= n < 2 ^ 53 ->
  exists i, py_floor (float_mul (random_float m) (float_of_Z n)) = Some i /\ 0 <= i < n.
Proof.
  intros Hm Hn. unfold random_float, float_of_Z, float_mul.
  destruct n as [|pn|pn]; try lia.
  destruct (binary_normalize_exact pn 0) as (Hnn & Hen & Hvn);
    try lia.
  set (fn := binary_normalize prec emax (Zpos pn) 0 false) in *.
  destruct m as [|pm].
  - exists 0. split; [|lia].
    change (binary_normalize prec emax (Z.of_N 0) (-53) false) with (S754_zero false).
    destruct fn as [| | |[|] mn en]; try contradiction. reflexivity.
  - destruct (binary_normalize_exact pm (-53)) as (Hnr & Her & Hvr);
      try lia.
    cbn [Z.of_N].
    set (fr := binary_normalize prec emax (Zpos pm) (-53) false) in *.
    destruct (float_mul_error 105 fr fn) as (Hnz & Hez & Herr);
      try assumption; try lia.
    set (z := SFmul prec emax fr fn) in *.
    change (52 - -53) with 105 in Hvr. change (52 - 0) with 52 in Hvn.
    rewrite (scaled_shift 52 105 fn) in Herr by (assumption || lia).
    rewrite Hvr, Hvn in Herr. change (2 * 105) with 210 in Herr.
    change (2 ^ (105 - 52)) with (2 ^ 53) in Herr.
    exists (scaled 210 z / 2 ^ 210). split.
    + apply py_floor_scaled; [assumption|lia|lia].
    + pose proof (scaled_pos 210 z Hnz ltac:(lia)) as Hpos.
      split; [apply Z.div_pos; lia|].
      apply Z.div_lt_upper_bound; [lia|].
      assert (Hpm : Zpos pm <= 2 ^ 53 - 1) by lia.
      replace (2 ^ 210 * Zpos pn) with (2 ^ 53 * (Zpos pn * 2 ^ 157))
        by (change (2 ^ 210) with (2 ^ 53 * 2 ^ 157); ring).
      assert (Hprod : Zpos pm * 2 ^ 52 * (Zpos pn * 2 ^ 52 * 2 ^ 53)
                      = Zpos pm * (Zpos pn * 2 ^ 157)) by ring.
      rewrite Hprod in Herr.
      assert (HQ : 0 < Zpos pn * 2 ^ 157) by lia.
      assert (HpQ : Zpos pm * (Zpos pn * 2 ^ 157) <= (2 ^ 53 - 1) * (Zpos pn * 2 ^ 157))
        by (apply Z.mul_le_mono_nonneg_r; lia).
      clear - Herr HQ HpQ.
      revert Herr HQ HpQ.
      generalize (scaled 210 z) (Zpos pm * (Zpos pn * 2 ^ 157)).
      generalize (Zpos pn * 2 ^ 157).
      intros Q Y PQ Herr HQ HpQ. lia.
Qed.


Lemma float_of_Z_normal (z : Z) :
  1 <= z < 2 ^ 53 ->
  normal (float_of_Z z) /\ -52 <= exponent (float_of_Z z) <= 1
  /\ scaled 52 (float_of_Z z) = z * 2 ^ 52.
Proof.
  intros Hz. destruct z as [|p|p]; try lia.
  destruct (binary_normalize_exact p 0) as (Hn & He & Hv); try lia.
  unfold float_of_Z. repeat split; try assumption; lia.
Qed.

Lemma random_float_normal (m : N) :
  (0 < m < 2 ^ 53)%N ->
  normal (random_float m) /\ -105 <= exponent (random_float m) <= -52
  /\ scaled 105 (random_float m) = Z.of_N m * 2 ^ 52.
Proof.
  intros Hm. destruct m as [|p]; try lia.
  destruct (binary_normalize_exact p (-53)) as (Hn & He & Hv); try lia.
  unfold random_float. cbn [Z.of_N]. repeat split; try assumption; lia.
Qed.

(** [round(x, 2)] of a positive normal [x], from its value in units of
    [2^-210]. *)
Lemma py_round_2_bounds x lo hi :
  normal x -> -210 <= exponent x -> 1 <= lo ->
  2 * lo * 2 ^ 210 - 2 ^ 210 < 2 * (scaled 210 x * 100) ->
  2 * (scaled 210 x * 100) < 2 * hi * 2 ^ 210 + 2 ^ 210 ->
  exists k, lo <= Zpos k <= hi /\ py_round x 2 = float_of_ratio k 100.
Proof.
  destruct x as [| | |[|] m e]; try contradiction. cbn [normal exponent].
  intros _ He Hlo Hl Hh. unfold py_round.
  rewrite (scaled_round_scaled 210) by lia.
  change (10 ^ 2) with 100. change (scaled 210 (S754_finite false m e)) with (Zpos m * 2 ^ (e + 210)) in *.
  pose proof (round_half_even_gt_half (Zpos m * 2 ^ (e + 210) * 100) (2 ^ 210) lo ltac:(lia) Hl) as H1.
  pose proof (round_half_even_lt_half (Zpos m * 2 ^ (e + 210) * 100) (2 ^ 210) hi ltac:(lia) Hh) as H2.
  destruct (round_half_even (Zpos m * 2 ^ (e + 210) * 100) (2 ^ 210)) as [|k|k]; try lia.
  exists k. split; [lia|reflexivity].
Qed.

(** [round(random.uniform(a, b), 2)] is the float nearest to [k / 100] for
    an integer [k] between [100 * a] and [100 * b]. *)
Lemma uniform_round_bounds (a b : Z) (m : N) :
  1 <= a < b -> b <= 2 ^ 32 -> (m < 2 ^ 53)%N ->
  exists k, 100 * a <= Zpos k <= 100 * b
    /\ py_round (float_add (float_of_Z a)
                   (float_mul (float_of_Z (b - a)) (random_float m))) 2
       = float_of_ratio k 100.
Proof.
  intros Hab Hb Hm.
  assert (H32 : 2 ^ 32 < 2 ^ 53) by reflexivity.
  destruct (float_of_Z_normal a) as (Hna & Hea & Hva); [lia|].
  destruct (float_of_Z_normal (b - a)) as (Hnc & Hec & Hvc); [lia|].
  set (fa := float_of_Z a) in *. set (fc := float_of_Z (b - a)) in *.
  destruct (N.eq_dec m 0%N) as [->|Hm0].
  - (* random() = 0.0: the sum is a itself *)
    change (random_float 0%N) with (S754_zero false).
    assert (Hmul : float_mul fc (S754_zero false) = S754_zero false).
    { destruct fc as [| | |[|] mc ec]; try contradiction. reflexivity. }
    rewrite Hmul.
    assert (Hadd : float_add fa (S754_zero false) = fa).
    { destruct fa as [| | |[|] ma ea]; try contradiction. reflexivity. }
    rewrite Hadd.
    apply py_round_2_bounds; try assumption; try lia.
    + rewrite (scaled_shift 52 210) by (assumption || lia). rewrite Hva.
      change (2 ^ (210 - 52)) with (2 ^ 158). lia.
    + rewrite (scaled_shift 52 210) by (assumption || lia). rewrite Hva.
      change (2 ^ (210 - 52)) with (2 ^ 158). lia.
  - destruct (random_float_normal m) as (Hnr & Her & Hvr); [lia|].
    set (fr := random_float m) in *.
    destruct (float_mul_error 105 fc fr) as (Hnp & Hep & Hp);
      try assumption; try lia.
    fold (float_mul fc fr) in Hnp, Hep, Hp. set (p := float_mul fc fr) in *.
    destruct (float_add_error 210 fa p) as (Hnx & Hex & Hx);
      try assumption; try lia.
    fold (float_add fa p) in Hnx, Hex, Hx. set (x := float_add fa p) in *.
    rewrite (scaled_shift 52 105 fc) in Hp by (assumption || lia).
    rewrite Hvc, Hvr in Hp.
    rewrite (scaled_shift 52 210 fa) in Hx by (assumption || lia).
    rewrite Hva in Hx.
    change (2 * 105) with 210 in Hp.
    change (2 ^ (105 - 52)) with (2 ^ 53) in Hp.
    change (2 ^ (210 - 52)) with (2 ^ 158) in Hx.
    assert (Hprod : (b - a) * 2 ^ 52 * 2 ^ 53 * (Z.of_N m * 2 ^ 52)
                    = Z.of_N m * ((b - a) * 2 ^ 157)) by ring.
    rewrite Hprod in Hp. clear Hprod.
    assert (HmQ : Z.of_N m * ((b - a) * 2 ^ 157) <= (2 ^ 53 - 1) * ((b - a) * 2 ^ 157)).
    { apply Z.mul_le_mono_nonneg_r; lia. }
    assert (HmQ0 : 0 < Z.of_N m * ((b - a) * 2 ^ 157)).
    { apply Z.mul_pos_pos; lia. }
    assert (Hmax : Z.max (exponent fa) (exponent p) <= 3) by lia.
    apply py_round_2_bounds; try assumption; lia.
Qed.


(** On positive normal numbers [SFleb] is the order of the values. *)
Lemma normal_leb B x y :
  normal x -> normal y -> - B <= exponent x -> - B <= exponent y ->
  scaled B x <= scaled B y -> float_leb x y = true.
Proof.
  destruct x as [| | |[|] mx ex]; try contradiction.
  destruct y as [| | |[|] my ey]; try contradiction.
  cbn [normal exponent scaled]. intros Hx Hy Hex Hey Hle.
  unfold float_leb, SFleb. cbn [SFcompare].
  assert (H0x : 0 < 2 ^ (ex + B)) by (apply Z.pow_pos_nonneg; lia).
  assert (H0y : 0 < 2 ^ (ey + B)) by (apply Z.pow_pos_nonneg; lia).
  destruct (Z.compare_spec ex ey) as [->|Hlt|Hgt].
  - rewrite Pos.compare_cont_spec. cbn [Pos.switch_Eq].
    apply Z.mul_le_mono_pos_r in Hle; [|assumption].
    destruct (Pos.compare_spec mx my); try reflexivity. lia.
  - reflexivity.
  - exfalso.
    assert (Hp : 2 ^ (ex + B) = 2 ^ (ex - ey) * 2 ^ (ey + B)).
    { rewrite <- Z.pow_add_r by lia. f_equal. lia. }
    assert (H2 : 2 <= 2 ^ (ex - ey)).
    { change 2 with (2 ^ 1) at 1. apply Z.pow_le_mono_r; lia. }
    assert (H3 : Zpos my * 2 ^ (ey + B) < 2 ^ 53 * 2 ^ (ey + B))
      by (apply Z.mul_lt_mono_pos_r; lia).
    assert (H4 : 2 ^ 52 * 2 ^ (ex + B) <= Zpos mx * 2 ^ (ex + B))
      by (apply Z.mul_le_mono_nonneg_r; lia).
    assert (H5 : 2 * 2 ^ (ey + B) <= 2 ^ (ex + B)).
    { rewrite Hp. apply Z.mul_le_mono_nonneg_r; lia. }
    clear - Hle H3 H4 H5 H0y.
    revert Hle H3 H4 H5 H0y.
    generalize (Zpos my * 2 ^ (ey + B)) (Zpos mx * 2 ^ (ex + B)) (2 ^ (ey + B)) (2 ^ (ex + B)).
    intros. lia.
Qed.


Lemma new_location_100 r : new_location 100 r = loc_ratio r 100.
Proof. reflexivity. Qed.

(** The quotient step of [k / 100]: the dividend is shifted to 60 digits. *)
Lemma SFdiv_core_100 k :
  let d := Zpos (digits2_pos k) in
  d <= 59 ->
  SFdiv_core_binary prec emax (Zpos k) 0 100 0
  = ((Zpos k * 2 ^ (60 - d)) / 100, d - 60,
     loc_ratio ((Zpos k * 2 ^ (60 - d)) mod 100) 100).
Proof.
  intros d Hd. unfold SFdiv_core_binary.
  change (Zdigits2 100) with 7. cbn [Zdigits2]. fold d.
  rewrite fexp_eq.
  assert (H1 : 1 <= d) by (unfold d; lia).
  replace (Z.min (Z.max (d + 0 - (7 + 0) - 53) (-1074)) (0 - 0)) with (d - 60) by lia.
  replace (0 - 0 - (d - 60)) with (60 - d) by lia.
  destruct (60 - d) as [|s|s] eqn:Es; try lia.
  rewrite Z.shiftl_mul_pow2 by lia.
  unfold Z.div, Z.modulo.
  destruct (Z.div_eucl (Zpos k * 2 ^ Zpos s) 100) as [q r].
  rewrite new_location_100. reflexivity.
Qed.


(** The float nearest to [k / 100], in units of [2^-210]: it lies between
    the integers that bound [k / 100], and a hundred times its value is
    within a half of [k]. *)
Lemma float_of_ratio_100_spec (k : positive) :
  Zpos k < 2 ^ 39 ->
  let y := float_of_ratio k 100 in
  normal y /\ -59 <= exponent y
  /\ (forall a, 100 * a <= Zpos k -> a * 2 ^ 210 <= scaled 210 y)
  /\ (forall b, Zpos k <= 100 * b -> scaled 210 y <= b * 2 ^ 210)
  /\ 2 * Z.abs (scaled 210 y * 100 - Zpos k * 2 ^ 210) < 2 ^ 210.
Proof.
  intros Hk39.
  pose proof (digits2_pos_bounds k) as [Hklo Hkhi].
  remember (Zpos (digits2_pos k)) as d eqn:Ed.
  assert (Hd : 1 <= d <= 39).
  { split; [subst d; lia|].
    assert (2 ^ (d - 1) < 2 ^ 39) by lia.
    assert (d - 1 < 39) by (apply (Z.pow_lt_mono_r_iff 2); lia). lia. }
  unfold float_of_ratio, SFdiv.
  rewrite SFdiv_core_100 by (rewrite <- Ed; lia). rewrite <- Ed. cbn [xorb].
  assert (Hs1 : 2 ^ (d - 1) * 2 ^ (60 - d) = 2 ^ 59).
  { rewrite <- Z.pow_add_r by lia. f_equal. lia. }
  assert (Hs2 : 2 ^ d * 2 ^ (60 - d) = 2 ^ 60).
  { rewrite <- Z.pow_add_r by lia. f_equal. lia. }
  assert (H0 : 0 < 2 ^ (60 - d)) by (apply Z.pow_pos_nonneg; lia).
  remember (2 ^ (60 - d)) as S eqn:ES.
  assert (Hnlo : 2 ^ 59 <= Zpos k * S).
  { rewrite <- Hs1. apply Z.mul_le_mono_nonneg_r; lia. }
  assert (Hnhi : Zpos k * S < 2 ^ 60).
  { rewrite <- Hs2. apply Z.mul_lt_mono_pos_r; lia. }
  remember (Zpos k * S) as num eqn:Enum.
  assert (Hqlo : 2 ^ 52 <= num / 100) by (apply Z.div_le_lower_bound; lia).
  assert (Hqhi : num / 100 < 2 ^ 54) by (apply Z.div_lt_upper_bound; lia).
  destruct (num / 100) as [|pq|pq] eqn:Eq; try lia.
  pose proof (digits2_pos_bounds pq) as [Hqdlo Hqdhi].
  remember (Zpos (digits2_pos pq)) as dq eqn:Edq.
  assert (Hdq : 53 <= dq <= 54).
  { assert (2 ^ 52 < 2 ^ dq) by lia.
    assert (2 ^ (dq - 1) < 2 ^ 54) by lia.
    assert (52 < dq) by (apply (Z.pow_lt_mono_r_iff 2); lia).
    assert (dq - 1 < 54) by (apply (Z.pow_lt_mono_r_iff 2); lia). lia. }
  destruct (binary_round_aux_ratio num 100 pq (d - 60)) as (m3 & e3 & Hy & Hn3 & He3 & Hval);
    rewrite <- ?Edq; try lia.
  rewrite Hy. rewrite <- Edq in He3, Hval.
  set (n := dq - 53) in *.
  assert (Hpow : 2 ^ (60 - d - n) * 2 ^ n = S).
  { rewrite ES, <- Z.pow_add_r by lia. f_equal. lia. }
  assert (Hn0 : 0 < 2 ^ n) by (apply Z.pow_pos_nonneg; lia).
  assert (Hn2 : 2 ^ n <= 2).
  { change 2 with (2 ^ 1) at 2. apply Z.pow_le_mono_r; lia. }
  assert (Hg0 : 256 <= 2 ^ (60 - d - n)).
  { change 256 with (2 ^ 8). apply Z.pow_le_mono_r; lia. }
  assert (Hsc : Zpos m3 * 2 ^ (e3 + 210)
                = round_half_even num (100 * 2 ^ n) * 2 ^ (d - 60 + n + 210)).
  { rewrite <- Hval, <- Z.mul_assoc, <- Z.pow_add_r by lia. do 2 f_equal. lia. }
  assert (H210 : 2 ^ 210 = 2 ^ (60 - d - n) * 2 ^ (d - 60 + n + 210)).
  { rewrite <- Z.pow_add_r by lia. f_equal. lia. }
  assert (Hu0 : 0 < 2 ^ (d - 60 + n + 210)) by (apply Z.pow_pos_nonneg; lia).
  cbn [normal exponent scaled]. rewrite Hsc.
  split; [exact Hn3|]. split; [lia|]. split; [|split].
  - intros a Ha.
    rewrite H210, Z.mul_assoc. apply Z.mul_le_mono_nonneg_r; [lia|].
    apply round_half_even_ge; [lia|].
    replace (a * 2 ^ (60 - d - n) * (100 * 2 ^ n)) with (100 * a * (2 ^ (60 - d - n) * 2 ^ n)) by ring.
    rewrite Hpow, Enum. apply Z.mul_le_mono_nonneg_r; lia.
  - intros b Hb.
    rewrite H210, Z.mul_assoc. apply Z.mul_le_mono_nonneg_r; [lia|].
    apply round_half_even_le; [lia|].
    replace (b * 2 ^ (60 - d - n) * (100 * 2 ^ n)) with (100 * b * (2 ^ (60 - d - n) * 2 ^ n)) by ring.
    rewrite Hpow, Enum. apply Z.mul_le_mono_nonneg_r; lia.
  - pose proof (round_half_even_error num (100 * 2 ^ n) ltac:(lia)) as Herr.
    rewrite H210.
    replace (round_half_even num (100 * 2 ^ n) * 2 ^ (d - 60 + n + 210) * 100
             - Zpos k * (2 ^ (60 - d - n) * 2 ^ (d - 60 + n + 210)))
      with ((round_half_even num (100 * 2 ^ n) * 100 - Zpos k * 2 ^ (60 - d - n))
            * 2 ^ (d - 60 + n + 210)) by ring.
    rewrite Z.abs_mul, (Z.abs_eq (2 ^ (d - 60 + n + 210))) by lia.
    rewrite Z.mul_assoc. apply Z.mul_lt_mono_pos_r; [lia|].
    assert (Hnum : num = Zpos k * 2 ^ (60 - d - n) * 2 ^ n).
    { rewrite <- Z.mul_assoc, Hpow. exact Enum. }
    set (Rq := round_half_even num (100 * 2 ^ n)) in *.
    replace (Rq * (100 * 2 ^ n) - num)
      with ((Rq * 100 - Zpos k * 2 ^ (60 - d - n)) * 2 ^ n) in Herr
      by (rewrite Hnum; ring).
    rewrite Z.abs_mul, (Z.abs_eq (2 ^ n)) in Herr by lia.
    assert (Hcancel : 2 * Z.abs (Rq * 100 - Zpos k * 2 ^ (60 - d - n)) <= 100).
    { apply (Z.mul_le_mono_pos_r _ _ (2 ^ n)); [lia|].
      rewrite <- Z.mul_assoc. exact Herr. }
    lia.
Qed.

Lemma float_of_ratio_100_bounds (k : positive) (a b : Z) :
  1 <= a -> b <= 2 ^ 32 -> 100 * a <= Zpos k <= 100 * b ->
  float_leb (float_of_Z a) (float_of_ratio k 100) = true
  /\ float_leb (float_of_ratio k 100) (float_of_Z b) = true.
Proof.
  intros Ha Hb Hk.
  assert (H32 : 2 ^ 32 < 2 ^ 53) by reflexivity.
  assert (H39 : 100 * 2 ^ 32 < 2 ^ 39) by reflexivity.
  destruct (float_of_Z_normal a) as (Hna & Hea & Hva); [lia|].
  destruct (float_of_Z_normal b) as (Hnb & Heb & Hvb); [lia|].
  destruct (float_of_ratio_100_spec k) as (Hny & Hey & Hlo & Hhi & _); [lia|].
  split.
  - apply (normal_leb 210); try assumption; try lia.
    rewrite (scaled_shift 52 210) by (assumption || lia). rewrite Hva.
    change (2 ^ (210 - 52)) with (2 ^ 158).
    replace (a * 2 ^ 52 * 2 ^ 158) with (a * 2 ^ 210)
      by (change (2 ^ 210) with (2 ^ 52 * 2 ^ 158); ring).
    apply Hlo. lia.
  - apply (normal_leb 210); try assumption; try lia.
    rewrite (scaled_shift 52 210 (float_of_Z b)) by (assumption || lia). rewrite Hvb.
    change (2 ^ (210 - 52)) with (2 ^ 158).
    replace (b * 2 ^ 52 * 2 ^ 158) with (b * 2 ^ 210)
      by (change (2 ^ 210) with (2 ^ 52 * 2 ^ 158); ring).
    apply Hhi. lia.
Qed.

(** *** Decimal places *)

Lemma float_eqb_refl x : normal x -> float_eqb x x = true.
Proof.
  destruct x as [| | |[|] m e]; try contradiction. intros _.
  unfold float_eqb, SFeqb. cbn [SFcompare].
  rewrite Z.compare_refl, Pos.compare_cont_refl. reflexivity.
Qed.

Lemma shortest_decimal_le m e (D : Z) : forall fuel d,
  d <= D -> D - d <= Z.of_nat fuel ->
  roundtrips (scaled_round m e (10 ^ D)) D (S754_finite false m e) = true ->
  d <= snd (shortest_decimal fuel d m e) <= D.
Proof.
  induction fuel as [|fuel IH]; intros d HdD Hfuel Hrt.
  - cbn [shortest_decimal snd]. lia.
  - cbn [shortest_decimal].
    destruct (roundtrips (scaled_round m e (10 ^ d)) d (S754_finite false m e)) eqn:Ed.
    + cbn [snd]. lia.
    + assert (d <> D) by (intros ->; congruence).
      specialize (IH (d + 1) ltac:(lia) ltac:(lia) Hrt). lia.
Qed.

(** The float nearest to [k / 100] shows at most two decimals. *)
Lemma decimal_places_ratio_100 (k : positive) :
  Zpos k < 2 ^ 39 -> 0 <= decimal_places (float_of_ratio k 100) <= 2.
Proof.
  intros Hk.
  destruct (float_of_ratio_100_spec k Hk) as (Hn & He & _ & _ & Herr).
  pose proof (float_eqb_refl _ Hn) as Hrefl.
  destruct (float_of_ratio k 100) as [| | |[|] m e] eqn:Ey; try contradiction.
  cbn [decimal_places normal exponent scaled] in *.
  apply shortest_decimal_le; [lia|cbn; lia|].
  assert (Hk' : scaled_round m e (10 ^ 2) = Zpos k).
  { rewrite (scaled_round_scaled 210) by lia. change (10 ^ 2) with 100.
    apply Z.le_antisymm.
    - apply round_half_even_lt_half; lia.
    - apply round_half_even_gt_half; lia. }
  rewrite Hk'. cbn [roundtrips]. change (Z.to_pos (10 ^ 2)) with 100%positive.
  rewrite Ey. exact Hrefl.
Qed.

(* ===================================================================== *)
(** ** The generator: what every run ensures *)

Section GeneratorProps.
Context {R F : Type} {HR : RandomGen R} {HF : FakerGen F}.

(** [ensures c P]: from every world, [c] returns normally with a value
    satisfying [P]. *)
Definition ensures {A} (c : M R F A) (P : A -> Prop) : Prop :=
  forall w, exists a w', c w = Ok (a, w') /\ P a.

Lemma ensures_ret {A} (a : A) (P : A -> Prop) : P a -> ensures (ret a) P.
Proof. intros Ha w. exists a, w. split; [reflexivity|exact Ha]. Qed.

Lemma ensures_bind {A B} (c : M R F A) (k : A -> M R F B) P Q :
  ensures c P -> (forall a, P a -> ensures (k a) Q) -> ensures (bind c k) Q.
Proof.
  intros Hc Hk w. destruct (Hc w) as (a & w1 & Ec & Ha).
  destruct (Hk a Ha w1) as (b & w2 & Ek & Hb).
  exists b, w2. unfold bind. rewrite Ec. split; assumption.
Qed.

Lemma ensures_mono {A} (c : M R F A) (P Q : A -> Prop) :
  (forall a, P a -> Q a) -> ensures c P -> ensures c Q.
Proof.
  intros HPQ Hc w. destruct (Hc w) as (a & w' & E & Ha).
  exists a, w'. split; [exact E|apply HPQ, Ha].
Qed.

Lemma ensures_with_random {A} (f : R -> A * R) (P : A -> Prop) :
  (forall r, P (fst (f r))) -> ensures (with_random f) P.
Proof.
  intros Hf w. unfold with_random. specialize (Hf (w_random w)).
  destruct (f (w_random w)) as [a r]. eexists _, _. split; [reflexivity|exact Hf].
Qed.

Lemma ensures_with_faker {A} (f : F -> A * F) : ensures (with_faker f) (fun _ => True).
Proof.
  intros w. unfold with_faker. destruct (f (w_faker w)) as [a f'].
  eexists _, _. split; [reflexivity|exact I].
Qed.

Lemma ensures_now : ensures now (fun _ => True).
Proof. intros w. eexists _, _. split; [reflexivity|exact I]. Qed.

Lemma ensures_random :
  ensures random (fun x => exists m, (m < 2 ^ 53)%N /\ x = random_float m).
Proof.
  unfold random. eapply ensures_bind.
  - apply (ensures_with_random rg_random (fun m => (m < 2 ^ 53)%N)), rg_random_lt.
  - intros m Hm. apply ensures_ret. exists m. split; [exact Hm|reflexivity].
Qed.

Lemma ensures_randint (a b : Z) :
  a <= b -> ensures (randint a b) (fun z => a <= z <= b).
Proof.
  intros Hab. unfold randint.
  destruct (Z.leb_spec (b + 1 - a) 0) as [Hle|Hlt]; [lia|].
  eapply ensures_bind.
  - apply (ensures_with_random _ (fun k => (k < Z.to_N (b + 1 - a))%N)).
    intros r. apply rg_randbelow_lt. lia.
  - intros k Hk. apply ensures_ret. cbv beta in Hk. lia.
Qed.

Lemma ensures_choice {A} (seq : list A) :
  seq <> [] -> ensures (choice seq) (fun x => In x seq).
Proof.
  intros Hne. unfold choice. destruct seq as [|x0 seq']; [congruence|].
  set (seq := x0 :: seq') in *.
  eapply ensures_bind.
  - apply (ensures_with_random _ (fun i => (i < N.of_nat (length seq))%N)).
    intros r. apply rg_randbelow_lt. cbn [seq length]. lia.
  - intros i Hi. cbv beta in Hi.
    destruct (nth_error seq (N.to_nat i)) as [x|] eqn:Ex.
    + apply ensures_ret. eapply nth_error_In, Ex.
    + apply nth_error_None in Ex. lia.
Qed.

Lemma ensures_uniform (a b : Z) :
  ensures (uniform a b)
    (fun x => exists m, (m < 2 ^ 53)%N
       /\ x = float_add (float_of_Z a) (float_mul (float_of_Z (b - a)) (random_float m))).
Proof.
  unfold uniform. eapply ensures_bind; [apply ensures_random|].
  intros r (m & Hm & ->). apply ensures_ret. exists m. split; [exact Hm|reflexivity].
Qed.

Lemma ensures_getitem {A} (seq : list A) (i : Z) :
  0 <= i < Z.of_nat (length seq) -> ensures (getitem seq i) (fun x => In x seq).
Proof.
  intros Hi. unfold getitem.
  destruct (Z.ltb_spec i 0) as [?|_]; [lia|].
  destruct (Z.leb_spec 0 i) as [_|?]; [|lia].
  destruct (Z.ltb_spec i (Z.of_nat (length seq))) as [_|?]; [|lia].
  cbn [andb].
  destruct (nth_error seq (Z.to_nat i)) as [x|] eqn:Ex.
  - apply ensures_ret. eapply nth_error_In, Ex.
  - apply nth_error_None in Ex. lia.
Qed.

(** [random.choices] returns [k] members of a non-empty population. *)
Lemma ensures_choices {A} (population : list A) (k : nat) :
  1 <= Z.of_nat (length population) < 2 ^ 53 ->
  ensures (choices population k)
    (fun l => length l = k /\ Forall (fun x => In x population) l).
Proof.
  intros Hlen. induction k as [|k IH]; cbn [choices].
  - apply ensures_ret. split; [reflexivity|constructor].
  - eapply ensures_bind; [apply ensures_random|].
    intros r (m & Hm & ->).
    destruct (floor_random_mul_range m _ Hm Hlen) as (i & Ei & Hi).
    unfold float_mul in Ei |- *. rewrite Ei.
    eapply ensures_bind; [apply ensures_getitem, Hi|].
    intros x Hx. eapply ensures_bind; [exact IH|].
    intros xs [Hl Hall]. apply ensures_ret. split.
    + cbn. congruence.
    + constructor; assumption.
Qed.

Lemma ensures_random_datetime (start end_ : string) :
  ensures (random_datetime start end_) (fun _ => True).
Proof.
  unfold random_datetime. eapply ensures_bind; [apply ensures_now|].
  intros t _. apply ensures_with_faker.
Qed.

Lemma population_pattern :
  forallb is_upper_or_digit (list_ascii_of_string (ascii_uppercase ++ digits)) = true.
Proof. reflexivity. Qed.

Lemma ensures_generate_transaction_code :
  ensures generate_transaction_code (fun s => matches_txn_pattern s = true).
Proof.
  unfold generate_transaction_code. eapply ensures_bind.
  - apply ensures_choices. split; [apply Z.leb_le|apply Z.ltb_lt]; reflexivity.
  - intros cs [Hlen Hall]. apply ensures_ret.
    change ("TXN-" ++ string_of_list_ascii cs)
      with (String "T" (String "X" (String "N" (String "-" (string_of_list_ascii cs))))).
    cbn [matches_txn_pattern].
    rewrite list_ascii_of_string_of_list_ascii.
    assert (Hl : String.length (string_of_list_ascii cs) = 8%nat).
    { rewrite <- Hlen. clear. induction cs as [|c cs IH]; cbn; congruence. }
    rewrite Hl. cbn [Nat.eqb andb].
    apply forallb_forall. intros c Hc.
    rewrite List.Forall_forall in Hall.
    pose proof population_pattern as Hp. rewrite forallb_forall in Hp.
    apply Hp, Hall, Hc.
Qed.


(** What [round(random.uniform(a, b), 2)] returns: the rounding of a
    sample [a + (b - a) * (m / 2^53)], which is the float nearest to
    [k / 100] for an integer [k] from [100 * a] to [100 * b]. *)
Definition rounded_uniform (a b : Z) (x : float) : Prop :=
  exists (m : N) (k : positive),
    (m < 2 ^ 53)%N
    /\ x = py_round (float_add (float_of_Z a)
                       (float_mul (float_of_Z (b - a)) (random_float m))) 2
    /\ x = float_of_ratio k 100
    /\ 100 * a <= Zpos k <= 100 * b.

Lemma ensures_rounded_uniform (a b : Z) :
  1 <= a < b -> b <= 2 ^ 32 ->
  ensures (uniform a b) (fun x => rounded_uniform a b (py_round x 2)).
Proof.
  intros Hab Hb. eapply ensures_mono; [|apply ensures_uniform].
  intros x (m & Hm & ->).
  destruct (uniform_round_bounds a b m Hab Hb Hm) as (k & Hk & Ek).
  exists m, k. repeat split; try assumption; lia.
Qed.

(** The shape of a generated record, for the loop index [i]. *)
Definition record_ok (i : nat) (d : dict) : Prop :=
  exists code client client_name agent agent_name (tdate : datetime) amount
         currency origin destination fee status (sdate : datetime) category
         icon fraud,
    d = [ ("TransactionID", VInt (Z.of_nat i + 1));
          ("TransactionCode", VStr code);
          ("ClientID", VInt client);
          ("ClientFullName", VStr client_name);
          ("AgentID", VInt agent);
          ("AgentFullName", VStr agent_name);
          ("TransactionDate", VStr (isoformat tdate));
          ("Amount", VFloat amount);
          ("Currency", VStr currency);
          ("OriginalCountry", VStr origin);
          ("DestinationCountry", VStr destination);
          ("Fee", VFloat fee);
          ("TransactionStatus", VStr status);
          ("StatusDate", VStr (isoformat sdate));
          ("Category", VStr category);
          ("Icon", VStr icon);
          ("IsFraudulent", VInt fraud) ]
    /\ matches_txn_pattern code = true
    /\ 1 <= client <= NUM_CLIENTS
    /\ 1 <= agent <= NUM_AGENTS
    /\ rounded_uniform 10 10000 amount
    /\ In currency currencies
    /\ rounded_uniform 1 50 fee
    /\ In status statuses
    /\ In category categories
    /\ In fraud [0; 1].

Lemma ensures_transaction (i : nat) : ensures (transaction i) (record_ok i).
Proof.
  unfold transaction.
  eapply ensures_bind; [apply ensures_generate_transaction_code|]. intros code Hcode.
  eapply ensures_bind; [apply (ensures_randint 1 NUM_CLIENTS); discriminate|]. intros client Hclient.
  eapply ensures_bind; [apply ensures_with_faker|]. intros client_name _.
  eapply ensures_bind; [apply (ensures_randint 1 NUM_AGENTS); discriminate|]. intros agent Hagent.
  eapply ensures_bind; [apply ensures_with_faker|]. intros agent_name _.
  eapply ensures_bind; [apply ensures_random_datetime|]. intros tdate _.
  eapply ensures_bind; [apply (ensures_rounded_uniform 10 10000); [lia|discriminate]|].
  intros amount Hamount.
  eapply ensures_bind; [apply (ensures_choice currencies); discriminate|]. intros currency Hcur.
  eapply ensures_bind; [apply ensures_with_faker|]. intros origin _.
  eapply ensures_bind; [apply ensures_with_faker|]. intros destination _.
  eapply ensures_bind; [apply (ensures_rounded_uniform 1 50); [lia|discriminate]|].
  intros fee Hfee.
  eapply ensures_bind; [apply (ensures_choice statuses); discriminate|]. intros status Hstatus.
  eapply ensures_bind; [apply ensures_random_datetime|]. intros sdate _.
  eapply ensures_bind; [apply (ensures_choice categories); discriminate|]. intros category Hcat.
  eapply ensures_bind; [apply ensures_with_faker|]. intros icon _.
  eapply ensures_bind; [apply (ensures_choice [0; 1]); discriminate|]. intros fraud Hfraud.
  apply ensures_ret.
  exists code, client, client_name, agent, agent_name, tdate, (py_round amount 2),
    currency, origin, destination, (py_round fee 2), status, sdate, category, icon, fraud.
  split; [reflexivity|]. repeat (split; [assumption|]). assumption.
Qed.

(** A comprehension over [range(start, start + count)] returns one value
    per index, in order. *)
Lemma ensures_comprehension {A} (f : nat -> M R F A) (P : nat -> A -> Prop) :
  (forall i, ensures (f i) (P i)) ->
  forall count start,
    ensures (comprehension f start count) (fun l => Forall2 P (seq start count) l).
Proof.
  intros Hf. induction count as [|count IH]; intros start; cbn [comprehension seq].
  - apply ensures_ret. constructor.
  - eapply ensures_bind; [apply Hf|]. intros x Hx.
    eapply ensures_bind; [apply IH|]. intros xs Hxs.
    apply ensures_ret. constructor; assumption.
Qed.

Lemma ensures_transactions_data_of (n : nat) :
  ensures (transactions_data_of n) (fun l => Forall2 record_ok (seq 0 n) l).
Proof. apply ensures_comprehension, ensures_transaction. Qed.

End GeneratorProps.

(* ===================================================================== *)
(** ** The generator: what its result depends on *)

Section Determinism.
Context {R F : Type} {HR : RandomGen R} {HF : FakerGen F}.

(** Two worlds give a run the same inputs when the generator states are
    equal and the clocks will give the same readings from now on. *)
Definition same_inputs (w1 w2 : World R F) : Prop :=
  w_random w1 = w_random w2
  /\ w_faker w1 = w_faker w2
  /\ forall i, w_clock w1 (w_ticks w1 + i)%nat = w_clock w2 (w_ticks w2 + i)%nat.

Definition same_outcome {A} (r1 r2 : result (A * World R F)) : Prop :=
  match r1, r2 with
  | Ok (a1, w1), Ok (a2, w2) => a1 = a2 /\ same_inputs w1 w2
  | Raise e1, Raise e2 => e1 = e2
  | _, _ => False
  end.

Definition deterministic {A} (c : M R F A) : Prop :=
  forall w1 w2, same_inputs w1 w2 -> same_outcome (c w1) (c w2).

Lemma det_ret {A} (a : A) : deterministic (ret a).
Proof. intros w1 w2 H. split; [reflexivity|exact H]. Qed.

Lemma det_raise {A} (e : exn) : deterministic (@raise R F A e).
Proof. intros w1 w2 H. reflexivity. Qed.

Lemma det_bind {A B} (c : M R F A) (k : A -> M R F B) :
  deterministic c -> (forall a, deterministic (k a)) -> deterministic (bind c k).
Proof.
  intros Hc Hk w1 w2 H. unfold bind. specialize (Hc w1 w2 H).
  unfold same_outcome in Hc.
  destruct (c w1) as [[a1 w1']|e1], (c w2) as [[a2 w2']|e2]; try contradiction.
  - destruct Hc as [-> Hw]. apply Hk, Hw.
  - exact Hc.
Qed.

Lemma det_with_random {A} (f : R -> A * R) : deterministic (with_random f).
Proof.
  intros w1 w2 (Hr & Hf & Hc). unfold with_random. rewrite Hr.
  destruct (f (w_random w2)) as [a r]. split; [reflexivity|].
  split; [reflexivity|]. split; assumption.
Qed.

Lemma det_with_faker {A} (f : F -> A * F) : deterministic (with_faker f).
Proof.
  intros w1 w2 (Hr & Hf & Hc). unfold with_faker. rewrite Hf.
  destruct (f (w_faker w2)) as [a f']. split; [reflexivity|].
  split; [assumption|]. split; [reflexivity|assumption].
Qed.

Lemma det_now : deterministic now.
Proof.
  intros w1 w2 (Hr & Hf & Hc). unfold now. split.
  - specialize (Hc 0%nat). rewrite !Nat.add_0_r in Hc. exact Hc.
  - split; [assumption|]. split; [assumption|].
    intros i. cbn [w_clock w_ticks]. specialize (Hc (S i)).
    rewrite !Nat.add_succ_r in Hc. exact Hc.
Qed.

Create HintDb det discriminated.
Hint Resolve det_ret det_raise det_bind det_with_random det_with_faker det_now : det.

Lemma det_random : deterministic random.
Proof. unfold random. auto with det. Qed.

Lemma det_randint a b : deterministic (randint a b).
Proof. unfold randint. destruct (b + 1 - a <=? 0); auto with det. Qed.

Lemma det_choice {A} (seq : list A) : deterministic (choice seq).
Proof.
  unfold choice. destruct seq as [|x seq']; [auto with det|].
  apply det_bind; [auto with det|]. intros i.
  destruct (nth_error (x :: seq') (N.to_nat i)); auto with det.
Qed.

Lemma det_uniform a b : deterministic (uniform a b).
Proof. unfold uniform. apply det_bind; [apply det_random|]. auto with det. Qed.

Lemma det_getitem {A} (seq : list A) i : deterministic (getitem seq i).
Proof.
  unfold getitem.
  destruct ((0 <=? (if i <? 0 then i + Z.of_nat (length seq) else i))
            && ((if i <? 0 then i + Z.of_nat (length seq) else i) <? Z.of_nat (length seq)));
    [|auto with det].
  destruct (nth_error seq _); auto with det.
Qed.

Lemma det_choices {A} (population : list A) k : deterministic (choices population k).
Proof.
  induction k as [|k IH]; cbn [choices]; [auto with det|].
  apply det_bind; [apply det_random|]. intros r.
  destruct (py_floor _); [|auto with det].
  apply det_bind; [apply det_getitem|]. intros x.
  apply det_bind; [exact IH|]. auto with det.
Qed.

Lemma det_random_datetime s e : deterministic (random_datetime s e).
Proof. unfold random_datetime. auto with det. Qed.

Lemma det_generate_transaction_code : deterministic generate_transaction_code.
Proof.
  unfold generate_transaction_code. apply det_bind; [apply det_choices|]. auto with det.
Qed.

Hint Resolve det_random det_randint det_choice det_uniform det_random_datetime
  det_generate_transaction_code : det.

Lemma det_transaction i : deterministic (transaction i).
Proof. unfold transaction. repeat (apply det_bind; [auto with det|intros ?]). auto with det. Qed.

Lemma det_comprehension {A} (f : nat -> M R F A) :
  (forall i, deterministic (f i)) ->
  forall count start, deterministic (comprehension f start count).
Proof.
  intros Hf. induction count as [|count IH]; intros start; cbn [comprehension].
  - apply det_ret.
  - apply det_bind; [apply Hf|]. intros x.
    apply det_bind; [apply IH|]. intros xs. apply det_ret.
Qed.

Lemma det_transactions_data_of n : deterministic (transactions_data_of n).
Proof. apply det_comprehension, det_transaction. Qed.

End Determinism.

(** Two facts read off the shape of a record. *)
Lemma record_ok_keys (i : nat) (d : dict) : record_ok i d -> keys d = schema_fields.
Proof.
  intros (code & client & cn & agent & an & td & am & cur & og & de & fee & st & sd
          & cat & icon & fr & -> & _). reflexivity.
Qed.

Lemma record_ok_id (i : nat) (d : dict) :
  record_ok i d -> dict_get "TransactionID" d = Some (VInt (Z.of_nat (S i))).
Proof.
  intros (code & client & cn & agent & an & td & am & cur & og & de & fee & st & sd
          & cat & icon & fr & -> & _).
  cbn. do 2 f_equal. lia.
Qed.

Lemma Forall2_seq_Forall {A} (P : nat -> A -> Prop) (Q : A -> Prop) :
  (forall i a, P i a -> Q a) ->
  forall n start l, Forall2 P (seq start n) l -> Forall Q l.
Proof.
  intros HPQ n start l H. remember (seq start n) as is_ eqn:E. clear E.
  induction H; constructor; eauto.
Qed.

(* ===================================================================== *)
(** ** The script: how a run ends *)

(** Whether the working directory takes [content] at [path] in full: the
    path can be opened, and there is room for every character. *)
Definition accepts (fs : filesystem) (path content : string) : bool :=
  bool_decide (path ∉ fs_denied fs)
  && match fs_room fs !! path with
     | Some room => (String.length content <=? room)%nat
     | None => true
     end.

Lemma write_file_accepts (fs : filesystem) (path content : string) :
  accepts fs path content = true ->
  write_file path content fs = (with_file path content fs, Ok tt).
Proof.
  unfold accepts, write_file. intros H. apply andb_true_iff in H as [Hd Hr].
  apply bool_decide_eq_true in Hd. rewrite decide_False by exact Hd.
  destruct (fs_room fs !! path) as [room|]; [|reflexivity].
  apply Nat.leb_le in Hr. destruct (Nat.ltb_spec room (String.length content)); [lia|].
  reflexivity.
Qed.

Lemma write_file_rejects (fs : filesystem) (path content : string) :
  accepts fs path content = false ->
  snd (write_file path content fs) = Raise OSError
  /\ (forall other, other <> path ->
        fs_files (fst (write_file path content fs)) !! other = fs_files fs !! other)
  /\ (path ∈ fs_denied fs -> fst (write_file path content fs) = fs).
Proof.
  unfold accepts, write_file. intros H.
  destruct (decide (path ∈ fs_denied fs)) as [Hd|Hd].
  - cbn [fst snd]. auto.
  - rewrite bool_decide_eq_true_2 in H by exact Hd. cbn [andb] in H.
    destruct (fs_room fs !! path) as [room|]; [|discriminate H].
    apply Nat.leb_gt in H.
    destruct (Nat.ltb_spec room (String.length content)); [|lia].
    cbn [fst snd with_file fs_files]. split; [reflexivity|]. split; [|tauto].
    intros other Ho. apply lookup_insert_ne. congruence.
Qed.

Lemma accepts_with_file (fs : filesystem) (p c path content : string) :
  accepts (with_file p c fs) path content = accepts fs path content.
Proof. reflexivity. Qed.

Lemma accepts_mkFS (files_ : gmap string string) (path content : string) :
  accepts (mkFS files_ ∅) path content = true.
Proof.
  unfold accepts, mkFS. cbn [fs_denied fs_room].
  rewrite bool_decide_eq_true_2 by set_solver. rewrite lookup_empty. reflexivity.
Qed.

Section ScriptProps.
Context {R F : Type} {HR : RandomGen R} {HF : FakerGen F}.

Definition csv_path : string := "transactions_.csv".
Definition json_path : string := "transactions_.json".

(** The three ways a run can end, by what the working directory takes. *)
Lemma run_script_of_cases (n : nat) (w : World R F) (fs : filesystem) :
  exists data w',
    transactions_data_of n w = Ok (data, w')
    /\ run_script_of n w fs =
       if accepts fs csv_path (to_csv data) then
         let fs1 := with_file csv_path (to_csv data) fs in
         if accepts fs json_path (json_dumps_indent4 (obj_of_data data)) then
           mkOutcome 0
             (with_file json_path (json_dumps_indent4 (obj_of_data data)) fs1)
             [completion_message]
         else
           mkOutcome 1
             (fst (write_file json_path (json_dumps_indent4 (obj_of_data data)) fs1))
             []
       else mkOutcome 1 (fst (write_file csv_path (to_csv data) fs)) [].
Proof.
  destruct (ensures_transactions_data_of n w) as (data & w' & E & _).
  exists data, w'. split; [exact E|].
  unfold run_script_of. rewrite E. fold csv_path json_path.
  destruct (accepts fs csv_path (to_csv data)) eqn:Ec.
  - rewrite (write_file_accepts _ _ _ Ec). cbv zeta.
    destruct (accepts fs json_path (json_dumps_indent4 (obj_of_data data))) eqn:Ej.
    + rewrite write_file_accepts by (rewrite accepts_with_file; exact Ej). reflexivity.
    + pose proof (write_file_rejects (with_file csv_path (to_csv data) fs) json_path
                    (json_dumps_indent4 (obj_of_data data))) as Hrej.
      rewrite accepts_with_file in Hrej. destruct (Hrej Ej) as [Hs _].
      destruct (write_file json_path _ _) as [fs2 r]. cbn [fst snd] in *.
      rewrite Hs. reflexivity.
  - destruct (write_file_rejects fs csv_path (to_csv data) Ec) as [Hs _].
    destruct (write_file csv_path _ _) as [fs1 r]. cbn [fst snd] in *.
    rewrite Hs. reflexivity.
Qed.

(** A run in a directory with room for every write and no path denied
    completes. *)
Lemma run_script_of_mkFS (n : nat) (w : World R F) (files_ : gmap string string) :
  exit_code (run_script_of n w (mkFS files_ ∅)) = 0.
Proof.
  destruct (run_script_of_cases n w (mkFS files_ ∅)) as (data & w' & _ & ->).
  rewrite !accepts_mkFS. reflexivity.
Defined.

End ScriptProps.

(* ===================================================================== *)
(** ** Serialization: the text written *)

Lemma append_String (x : ascii) (a b : string) : String x a ++ b = String x (a ++ b).
Proof. reflexivity. Qed.

Lemma append_nil_l (a : string) : "" ++ a = a.
Proof. reflexivity. Qed.

Lemma append_assoc (a b c : string) : (a ++ b) ++ c = a ++ (b ++ c).
Proof.
  induction a as [|x a IH]; [reflexivity|].
  rewrite !append_String, IH. reflexivity.
Qed.

Lemma append_nil_r (a : string) : a ++ "" = a.
Proof.
  induction a as [|x a IH]; [reflexivity|].
  rewrite append_String, IH. reflexivity.
Qed.

Lemma join_cons (sep x : string) (l : list string) :
  l <> [] -> join sep (x :: l) = x ++ sep ++ join sep l.
Proof. destruct l; [congruence|reflexivity]. Qed.

(** A prefix repeated after every separator can be put on the items. *)
Lemma join_prefix (p sep : string) (l : list string) :
  l <> [] -> p ++ join (sep ++ p) l = join sep (map (String.append p) l).
Proof.
  induction l as [|x l IH]; intros Hne; [congruence|].
  destruct l as [|y l]; [reflexivity|].
  rewrite join_cons by discriminate.
  change (map (String.append p) (x :: y :: l))
    with ((p ++ x) :: map (String.append p) (y :: l)).
  rewrite (join_cons sep (p ++ x)) by (cbn [map]; discriminate).
  assert (Hyl : y :: l <> []) by discriminate.
  rewrite <- (IH Hyl).
  rewrite !append_assoc. reflexivity.
Qed.

(** Positive normal floats are printed in positional notation in both files. *)
Lemma float_json_normal (x : float) : normal x -> float_json x = float_repr x.
Proof. destruct x as [| | |[|] m e]; try contradiction. reflexivity. Qed.

Lemma csv_cell_normal (x : float) :
  normal x -> csv_cell (Some (VFloat x)) = float_repr x.
Proof. destruct x as [| | |[|] m e]; try contradiction. reflexivity. Qed.

Section SerializationProps.
Context {R F : Type} {HR : RandomGen R} {HF : FakerGen F}.

Lemma rounded_uniform_normal (a b : Z) (x : float) :
b <= 2 ^ 32 -> rounded_uniform a b x -> normal x.
Proof.
intros Hb (m & k & _ & _ & -> & Hk).
assert (H39 : 100 * 2 ^ 32 < 2 ^ 39) by reflexivity.
destruct (float_of_ratio_100_spec k) as (Hn & _); [lia|exact Hn].
Qed.

Lemma columns_schema (data : list dict) :
data <> [] -> Forall (fun d => keys d = schema_fields) data ->
columns data = schema_fields.
Proof.
intros Hne Hall. unfold columns.
destruct Hall as [|d ds Hd Hds]; [congruence|].
cbn [fold_left]. rewrite Hd.
change (fold_left add_column schema_fields []) with schema_fields.
clear Hne Hd. induction Hds as [|d' ds Hd' _ IH]; [reflexivity|].
cbn [fold_left]. rewrite Hd'.
change (fold_left add_column schema_fields schema_fields) with schema_fields.
exact IH.
Qed.

Lemma csv_row_record (i : nat) (d : dict) :
record_ok i d ->
csv_row schema_fields d = join "," (map csv_text (values d)).
Proof.
intros (code & client & cn & agent & an & td & am & cur & og & de & fee & st & sd
        & cat & icon & fr & -> & _ & _ & _ & Ham & _ & Hfee & _).
apply rounded_uniform_normal in Ham; [|discriminate].
apply rounded_uniform_normal in Hfee; [|discriminate].
unfold csv_row. cbn [map schema_fields dict_get String.eqb Ascii.eqb Bool.eqb values snd].
rewrite !csv_cell_normal by assumption. reflexivity.
Qed.

Lemma to_csv_records (n : nat) (data : list dict) :
data <> [] -> Forall2 record_ok (seq 0 n) data -> to_csv data = records_csv data.
Proof.
intros Hne H. unfold to_csv, records_csv, csv_lines.
rewrite columns_schema; [|exact Hne|].
2:{ eapply Forall2_seq_Forall; [|exact H]. intros i d. apply record_ok_keys. }
change (map csv_field schema_fields) with schema_fields.
do 2 f_equal.
remember (seq 0 n) as is_ eqn:E. clear E Hne.
induction H as [|i d is_ ds Hd _ IH]; [reflexivity|].
cbn [map]. rewrite IH. f_equal. eapply csv_row_record, Hd.
Qed.


(** A value the encoder prints as [json_text] does: any [int] or [str], and
  the positive normal floats. *)
Definition plain (v : value) : Prop :=
match v with
| VFloat x => normal x
| _ => True
end.

Lemma encode_value (indent level : nat) (v : value) :
plain v -> encode indent level (obj_of_value v) = json_text v.
Proof.
destruct v as [z|x|s]; cbn [plain obj_of_value json_text]; intros Hv;
  [reflexivity| |reflexivity].
destruct x as [| | |[|] m e]; try contradiction. reflexivity.
Qed.

Definition member_text (kv : string * value) : string :=
py_encode_basestring_ascii (fst kv) ++ ": " ++ json_text (snd kv).

Lemma encode_dict (level : nat) (d : dict) :
d <> [] -> Forall plain (values d) ->
encode 4 level (obj_of_dict d)
= "{" ++ newline_indent 4 (S level)
  ++ join ("," ++ newline_indent 4 (S level)) (map member_text d)
  ++ newline_indent 4 level ++ "}".
Proof.
intros Hne Hall. destruct d as [|[k v] d]; [congruence|].
unfold obj_of_dict. cbn [map fst snd encode].
assert (Hv : plain v) by (inversion Hall; assumption).
unfold member_text at 1. cbn [fst snd]. rewrite (encode_value _ _ _ Hv).
rewrite <- !append_assoc. do 5 f_equal.
rewrite map_map. apply map_ext_in. intros [k' v'] Hin. cbn [fst snd].
  unfold member_text. cbn [fst snd]. rewrite encode_value; [reflexivity|].
  inversion Hall as [|? ? _ Hall']; subst.
  rewrite List.Forall_forall in Hall'. apply Hall'.
  unfold values. apply in_map_iff. exists (k', v'). split; [reflexivity|exact Hin].
Qed.

Lemma record_ok_plain (i : nat) (d : dict) :
record_ok i d -> d <> [] /\ Forall plain (values d).
Proof.
intros (code & client & cn & agent & an & td & am & cur & og & de & fee & st & sd
        & cat & icon & fr & -> & _ & _ & _ & Ham & _ & Hfee & _).
apply rounded_uniform_normal in Ham; [|discriminate].
apply rounded_uniform_normal in Hfee; [|discriminate].
split; [discriminate|].
unfold values. cbn [map snd]. repeat constructor; assumption.
Qed.

Lemma record_object_eq (d : dict) :
d <> [] -> Forall plain (values d) ->
spaces 4 ++ encode 4 1 (obj_of_dict d) = record_object d.
Proof.
intros Hne Hall. rewrite encode_dict by assumption. unfold record_object.
f_equal.
change (newline_indent 4 2) with (nl ++ spaces 8).
change ("," ++ nl ++ spaces 8) with (("," ++ nl) ++ spaces 8).
change (newline_indent 4 1) with (nl ++ spaces 4).
rewrite !append_assoc. do 2 f_equal.
rewrite <- !append_assoc.
rewrite (join_prefix (spaces 8) ("," ++ nl)).
- rewrite map_map. reflexivity.
- destruct d; [congruence|discriminate].
Qed.

Lemma json_dumps_records (n : nat) (data : list dict) :
data <> [] -> Forall2 record_ok (seq 0 n) data ->
json_dumps_indent4 (obj_of_data data) = records_json data.
Proof.
intros Hne H. unfold json_dumps_indent4, obj_of_data, records_json.
assert (Hall : Forall (fun d => d <> [] /\ Forall plain (values d)) data).
{ eapply Forall2_seq_Forall; [|exact H]. intros i d. apply record_ok_plain. }
clear H. destruct data as [|d ds]; [congruence|].
cbn [map encode].
change (newline_indent 4 1) with (nl ++ spaces 4).
change (newline_indent 4 0) with nl.
change ("," ++ nl ++ spaces 4) with (("," ++ nl) ++ spaces 4).
f_equal. rewrite !append_assoc. f_equal. rewrite <- !append_assoc. f_equal.
change (encode 4 1 (obj_of_dict d) :: map (encode 4 1) (map obj_of_dict ds))
  with (map (encode 4 1) (map obj_of_dict (d :: ds))).
rewrite join_prefix by discriminate.
rewrite !map_map.
change (record_object d :: map record_object ds)
  with (map record_object (d :: ds)).
f_equal. f_equal. apply map_ext_in. intros d' Hin.
rewrite List.Forall_forall in Hall. destruct (Hall d' Hin) as [Hne' Hpl].
apply record_object_eq; assumption.
Qed.

End SerializationProps.

Section ScriptFiles.
Context {R F : Type} {HR : RandomGen R} {HF : FakerGen F}.

(** A run that ends with status 0 wrote both files from one record list. *)
Lemma run_script_of_done (n : nat) (w : World R F) (fs : filesystem) :
  exit_code (run_script_of n w fs) = 0 ->
  exists data w',
    transactions_data_of n w = Ok (data, w')
    /\ Forall2 record_ok (seq 0 n) data
    /\ fs_files (files (run_script_of n w fs))
       = <[json_path := json_dumps_indent4 (obj_of_data data)]>
           (<[csv_path := to_csv data]> (fs_files fs)).
Proof.
  intros Hexit.
  destruct (ensures_transactions_data_of n w) as (data & w' & E & Hrec).
  exists data, w'. split; [exact E|]. split; [exact Hrec|].
  destruct (run_script_of_cases n w fs) as (data' & w'' & E' & Hrun).
  rewrite E in E'. injection E' as <- <-.
  rewrite Hrun in Hexit |- *. clear Hrun.
  destruct (accepts fs csv_path (to_csv data)); [|discriminate].
  cbv zeta in Hexit |- *.
  destruct (accepts fs json_path _); [|discriminate].
  reflexivity.
Qed.

End ScriptFiles.
(* ===================================================================== *)
(** ** Reading back what the encoder wrote *)

(** *** Numbers *)

Fixpoint all_digits (s : string) : bool :=
  match s with
  | EmptyString => true
  | String c s' => is_digit c && all_digits s'
  end.

Lemma all_digits_app (a b : string) :
  all_digits a = true -> all_digits b = true -> all_digits (a ++ b) = true.
Proof.
  intros Ha Hb. induction a as [|c a IH]; [exact Hb|].
  rewrite append_String. cbn [all_digits] in *.
  apply andb_true_iff in Ha as [Hc Ha]. rewrite Hc, (IH Ha). reflexivity.
Qed.

Lemma all_digits_uint (u : Decimal.uint) :
  all_digits (NilEmpty.string_of_uint u) = true.
Proof. induction u; cbn [NilEmpty.string_of_uint all_digits]; auto. Qed.

Lemma all_digits_zeros (k : nat) : all_digits (zeros k) = true.
Proof. induction k as [|k IH]; [reflexivity|exact IH]. Qed.

Lemma take_digits_app (ds : string) (c : ascii) (r : string) :
  all_digits ds = true -> is_digit c = false ->
  take_digits (ds ++ String c r) = (ds, String c r).
Proof.
  intros Hds Hc. induction ds as [|d ds IH].
  - rewrite append_nil_l. cbn [take_digits]. rewrite Hc. reflexivity.
  - rewrite append_String. cbn [all_digits] in Hds.
    apply andb_true_iff in Hds as [Hd Hds].
    cbn [take_digits]. rewrite Hd, (IH Hds). reflexivity.
Qed.

(** The decimal digits of a number: [0], or a digit other than [0] followed
    by digits. *)
Definition nonzero_digits : list ascii :=
  ["1"; "2"; "3"; "4"; "5"; "6"; "7"; "8"; "9"]%char.

Lemma to_uint_unorm (n : N) : Decimal.unorm (N.to_uint n) = N.to_uint n.
Proof.
  rewrite <- DecimalN.Unsigned.to_of, DecimalN.Unsigned.of_to. reflexivity.
Qed.

Lemma str_of_N_cases (n : N) :
  (n = 0%N /\ str_of_N n = "0")
  \/ exists c ds, str_of_N n = String c ds /\ In c nonzero_digits
                  /\ all_digits ds = true.
Proof.
  unfold str_of_N. pose proof (to_uint_unorm n) as Hn.
  pose proof (DecimalN.Unsigned.of_to n) as Hof.
  destruct (N.to_uint n) as [|u|u|u|u|u|u|u|u|u|u] eqn:E;
    try (right; eexists _, _; split; [reflexivity|];
         split; [cbn; tauto|apply all_digits_uint]).
  - discriminate Hn.
  - left. unfold Decimal.unorm in Hn. cbn [Decimal.nzhead] in Hn.
    destruct (Decimal.nzhead u) eqn:Eu; try discriminate Hn.
    + injection Hn as <-. split; [rewrite <- Hof; reflexivity|reflexivity].
    + exfalso. eapply DecimalFacts.nzhead_nonzero, Eu.
Qed.

Lemma digits_value_str_of_N (n : N) : digits_value (str_of_N n) = n.
Proof.
  unfold digits_value, str_of_N. rewrite NilZero.usu.
  - apply DecimalN.Unsigned.of_to.
  - intros E. pose proof (to_uint_unorm n) as Hn. rewrite E in Hn. discriminate Hn.
Qed.

Lemma all_digits_str_of_N (n : N) : all_digits (str_of_N n) = true.
Proof.
  destruct (str_of_N_cases n) as [[_ ->]|(c & ds & -> & Hc & Hds)]; [reflexivity|].
  cbn [all_digits]. rewrite Hds.
  cbn in Hc. decompose [or] Hc; subst; try reflexivity. contradiction.
Qed.

(** What follows a value in the encoder's output: a comma or a line break. *)
Definition ends_value (s : string) : Prop :=
  exists r, s = String "," r \/ s = String newline r.

Definition sign_text (negative : bool) : string := if negative then "-" else "".

Lemma scan_number_signed (negative : bool) (n : N) (rest : string) :
  ends_value rest ->
  scan_number (sign_text negative ++ str_of_N n ++ rest)
  = Some (PInt (if negative then - Z.of_N n else Z.of_N n), rest).
Proof.
  intros (r & Hr).
  pose proof (digits_value_str_of_N n) as E.
  destruct (str_of_N_cases n) as [[-> ->]|(c & ds & Es & Hc & Hds)].
  - destruct negative, Hr as [-> | ->]; reflexivity.
  - rewrite Es in E |- *. rewrite <- E. clear E Es.
    rewrite append_String.
    assert (Ht : take_digits (String c (ds ++ rest)) = (String c ds, rest)).
    { rewrite <- append_String. destruct Hr as [-> | ->];
        apply take_digits_app; try reflexivity;
        cbn [all_digits]; rewrite Hds;
        cbn in Hc; decompose [or] Hc; subst; try reflexivity; contradiction. }
    unfold scan_number.
    destruct negative; unfold sign_text;
      rewrite ?append_String, append_nil_l;
      cbn in Hc; decompose [or] Hc; try contradiction; subst c;
      cbv beta iota; rewrite Ht; cbv beta iota;
      destruct Hr as [-> | ->]; reflexivity.
Qed.

Lemma str_of_Z_signed (z : Z) :
  str_of_Z z = sign_text (z <? 0) ++ str_of_N (Z.abs_N z)
  /\ (if z <? 0 then - Z.of_N (Z.abs_N z) else Z.of_N (Z.abs_N z)) = z.
Proof. destruct z; split; reflexivity. Qed.

Lemma scan_number_int (z : Z) (rest : string) :
  ends_value rest -> scan_number (str_of_Z z ++ rest) = Some (PInt z, rest).
Proof.
  intros Hr. destruct (str_of_Z_signed z) as [-> Hz].
  rewrite append_assoc, scan_number_signed by exact Hr. rewrite Hz. reflexivity.
Qed.

Lemma str_of_N_nonempty (n : N) : exists c s, str_of_N n = String c s.
Proof.
  destruct (str_of_N_cases n) as [[_ ->]|(c & ds & -> & _)]; eauto.
Qed.

Lemma zfill_digits (k : nat) (n : N) :
  all_digits (zfill k n) = true /\ exists c s, zfill k n = String c s.
Proof.
  unfold zfill. split.
  - apply all_digits_app; [apply all_digits_zeros|apply all_digits_str_of_N].
  - destruct (k - String.length (str_of_N n))%nat as [|m].
    + rewrite append_nil_l. apply str_of_N_nonempty.
    + cbn [zeros]. rewrite append_String. eauto.
Qed.

(** A decimal in positional notation reads back as a [float]. *)
Lemma scan_number_fixed (j d : Z) (rest : string) :
  ends_value rest ->
  exists y, scan_number (fixed_repr j d ++ rest) = Some (PFloat y, rest).
Proof.
  intros (r & Hr). unfold fixed_repr.
  set (frac := if d =? 0 then "0" else zfill (Z.to_nat d) (Z.to_N (j mod 10 ^ d))).
  assert (Hfrac : all_digits frac = true /\ exists c s, frac = String c s).
  { subst frac. destruct (d =? 0); [split; [reflexivity|eauto]|apply zfill_digits]. }
  destruct Hfrac as (Hfd & f & fs & Ef). clearbody frac.
  assert (Hf : take_digits (frac ++ rest) = (frac, rest)).
  { destruct Hr as [-> | ->]; apply take_digits_app; auto. }
  rewrite !append_assoc. rewrite (append_String "."), append_nil_l.
  set (a := Z.to_N (j / 10 ^ d)).
  destruct (str_of_N_cases a) as [[_ ->]|(c & ds & -> & Hc & Hds)].
  - rewrite append_String, append_nil_l. unfold scan_number.
    cbv beta iota. rewrite Hf. rewrite Ef. cbv beta iota.
    destruct Hr as [-> | ->]; eexists; reflexivity.
  - rewrite append_String. unfold scan_number.
    assert (Ht : take_digits (String c (ds ++ String "." (frac ++ rest)))
                 = (String c ds, String "." (frac ++ rest))).
    { rewrite <- append_String. apply take_digits_app; [|reflexivity].
      cbn [all_digits]. rewrite Hds.
      cbn in Hc. decompose [or] Hc; subst; try reflexivity; contradiction. }
    cbn in Hc. decompose [or] Hc; try contradiction; subst c;
      cbv beta iota; rewrite Ht; cbv beta iota; rewrite Hf, Ef; cbv beta iota;
      destruct Hr as [-> | ->]; eexists; reflexivity.
Qed.

Lemma float_repr_normal (x : float) :
  normal x -> exists j d, float_repr x = fixed_repr j d.
Proof.
  destruct x as [| | |[|] m e]; try contradiction. intros _.
  unfold float_repr. destruct (shortest_decimal 17 0 m e) as [j d].
  exists j, d. apply append_nil_l.
Qed.

(** *** Strings *)

(** The scanner undoes the escape of each character. *)
Lemma scan_string_escape_char (c : ascii) (t : string) :
  scan_string (escape_char c ++ t)
  = match scan_string t with
    | Some (body, rest) => Some (String c body, rest)
    | None => None
    end.
Proof.
  destruct c as [[|] [|] [|] [|] [|] [|] [|] [|]]; reflexivity.
Qed.

Lemma scan_string_escape_chars (s rest : string) :
  scan_string (escape_chars s ++ String dquote rest) = Some (s, rest).
Proof.
  induction s as [|c s IH]; [reflexivity|].
  cbn [escape_chars]. rewrite append_assoc, scan_string_escape_char, IH.
  reflexivity.
Qed.

Lemma encoded_string_eq (s rest : string) :
  py_encode_basestring_ascii s ++ rest
  = String dquote (escape_chars s ++ String dquote rest).
Proof.
  unfold py_encode_basestring_ascii. rewrite append_String, append_assoc.
  reflexivity.
Qed.

(** *** White space *)

Lemma skip_ws_spaces (k : nat) (s : string) : skip_ws (spaces k ++ s) = skip_ws s.
Proof. induction k as [|k IH]; [reflexivity|exact IH]. Qed.

Lemma skip_ws_newline_indent (indent level : nat) (s : string) :
  skip_ws (newline_indent indent level ++ s) = skip_ws s.
Proof.
  unfold newline_indent, nl. rewrite append_assoc, append_String, append_nil_l.
  cbn [skip_ws]. change (is_ws newline) with true. cbv iota.
  apply skip_ws_spaces.
Qed.

(** A text that begins with a character other than white space. *)
Definition solid (s : string) : Prop :=
  exists c t, s = String c t /\ is_ws c = false.

Lemma skip_ws_solid (s : string) : solid s -> skip_ws s = s.
Proof. intros (c & t & -> & Hc). cbn [skip_ws]. rewrite Hc. reflexivity. Qed.

Lemma solid_app (s t : string) : solid s -> solid (s ++ t).
Proof.
  intros (c & s' & -> & Hc). exists c, (s' ++ t). split; [reflexivity|exact Hc].
Qed.

(** *** Scalars *)

(** What [json.load] gives back for a value of a record: a value of the
    same type, and the same value for an [int] and a [str]. *)
Definition read_back (v : value) (o : pyobj) : Prop :=
  match v, o with
  | VInt z, PInt z' => z' = z
  | VFloat _, PFloat _ => True
  | VStr s, PStr s' => s' = s
  | _, _ => False
  end.

Lemma scan_value_digit (depth : nat) (c : ascii) (t : string) :
  In c ("0"%char :: nonzero_digits) ->
  scan_value (S depth) (String c t) = scan_number (String c t).
Proof.
  intros Hc. cbn in Hc. decompose [or] Hc; try contradiction; subst c; reflexivity.
Qed.

Lemma scan_value_minus (depth : nat) (c : ascii) (t : string) :
  In c ("0"%char :: nonzero_digits) ->
  scan_value (S depth) (String "-" (String c t)) = scan_number (String "-" (String c t)).
Proof.
  intros Hc. cbn in Hc. decompose [or] Hc; try contradiction; subst c; reflexivity.
Qed.

Lemma str_of_N_head (n : N) :
  exists c t, str_of_N n = String c t /\ In c ("0"%char :: nonzero_digits).
Proof.
  destruct (str_of_N_cases n) as [[_ ->]|(c & ds & -> & Hc & _)].
  - eexists _, _. split; [reflexivity|left; reflexivity].
  - exists c, ds. split; [reflexivity|right; exact Hc].
Qed.

Lemma solid_digit (c : ascii) (t : string) :
  In c ("0"%char :: nonzero_digits) -> solid (String c t).
Proof.
  intros Hc. exists c, t. split; [reflexivity|].
  cbn in Hc. decompose [or] Hc; try contradiction; subst c; reflexivity.
Qed.

Lemma scan_value_int (depth : nat) (z : Z) (rest : string) :
  ends_value rest ->
  scan_value (S depth) (str_of_Z z ++ rest) = Some (PInt z, rest).
Proof.
  intros Hr. rewrite <- (scan_number_int z rest Hr).
  destruct (str_of_Z_signed z) as [-> _].
  destruct (str_of_N_head (Z.abs_N z)) as (c & t & -> & Hc).
  destruct (z <? 0); unfold sign_text;
    rewrite ?append_String, ?append_nil_l.
  - apply scan_value_minus, Hc.
  - apply scan_value_digit, Hc.
Qed.

Lemma solid_str_of_Z (z : Z) : solid (str_of_Z z).
Proof.
  destruct (str_of_Z_signed z) as [-> _].
  destruct (z <? 0); unfold sign_text.
  - eexists _, _. split; [reflexivity|reflexivity].
  - rewrite append_nil_l. destruct (str_of_N_head (Z.abs_N z)) as (c & t & -> & Hc).
    apply solid_digit, Hc.
Qed.

Lemma scan_value_float (depth : nat) (x : float) (rest : string) :
  normal x -> ends_value rest ->
  exists y, scan_value (S depth) (float_repr x ++ rest) = Some (PFloat y, rest).
Proof.
  intros Hx Hr. destruct (float_repr_normal x Hx) as (j & d & ->).
  destruct (scan_number_fixed j d rest Hr) as (y & Hy). exists y. rewrite <- Hy.
  unfold fixed_repr. destruct (str_of_N_head (Z.to_N (j / 10 ^ d))) as (c & t & -> & Hc).
  rewrite !append_String. apply scan_value_digit, Hc.
Qed.

Lemma solid_float_repr (x : float) : normal x -> solid (float_repr x).
Proof.
  intros Hx. destruct (float_repr_normal x Hx) as (j & d & ->).
  unfold fixed_repr. destruct (str_of_N_head (Z.to_N (j / 10 ^ d))) as (c & t & -> & Hc).
  rewrite append_String. apply solid_digit, Hc.
Qed.

Lemma scan_value_str (depth : nat) (s rest : string) :
  scan_value (S depth) (py_encode_basestring_ascii s ++ rest) = Some (PStr s, rest).
Proof.
  rewrite encoded_string_eq. cbn [scan_value].
  change (Ascii.eqb dquote dquote) with true. cbv iota.
  rewrite scan_string_escape_chars. reflexivity.
Qed.

Lemma solid_encoded_string (s : string) : solid (py_encode_basestring_ascii s).
Proof. eexists _, _. split; reflexivity. Qed.

Lemma scan_value_scalar (depth : nat) (v : value) (rest : string) :
  plain v -> ends_value rest ->
  exists o, scan_value (S depth) (json_text v ++ rest) = Some (o, rest)
            /\ read_back v o.
Proof.
  intros Hv Hr. destruct v as [z|x|s]; cbn [json_text plain] in *.
  - exists (PInt z). split; [apply scan_value_int, Hr|reflexivity].
  - destruct (scan_value_float depth x rest Hv Hr) as (y & Hy).
    exists (PFloat y). split; [exact Hy|exact I].
  - exists (PStr s). split; [apply scan_value_str|reflexivity].
Qed.

Lemma solid_json_text (v : value) : plain v -> solid (json_text v).
Proof.
  destruct v as [z|x|s]; cbn [json_text plain]; intros Hv.
  - apply solid_str_of_Z.
  - apply solid_float_repr, Hv.
  - apply solid_encoded_string.
Qed.

(** *** Objects *)

Lemma scan_members_step (scan : string -> option (pyobj * string)) (fuel : nat)
    (k : string) (v : value) (o : pyobj) (t : string) :
  scan (json_text v ++ t) = Some (o, t) -> solid (json_text v) ->
  scan_members scan (S fuel) (member_text (k, v) ++ t)
  = match skip_ws t with
    | String "," rest =>
        match scan_members scan fuel (skip_ws rest) with
        | Some (kvs, rest') => Some ((k, o) :: kvs, rest')
        | None => None
        end
    | String "}" rest => Some ([(k, o)], rest)
    | _ => None
    end.
Proof.
  intros Hv Hs. unfold member_text. cbn [fst snd].
  rewrite !append_assoc, encoded_string_eq. cbn [scan_members].
  change (Ascii.eqb dquote dquote) with true. cbv iota.
  rewrite scan_string_escape_chars.
  rewrite !append_String, append_nil_l. cbn [skip_ws].
  change (is_ws ":") with false. cbv iota.
  change (skip_ws (String " " (json_text v ++ t))) with (skip_ws (json_text v ++ t)).
  rewrite (skip_ws_solid (json_text v ++ t)) by (apply solid_app, Hs).
  rewrite Hv. reflexivity.
Qed.

Lemma ends_value_comma (t : string) : ends_value ("," ++ t).
Proof. exists t. left. reflexivity. Qed.

Lemma ends_value_newline_indent (indent level : nat) (t : string) :
  ends_value (newline_indent indent level ++ t).
Proof. eexists. right. unfold newline_indent, nl. rewrite append_assoc. reflexivity. Qed.

Lemma solid_member_text (kv : string * value) : solid (member_text kv).
Proof. eexists _, _. split; reflexivity. Qed.

Lemma solid_join (sep : string) (l : list string) :
  l <> [] -> Forall solid l -> solid (join sep l).
Proof.
  intros Hne Hall. destruct Hall as [|x l Hx Hl]; [congruence|].
  destruct l as [|y l]; [exact Hx|].
  rewrite join_cons by discriminate. apply solid_app, Hx.
Qed.

(** The members of an object, as the encoder lays them out, read back in
    the same order. *)
Lemma scan_members_text (depth k1 k0 : nat) (d : dict) (rest : string) :
  d <> [] -> Forall plain (values d) ->
  forall fuel, (length d <= fuel)%nat ->
  exists kvs,
    scan_members (scan_value (S depth)) fuel
      (join ("," ++ newline_indent 4 k1) (map member_text d)
       ++ newline_indent 4 k0 ++ "}" ++ rest)
    = Some (kvs, rest)
    /\ map fst kvs = keys d
    /\ Forall2 read_back (values d) (map snd kvs).
Proof.
  intros Hne Hall. induction d as [|[k v] d IH]; [congruence|].
  intros fuel Hfuel. destruct fuel as [|fuel]; [cbn in Hfuel; lia|].
  cbn [length] in Hfuel. apply le_S_n in Hfuel.
  unfold values in Hall. cbn [map snd] in Hall.
  apply Forall_cons in Hall as [Hv Hall].
  destruct d as [|kv d].
  - clear IH. cbn [map]. change (join _ [member_text (k, v)]) with (member_text (k, v)).
    set (t := newline_indent 4 k0 ++ "}" ++ rest).
    destruct (scan_value_scalar depth v t Hv) as (o & Ho & Hrb);
      [apply ends_value_newline_indent|].
    rewrite (scan_members_step _ fuel k v o t Ho (solid_json_text v Hv)).
    subst t. rewrite skip_ws_newline_indent.
    exists [(k, o)]. split; [reflexivity|]. split; [reflexivity|].
    constructor; [exact Hrb|constructor].
  - cbn [map]. rewrite join_cons by discriminate.
    rewrite !append_assoc.
    set (t := "," ++ _).
    destruct (scan_value_scalar depth v t Hv) as (o & Ho & Hrb);
      [apply ends_value_comma|].
    rewrite (scan_members_step _ fuel k v o t Ho (solid_json_text v Hv)).
    subst t. rewrite append_String, append_nil_l. cbn [skip_ws].
    change (is_ws ",") with false. cbv iota.
    rewrite skip_ws_newline_indent.
    destruct (IH ltac:(discriminate) Hall fuel Hfuel) as (kvs & E & Hk & Hvs).
    cbn [map] in E. rewrite <- !append_assoc in E |- *.
    rewrite skip_ws_solid.
    2:{ rewrite !append_assoc. apply solid_app, solid_join; [discriminate|].
        constructor; [apply solid_member_text|].
        apply List.Forall_forall. intros x Hx. apply in_map_iff in Hx as (y & <- & _).
        apply solid_member_text. }
    rewrite !append_assoc in E |- *. rewrite E.
    exists ((k, o) :: kvs). split; [reflexivity|].
    split; [cbn [map fst keys]; unfold keys in Hk; rewrite Hk; reflexivity|].
    cbn [map snd values]. constructor; [exact Hrb|exact Hvs].
Qed.

Lemma length_append (a b : string) :
  String.length (a ++ b) = (String.length a + String.length b)%nat.
Proof.
  induction a as [|c a IH]; [reflexivity|].
  rewrite append_String. cbn [String.length]. rewrite IH. reflexivity.
Qed.

Lemma length_solid (s : string) : solid s -> (1 <= String.length s)%nat.
Proof. intros (c & t & -> & _). cbn [String.length]. lia. Qed.

(** A joined text has at least as many characters as it has parts. *)
Lemma length_join (sep : string) (l : list string) :
  Forall solid l -> (length l <= String.length (join sep l))%nat.
Proof.
  induction 1 as [|x l Hx Hl IH]; [cbn; lia|].
  destruct l as [|y l].
  - apply length_solid in Hx. cbn [length]. change (join sep [x]) with x. lia.
  - rewrite join_cons by discriminate. rewrite !length_append.
    apply length_solid in Hx. cbn [length] in *. lia.
Qed.

(** Keys that are pairwise different. *)
Fixpoint distinct (ks : list string) : bool :=
  match ks with
  | [] => true
  | k :: ks' => negb (existsb (String.eqb k) ks') && distinct ks'
  end.

Lemma dict_set_fresh {V} (k : string) (v : V) (d : list (string * V)) :
  existsb (String.eqb k) (map fst d) = false -> dict_set k v d = (d ++ [(k, v)])%list.
Proof.
  induction d as [|[k' v'] d IH]; [reflexivity|].
  cbn [map fst existsb dict_set]. intros H.
  apply orb_false_iff in H as [Hk Hd]. rewrite Hk, (IH Hd). reflexivity.
Qed.

Lemma distinct_middle (a b : list string) (k : string) :
  distinct (a ++ k :: b) = true -> existsb (String.eqb k) a = false.
Proof.
  induction a as [|x a IH]; [reflexivity|].
  cbn [app distinct existsb]. intros H.
  apply andb_true_iff in H as [Hx Ha].
  apply negb_true_iff in Hx. rewrite existsb_app in Hx.
  apply orb_false_iff in Hx as [_ Hx]. cbn [existsb] in Hx.
  apply orb_false_iff in Hx as [Hx _].
  rewrite String.eqb_sym, Hx, (IH Ha). reflexivity.
Qed.

(** Storing members with pairwise different keys one by one keeps them all,
    in their order. *)
Lemma fold_dict_set {V} (kvs : list (string * V)) :
  forall acc,
    distinct (map fst (acc ++ kvs)) = true ->
    fold_left (fun d kv => dict_set (fst kv) (snd kv) d) kvs acc = (acc ++ kvs)%list.
Proof.
  induction kvs as [|[k v] kvs IH]; intros acc H.
  - rewrite app_nil_r. reflexivity.
  - cbn [fold_left fst snd]. rewrite dict_set_fresh.
    + rewrite IH; rewrite <- app_assoc; [reflexivity|exact H].
    + rewrite map_app in H. cbn [map fst] in H.
      eapply distinct_middle, H.
Qed.

Lemma members_head (sep : string) (d : dict) (t : string) :
  d <> [] -> exists u, join sep (map member_text d) ++ t = String dquote u.
Proof.
  intros Hne. destruct d as [|[k v] d]; [congruence|].
  destruct d as [|kv d]; cbn [map].
  - change (join sep [member_text (k, v)]) with (member_text (k, v)).
    unfold member_text. rewrite append_assoc, encoded_string_eq. eauto.
  - rewrite join_cons by discriminate.
    unfold member_text at 1. rewrite !append_assoc, encoded_string_eq. eauto.
Qed.

Lemma scan_value_brace (depth : nat) (s u : string) :
  skip_ws s = String dquote u ->
  scan_value (S depth) (String "{" s)
  = match scan_members (scan_value depth) (String.length (String dquote u))
            (String dquote u) with
    | Some (kvs, rest) =>
        Some (PDict (fold_left (fun d kv => dict_set (fst kv) (snd kv) d) kvs []), rest)
    | None => None
    end.
Proof.
  intros H. cbn [scan_value]. change (Ascii.eqb "{" dquote) with false.
  change (Ascii.eqb "{" "[") with false. change (Ascii.eqb "{" "{") with true.
  cbv match. rewrite H. reflexivity.
Qed.

Lemma scan_value_bracket (depth : nat) (s u : string) :
  skip_ws s = String "{" u ->
  scan_value (S depth) (String "[" s)
  = match scan_items (scan_value depth) (String.length (String "{" u))
            (String "{" u) with
    | Some (vs, rest) => Some (PList vs, rest)
    | None => None
    end.
Proof.
  intros H. cbn [scan_value]. change (Ascii.eqb "[" dquote) with false.
  change (Ascii.eqb "[" "[") with true.
  cbv match. rewrite H. reflexivity.
Qed.

(** An object read back from the encoder's text of a record: the same
    keys in the same order, each with a value of the same type. *)
Definition dict_read_back (d : dict) (o : pyobj) : Prop :=
  exists kvs,
    o = PDict kvs /\ map fst kvs = keys d
    /\ Forall2 read_back (values d) (map snd kvs).

Lemma scan_value_dict (depth level : nat) (d : dict) (rest : string) :
  d <> [] -> Forall plain (values d) -> distinct (keys d) = true ->
  exists o,
    scan_value (S (S depth)) (encode 4 level (obj_of_dict d) ++ rest) = Some (o, rest)
    /\ dict_read_back d o.
Proof.
  intros Hne Hall Hkeys. rewrite encode_dict by assumption.
  rewrite !append_assoc. rewrite append_String, append_nil_l.
  set (text := join _ _ ++ _).
  destruct (scan_members_text depth (S level) level d rest Hne Hall
              (String.length text)) as (kvs & E & Hk & Hv).
  { subst text. rewrite length_append.
    pose proof (length_join ("," ++ newline_indent 4 (S level)) (map member_text d)) as Hl.
    rewrite length_map in Hl.
    assert (Hs : Forall solid (map member_text d)).
    { apply List.Forall_forall. intros x Hx. apply in_map_iff in Hx as (y & <- & _).
      apply solid_member_text. }
    specialize (Hl Hs). lia. }
  fold text in E.
  assert (Hhead : exists u, text = String dquote u) by (apply members_head, Hne).
  exists (PDict kvs). split; [|exists kvs; auto].
  assert (Hskip : skip_ws (newline_indent 4 (S level) ++ text) = text).
  { rewrite skip_ws_newline_indent. apply skip_ws_solid.
    destruct Hhead as (u & ->). eexists _, _. split; reflexivity. }
  destruct Hhead as (u & Hu).
  rewrite (scan_value_brace _ _ u (eq_trans Hskip Hu)). rewrite <- Hu, E.
  rewrite fold_dict_set; [reflexivity|]. cbn [app]. rewrite Hk. exact Hkeys.
Qed.

(** *** Arrays *)

(** A record the encoder and the scanner agree on: it has members, its
    floats are positive and normal, and its keys are pairwise different. *)
Definition object_ok (d : dict) : Prop :=
  d <> [] /\ Forall plain (values d) /\ distinct (keys d) = true.

Lemma encode_dict_head (level : nat) (d : dict) :
  object_ok d -> exists u, encode 4 level (obj_of_dict d) = String "{" u.
Proof.
  intros (Hne & Hall & _). rewrite encode_dict by assumption.
  rewrite append_String. eauto.
Qed.

Lemma solid_encode_dict (level : nat) (d : dict) :
  object_ok d -> solid (encode 4 level (obj_of_dict d)).
Proof.
  intros Hd. destruct (encode_dict_head level d Hd) as (u & ->).
  eexists _, _. split; reflexivity.
Qed.

Lemma scan_items_step (value : string -> option (pyobj * string)) (fuel : nat)
    (o : pyobj) (text t : string) :
  value (text ++ t) = Some (o, t) ->
  scan_items value (S fuel) (text ++ t)
  = match skip_ws t with
    | String "," rest =>
        match scan_items value fuel (skip_ws rest) with
        | Some (vs, rest') => Some (o :: vs, rest')
        | None => None
        end
    | String "]" rest => Some ([o], rest)
    | _ => None
    end.
Proof. intros H. cbn [scan_items]. rewrite H. reflexivity. Qed.

Definition object_texts (data : list dict) : list string :=
  map (encode 4 1) (map obj_of_dict data).

Lemma solid_object_texts (data : list dict) :
  Forall object_ok data -> Forall solid (object_texts data).
Proof.
  intros H. unfold object_texts. rewrite map_map.
  apply List.Forall_forall. intros x Hx. apply in_map_iff in Hx as (d & <- & Hd).
  rewrite List.Forall_forall in H. apply solid_encode_dict, H, Hd.
Qed.

(** The items of the array, as the encoder lays them out, read back in
    their order. *)
Lemma scan_items_text (depth : nat) (data : list dict) (rest : string) :
  data <> [] -> Forall object_ok data ->
  forall fuel, (length data <= fuel)%nat ->
  exists os,
    scan_items (scan_value (S (S depth))) fuel
      (join ("," ++ newline_indent 4 1) (object_texts data)
       ++ newline_indent 4 0 ++ "]" ++ rest)
    = Some (os, rest)
    /\ Forall2 dict_read_back data os.
Proof.
  intros Hne Hall. induction data as [|d data IH]; [congruence|].
  intros fuel Hfuel. destruct fuel as [|fuel]; [cbn in Hfuel; lia|].
  cbn [length] in Hfuel. apply le_S_n in Hfuel.
  apply Forall_cons in Hall as [Hd Hall].
  pose proof Hd as (Hdne & Hdv & Hdk).
  destruct data as [|d' data].
  - clear IH. unfold object_texts. cbn [map].
    change (join _ [encode 4 1 (obj_of_dict d)]) with (encode 4 1 (obj_of_dict d)).
    set (t := newline_indent 4 0 ++ "]" ++ rest).
    destruct (scan_value_dict depth 1 d t Hdne Hdv Hdk) as (o & Ho & Hrb).
    rewrite (scan_items_step _ fuel o _ t Ho).
    subst t. rewrite skip_ws_newline_indent.
    exists [o]. split; [reflexivity|]. constructor; [exact Hrb|constructor].
  - unfold object_texts in *. cbn [map] in *. rewrite join_cons by discriminate.
    rewrite !append_assoc.
    set (t := "," ++ _).
    destruct (scan_value_dict depth 1 d t Hdne Hdv Hdk) as (o & Ho & Hrb).
    rewrite (scan_items_step _ fuel o _ t Ho).
    subst t. rewrite append_String, append_nil_l. cbn [skip_ws].
    change (is_ws ",") with false. cbv match.
    rewrite skip_ws_newline_indent.
    destruct (IH ltac:(discriminate) Hall fuel Hfuel) as (os & E & Hos).
    rewrite skip_ws_solid.
    2:{ apply solid_app.
        apply (solid_join _ (object_texts (d' :: data))); [discriminate|].
        apply solid_object_texts, Hall. }
    rewrite E. exists (o :: os). split; [reflexivity|].
    constructor; [exact Hrb|exact Hos].
Qed.

(** *** The whole file *)

Lemma json_loads_data (data : list dict) :
  Forall object_ok data ->
  exists os,
    json_loads (json_dumps_indent4 (obj_of_data data)) = Some (PList os)
    /\ Forall2 dict_read_back data os.
Proof.
  intros Hall. destruct data as [|d data].
  - exists []. split; [reflexivity|constructor].
  - unfold json_dumps_indent4, obj_of_data. cbn [map encode].
    change (encode 4 1 (obj_of_dict d) :: map (encode 4 1) (map obj_of_dict data))
      with (object_texts (d :: data)).
    set (text := join ("," ++ newline_indent 4 1) (object_texts (d :: data))
                 ++ newline_indent 4 0 ++ "]" ++ "").
    assert (Hsolid : solid text).
    { apply solid_app, solid_join; [discriminate|apply solid_object_texts, Hall]. }
    assert (Hhead : exists u, text = String "{" u).
    { subst text. unfold object_texts. cbn [map].
      apply Forall_cons in Hall as [Hd _].
      destruct (encode_dict_head 1 d Hd) as (u & Eu).
      destruct data as [|d' data]; cbn [map].
      - change (join _ [encode 4 1 (obj_of_dict d)]) with (encode 4 1 (obj_of_dict d)).
        rewrite Eu, append_String. eauto.
      - rewrite join_cons by discriminate. rewrite Eu, !append_String. eauto. }
    destruct (scan_items_text 997 (d :: data) "" ltac:(discriminate) Hall
                (String.length text)) as (os & E & Hos).
    { subst text. rewrite length_append.
      pose proof (length_join ("," ++ newline_indent 4 1) (object_texts (d :: data))
                    (solid_object_texts _ Hall)) as Hl.
      unfold object_texts in Hl at 1. rewrite !length_map in Hl. lia. }
    fold text in E. exists os. split; [|exact Hos].
    unfold json_loads.
    assert (Hall_text :
      "[" ++ newline_indent 4 1 ++ join ("," ++ newline_indent 4 1) (object_texts (d :: data))
      ++ newline_indent 4 0 ++ "]" = String "[" (newline_indent 4 1 ++ text)).
    { subst text. rewrite append_nil_r. reflexivity. }
    rewrite Hall_text. clear Hall_text.
    change (skip_ws (String "[" (newline_indent 4 1 ++ text)))
      with (String "[" (newline_indent 4 1 ++ text)).
    destruct Hhead as (u & Hu).
    assert (Hskip : skip_ws (newline_indent 4 1 ++ text) = String "{" u).
    { rewrite skip_ws_newline_indent, (skip_ws_solid text Hsolid). exact Hu. }
    change recursion_limit with (S (S (S 997))).
    rewrite (scan_value_bracket _ _ u Hskip). rewrite <- Hu, E. reflexivity.
Qed.

(** *** Types *)

Lemma read_back_type (v : value) (o : pyobj) :
  read_back v o -> type_of o = value_type v.
Proof. destruct v, o; cbn; intros H; try contradiction; reflexivity. Qed.

Lemma read_back_types (vs : list value) (os : list pyobj) :
  Forall2 read_back vs os -> map type_of os = map value_type vs.
Proof.
  induction 1 as [|v o vs os H _ IH]; [reflexivity|].
  cbn [map]. rewrite IH, (read_back_type v o H). reflexivity.
Qed.

Section RecordsReadBack.
Context {R F : Type} {HR : RandomGen R} {HF : FakerGen F}.

Lemma record_ok_object_ok (i : nat) (d : dict) : record_ok i d -> object_ok d.
Proof.
intros H. destruct (record_ok_plain i d H) as [Hne Hall].
split; [exact Hne|]. split; [exact Hall|].
rewrite (record_ok_keys i d H). reflexivity.
Qed.

End RecordsReadBack.
(* ===================================================================== *)
(** ** Reading numbers back *)

(** *** The value of a string of digits *)

(** The number read from a string of digits, left to right, after [acc]. *)
Fixpoint digits_from (acc : N) (s : string) : N :=
  match s with
  | EmptyString => acc
  | String c s' => digits_from (10 * acc + (N_of_ascii c - 48)) s'
  end.

Fixpoint uint_from (acc : N) (u : Decimal.uint) : N :=
  match u with
  | Decimal.Nil => acc
  | Decimal.D0 l => uint_from (10 * acc) l
  | Decimal.D1 l => uint_from (10 * acc + 1) l
  | Decimal.D2 l => uint_from (10 * acc + 2) l
  | Decimal.D3 l => uint_from (10 * acc + 3) l
  | Decimal.D4 l => uint_from (10 * acc + 4) l
  | Decimal.D5 l => uint_from (10 * acc + 5) l
  | Decimal.D6 l => uint_from (10 * acc + 6) l
  | Decimal.D7 l => uint_from (10 * acc + 7) l
  | Decimal.D8 l => uint_from (10 * acc + 8) l
  | Decimal.D9 l => uint_from (10 * acc + 9) l
  end.

Lemma of_uint_acc_from (u : Decimal.uint) :
  forall p, Npos (Pos.of_uint_acc u p) = uint_from (Npos p) u.
Proof.
  induction u; intros p; cbn [Pos.of_uint_acc uint_from]; [reflexivity|..];
    rewrite IHu; f_equal; lia.
Qed.

Lemma of_uint_from (u : Decimal.uint) : N.of_uint u = uint_from 0 u.
Proof.
  unfold N.of_uint.
  induction u; cbn [Pos.of_uint uint_from]; [reflexivity|exact IHu|..];
    apply of_uint_acc_from.
Qed.

Lemma uint_of_digits (s : string) :
  all_digits s = true ->
  exists u, NilEmpty.uint_of_string s = Some u
            /\ forall acc, uint_from acc u = digits_from acc s.
Proof.
  induction s as [|c s IH]; intros H.
  - exists Decimal.Nil. split; reflexivity.
  - cbn [all_digits] in H. apply andb_true_iff in H as [Hc Hs].
    destruct (IH Hs) as (u & Eu & Hu).
    cbn [NilEmpty.uint_of_string]. rewrite Eu.
    destruct c as [[|] [|] [|] [|] [|] [|] [|] [|]]; try discriminate Hc;
      (eexists; split; [reflexivity|]); intros acc;
      cbn [uint_from digits_from]; rewrite Hu; f_equal; cbn; lia.
Qed.

Lemma digits_value_from (s : string) :
  all_digits s = true -> digits_value s = digits_from 0 s.
Proof.
  intros H. destruct s as [|c s]; [reflexivity|].
  destruct (uint_of_digits _ H) as (u & Eu & Hu).
  unfold digits_value, NilZero.uint_of_string. rewrite Eu, of_uint_from. apply Hu.
Qed.

Lemma digits_from_app (a b : string) :
  forall acc, digits_from acc (a ++ b) = digits_from (digits_from acc a) b.
Proof.
  induction a as [|c a IH]; intros acc; [reflexivity|].
  rewrite append_String. cbn [digits_from]. apply IH.
Qed.

Lemma digits_from_acc (s : string) :
  forall acc,
    digits_from acc s = (acc * 10 ^ N.of_nat (String.length s) + digits_from 0 s)%N.
Proof.
  induction s as [|c s IH]; intros acc.
  - cbn. lia.
  - cbn [digits_from String.length]. rewrite (IH (10 * acc + _)%N), (IH (10 * 0 + _)%N).
    rewrite Nat2N.inj_succ, N.pow_succ_r'. lia.
Qed.

Lemma digits_from_str_of_N (n : N) : digits_from 0 (str_of_N n) = n.
Proof.
  rewrite <- digits_value_from by apply all_digits_str_of_N.
  apply digits_value_str_of_N.
Qed.

Lemma digits_from_zeros (k : nat) (s : string) :
  digits_from 0 (zeros k ++ s) = digits_from 0 s.
Proof. induction k as [|k IH]; [reflexivity|exact IH]. Qed.

(** A number below [10^k] has at most [k] digits ([k >= 1]). *)
Lemma length_str_of_N (n : N) (k : nat) :
  (1 <= k)%nat -> (n < 10 ^ N.of_nat k)%N -> (String.length (str_of_N n) <= k)%nat.
Proof.
  intros Hk Hn. pose proof (digits_from_str_of_N n) as Hv.
  destruct (str_of_N_cases n) as [[_ ->]|(c & ds & E & Hc & _)]; [exact Hk|].
  rewrite E in Hv |- *. cbn [digits_from String.length] in *.
  rewrite digits_from_acc in Hv.
  assert (H1 : (1 <= 10 * 0 + (N_of_ascii c - 48))%N).
  { cbn in Hc. decompose [or] Hc; try contradiction; subst c; cbn; lia. }
  assert (Hpow : (10 ^ N.of_nat (String.length ds) < 10 ^ N.of_nat k)%N) by nia.
  apply N.pow_lt_mono_r_iff in Hpow; lia.
Qed.

Lemma length_zeros (k : nat) : String.length (zeros k) = k.
Proof.
  induction k as [|k IH]; [reflexivity|].
  cbn [zeros]. rewrite append_String, append_nil_l. cbn [String.length].
  rewrite IH. reflexivity.
Qed.

(** [zfill] gives exactly [k] digits to a number below [10^k], and they
    read back as the number. *)
Lemma zfill_exact (k : nat) (n : N) :
  (1 <= k)%nat -> (n < 10 ^ N.of_nat k)%N ->
  String.length (zfill k n) = k /\ digits_from 0 (zfill k n) = n.
Proof.
  intros Hk Hn. unfold zfill. cbv zeta. split.
  - pose proof (length_str_of_N n k Hk Hn).
    rewrite length_append, length_zeros. lia.
  - rewrite digits_from_zeros. apply digits_from_str_of_N.
Qed.

(** [f] holds on the [p] integers from [start] on. *)
Fixpoint all_below (p : positive) (f : Z -> bool) (start : Z) : bool :=
  match p with
  | xH => f start
  | xO q => all_below q f start && all_below q f (start + Zpos q)
  | xI q => f start && all_below q f (start + 1) && all_below q f (start + 1 + Zpos q)
  end.

Lemma all_below_spec (p : positive) (f : Z -> bool) :
  forall start, all_below p f start = true ->
  forall i, start <= i < start + Zpos p -> f i = true.
Proof.
  induction p as [q IH|q IH|]; intros start H i Hi; cbn [all_below] in H.
  - apply andb_true_iff in H as [H H2]. apply andb_true_iff in H as [H0 H1].
    destruct (Z.eq_dec i start) as [->|Hne]; [exact H0|].
    destruct (Z.lt_ge_cases i (start + 1 + Zpos q)).
    + apply (IH _ H1). lia.
    + apply (IH _ H2). lia.
  - apply andb_true_iff in H as [H1 H2].
    destruct (Z.lt_ge_cases i (start + Zpos q)).
    + apply (IH _ H1). lia.
    + apply (IH _ H2). lia.
  - replace i with start by lia. exact H.
Qed.


(** *** Reading a float back *)

Lemma float_eqb_eq (a b : float) : normal b -> float_eqb a b = true -> a = b.
Proof.
  destruct b as [| | |[|] m2 e2]; try contradiction. intros _.
  unfold float_eqb, SFeqb.
  destruct a as [[|]|[|]| |[|] m1 e1]; cbn [SFcompare]; try discriminate.
  destruct (Z.compare_spec e1 e2) as [->|_|_]; try discriminate.
  change (PosDef.Pos.compare_cont Eq m1 m2) with (Pos.compare m1 m2).
  destruct (Pos.compare_spec m1 m2) as [->|_|_]; try discriminate. reflexivity.
Qed.

(** The search for the shortest decimal stops at a decimal that reads back
    as the float, at the latest where one is known to. *)
Lemma shortest_decimal_found (m : positive) (e D : Z) :
  forall fuel d,
    d <= D -> D - d <= Z.of_nat fuel ->
    roundtrips (scaled_round m e (10 ^ D)) D (S754_finite false m e) = true ->
    roundtrips (fst (shortest_decimal fuel d m e)) (snd (shortest_decimal fuel d m e))
      (S754_finite false m e) = true
    /\ d <= snd (shortest_decimal fuel d m e) <= D
    /\ fst (shortest_decimal fuel d m e)
       = scaled_round m e (10 ^ snd (shortest_decimal fuel d m e)).
Proof.
  induction fuel as [|fuel IH]; intros d HdD Hfuel Hrt.
  - cbn [shortest_decimal fst snd]. replace d with D by lia. auto with zarith.
  - cbn [shortest_decimal].
    destruct (roundtrips (scaled_round m e (10 ^ d)) d (S754_finite false m e)) eqn:Ed.
    + cbn [fst snd]. split; [exact Ed|]. split; [lia|reflexivity].
    + assert (d <> D) by (intros ->; congruence).
      destruct (IH (d + 1) ltac:(lia) ltac:(lia) Hrt) as (H1 & H2 & H3).
      split; [exact H1|]. split; [lia|exact H3].
Qed.

(** Reading [n0] back gives what reading [n] gives, for the whole numbers
    the amounts can take. *)
Definition whole_ok (j : Z) : bool :=
  match j with
  | Zpos p => float_eqb (float_of_ratio (p * 10) 10) (float_of_ratio p 1)
  | _ => true
  end.

Lemma whole_ok_all : all_below 10000 whole_ok 1 = true.
Proof. vm_cast_no_check (@eq_refl bool true). Qed.

(** What may follow a number: the end of the text, or what follows a value
    in the encoder's output. *)
Definition ends_number (rest : string) : Prop := rest = "" \/ ends_value rest.

Lemma take_digits_ends (ds rest : string) :
  all_digits ds = true -> ends_number rest ->
  take_digits (ds ++ rest) = (ds, rest).
Proof.
  intros Hds [-> | (r & [-> | ->])]; try (apply take_digits_app; auto).
  rewrite append_nil_r. induction ds as [|c ds IH]; [reflexivity|].
  cbn [all_digits] in Hds. apply andb_true_iff in Hds as [Hc Hds].
  cbn [take_digits]. rewrite Hc, (IH Hds). reflexivity.
Qed.

(** A decimal with an integer part and a fraction reads as the float of
    its digits over the power of ten of the fraction's length. *)
Lemma scan_number_decimal (a : N) (frac rest : string) :
  all_digits frac = true -> frac <> "" -> ends_number rest ->
  scan_number (str_of_N a ++ "." ++ frac ++ rest)
  = Some (PFloat (float_of_decimal false
                    (a * 10 ^ N.of_nat (String.length frac) + digits_from 0 frac)
                    (Z.of_nat (String.length frac))), rest).
Proof.
  intros Hfd Hne Hr.
  assert (Hval : digits_value (str_of_N a ++ frac)
                 = (a * 10 ^ N.of_nat (String.length frac) + digits_from 0 frac)%N).
  { rewrite digits_value_from
      by (apply all_digits_app; [apply all_digits_str_of_N|exact Hfd]).
    rewrite digits_from_app, digits_from_str_of_N. apply digits_from_acc. }
  rewrite <- Hval, <- (Z.sub_0_r (Z.of_nat (String.length frac))). clear Hval.
  destruct frac as [|f fs]; [congruence|]. clear Hne.
  set (frac := String f fs) in *.
  pose proof (take_digits_ends frac rest Hfd Hr) as Hf.
  rewrite (append_String "."), append_nil_l.
  destruct (str_of_N_cases a) as [[_ ->]|(c & ds & -> & Hc & Hds)].
  - rewrite append_String, append_nil_l. unfold scan_number.
    cbv beta iota. rewrite Hf. subst frac. cbv beta iota.
    destruct Hr as [-> | (r & [-> | ->])]; reflexivity.
  - rewrite append_String. unfold scan_number.
    assert (Ht : take_digits (String c (ds ++ String "." (frac ++ rest)))
                 = (String c ds, String "." (frac ++ rest))).
    { rewrite <- append_String. apply take_digits_app; [|reflexivity].
      cbn [all_digits]. rewrite Hds.
      cbn in Hc. decompose [or] Hc; subst; try reflexivity; contradiction. }
    cbn in Hc. decompose [or] Hc; try contradiction; subst c;
      cbv beta iota; rewrite Ht; cbv beta iota; rewrite Hf; subst frac;
      cbv beta iota; destruct Hr as [-> | (r & [-> | ->])]; reflexivity.
Qed.

(** The text of [j / 10^d] reads back as the float nearest to it; without
    decimals the text ends in [.0] and is read as [10 j / 10]. *)
Lemma scan_number_fixed_exact (pj : positive) (d : Z) (rest : string) :
  0 <= d -> ends_number rest ->
  scan_number (fixed_repr (Zpos pj) d ++ rest)
  = Some (PFloat (if d =? 0 then float_of_ratio (pj * 10) 10
                  else float_of_ratio pj (Z.to_pos (10 ^ d))), rest).
Proof.
  intros Hd Hr. unfold fixed_repr. rewrite !append_assoc.
  assert (Hp : 0 < 10 ^ d) by (apply Z.pow_pos_nonneg; lia).
  pose proof (Z.div_mod (Zpos pj) (10 ^ d) ltac:(lia)) as Hdm.
  pose proof (Z.mod_pos_bound (Zpos pj) (10 ^ d) Hp) as Hmod.
  assert (Hq : 0 <= Zpos pj / 10 ^ d) by (apply Z.div_pos; lia).
  destruct (Z.eqb_spec d 0) as [->|Hd0].
  - rewrite (scan_number_decimal _ "0" rest) by (try reflexivity; try discriminate; exact Hr).
    change (10 ^ 0) with 1 in *. rewrite Z.div_1_r.
    cbn [String.length digits_from]. reflexivity.
  - set (k := Z.to_nat d).
    assert (Hk : (1 <= k)%nat) by (subst k; lia).
    assert (HkZ : Z.of_nat k = d) by (subst k; lia).
    assert (HN : (Z.to_N (Zpos pj mod 10 ^ d) < 10 ^ N.of_nat k)%N).
    { apply N2Z.inj_lt. rewrite N2Z.inj_pow, Z2N.id, nat_N_Z, HkZ by lia. lia. }
    destruct (zfill_exact k _ Hk HN) as [Hlen Hval].
    rewrite scan_number_decimal; [|apply zfill_digits| |exact Hr].
    2:{ intros E. rewrite E in Hlen. cbn in Hlen. lia. }
    rewrite Hlen, Hval, HkZ. do 2 f_equal.
    assert (HJ : (Z.to_N (Zpos pj / 10 ^ d) * 10 ^ N.of_nat k
                  + Z.to_N (Zpos pj mod 10 ^ d))%N = Npos pj).
    { apply N2Z.inj. rewrite N2Z.inj_add, N2Z.inj_mul, N2Z.inj_pow, !Z2N.id, nat_N_Z, HkZ
        by lia. cbn [Z.of_N]. lia. }
    rewrite HJ. unfold float_of_decimal.
    destruct d as [|pd|pd]; try lia. reflexivity.
Qed.

(** The text of an amount or a fee reads back as the same float: for the
    float nearest to [k / 100], from 1.00 to 10000.00. *)
Lemma float_repr_reads_back (k : positive) (rest : string) :
  100 <= Zpos k <= 1000000 -> ends_number rest ->
  scan_number (float_repr (float_of_ratio k 100) ++ rest)
  = Some (PFloat (float_of_ratio k 100), rest).
Proof.
  intros Hk Hr.
  assert (Hk39 : Zpos k < 2 ^ 39) by (change (2 ^ 39) with 549755813888; lia).
  destruct (float_of_ratio_100_spec k Hk39) as (Hn & He & _ & Hhi & Herr).
  specialize (Hhi 10000 ltac:(lia)).
  pose proof (float_eqb_refl _ Hn) as Hrefl.
  pose proof (scaled_pos 210 _ Hn ltac:(lia)) as Hpos.
  destruct (float_of_ratio k 100) as [| | |[|] m e] eqn:Ey; try contradiction.
  cbn [normal exponent scaled] in *.
  assert (Hk' : scaled_round m e (10 ^ 2) = Zpos k).
  { rewrite (scaled_round_scaled 210) by lia. change (10 ^ 2) with 100.
    apply Z.le_antisymm.
    - apply round_half_even_lt_half; lia.
    - apply round_half_even_gt_half; lia. }
  assert (Hrt : roundtrips (scaled_round m e (10 ^ 2)) 2 (S754_finite false m e) = true).
  { rewrite Hk'. cbn [roundtrips]. change (Z.to_pos (10 ^ 2)) with 100%positive.
    rewrite Ey. exact Hrefl. }
  destruct (shortest_decimal_found m e 2 17 0 ltac:(lia) ltac:(cbn; lia) Hrt)
    as (Hfound & Hd & Hj).
  unfold float_repr. destruct (shortest_decimal 17 0 m e) as [j d].
  cbn [fst snd] in Hfound, Hd, Hj. rewrite append_nil_l.
  destruct j as [|pj|pj]; try discriminate Hfound. cbn [roundtrips] in Hfound.
  apply float_eqb_eq in Hfound; [|exact Hn].
  rewrite scan_number_fixed_exact by (try lia; exact Hr).
  destruct (Z.eqb_spec d 0) as [->|Hd0]; do 3 f_equal; [|exact Hfound].
  change (Z.to_pos (10 ^ 0)) with 1%positive in Hfound. rewrite <- Hfound.
  assert (Hb : 1 <= Zpos pj < 1 + 10000).
  { assert (Zpos pj <= 10000); [|lia]. rewrite Hj.
    rewrite (scaled_round_scaled 210) by lia. change (10 ^ 0) with 1.
    apply round_half_even_le; [reflexivity|]. lia. }
  pose proof (all_below_spec _ _ _ whole_ok_all (Zpos pj) Hb) as Hw.
  cbn [whole_ok] in Hw. apply float_eqb_eq; [|exact Hw].
  rewrite Hfound. exact Hn.
Qed.


(* ===================================================================== *)
(** * The claims *)

(** C1. For every count [n] (the script ships [NUM_TRANSACTIONS = 1000]),
    from every state of the random sources, the generator returns normally
    a sequence of exactly [n] records whose [TransactionID] values are, in
    order, 1, 2, ..., n. *)
Theorem C1_transaction_ids :
  NUM_TRANSACTIONS = 1000%nat
  /\ forall (R F : Type) (HR : RandomGen R) (HF : FakerGen F) (n : nat) (w : World R F),
       exists data w',
         transactions_data_of n w = Ok (data, w')
         /\ length data = n
         /\ map (dict_get "TransactionID") data
            = map (fun i => Some (VInt (Z.of_nat i))) (seq 1 n).
Proof.
  split; [reflexivity|]. intros R F HR HF n w.
  destruct (ensures_transactions_data_of n w) as (data & w' & E & H).
  exists data, w'. split; [exact E|]. split.
  - apply Forall2_length in H. rewrite length_seq in H. congruence.
  - clear E. rewrite <- seq_shift, map_map.
    generalize dependent 0%nat. generalize n. clear n.
    intros n start H. remember (seq start n) as is_ eqn:E. clear E.
    induction H as [|i d is_ ds Hid _ IH]; [reflexivity|].
    cbn [map]. rewrite IH. f_equal. apply record_ok_id, Hid.
Qed.

(** C8. In every generated record, [Currency] is one of USD, EUR, GBP, INR,
    AUD, CAD, [TransactionStatus] one of Completed, Pending, Failed,
    Cancelled, and [Category] one of Send, Receive, Other. *)
Theorem C8_enum_fields :
  forall (R F : Type) (HR : RandomGen R) (HF : FakerGen F) (n : nat) (w : World R F),
    exists data w',
      transactions_data_of n w = Ok (data, w')
      /\ Forall (fun d =>
           exists currency status category,
             dict_get "Currency" d = Some (VStr currency)
             /\ In currency ["USD"; "EUR"; "GBP"; "INR"; "AUD"; "CAD"]
             /\ dict_get "TransactionStatus" d = Some (VStr status)
             /\ In status ["Completed"; "Pending"; "Failed"; "Cancelled"]
             /\ dict_get "Category" d = Some (VStr category)
             /\ In category ["Send"; "Receive"; "Other"]) data.
Proof.
  intros R F HR HF n w.
  destruct (ensures_transactions_data_of n w) as (data & w' & E & H).
  exists data, w'. split; [exact E|].
  eapply Forall2_seq_Forall; [|exact H]. clear.
  intros i d (code & client & cn & agent & an & td & am & cur & og & de & fee & st
              & sd & cat & icon & fr & -> & _ & _ & _ & _ & Hcur & _ & Hst & Hcat & _).
  exists cur, st, cat. repeat split; assumption.
Qed.

(** Two transactions drawn from tapes of zeros: every draw picks the first
    choice. *)
Definition zero_world : World (list N) (list N) :=
  mkWorld [] [] (stopped_clock sample_time) 0.

(** C7. Every generated [TransactionCode] matches [TXN-[A-Z0-9]{8}]; codes
    are not checked for uniqueness, and some outcome of the random source
    gives two records the same code. *)
Theorem C7_transaction_code :
  (forall (R F : Type) (HR : RandomGen R) (HF : FakerGen F) (n : nat) (w : World R F),
     exists data w',
       transactions_data_of n w = Ok (data, w')
       /\ Forall (fun d =>
            exists code,
              dict_get "TransactionCode" d = Some (VStr code)
              /\ matches_txn_pattern code = true) data)
  /\ exists d1 d2 w',
       transactions_data_of 2 zero_world = Ok ([d1; d2], w')
       /\ dict_get "TransactionID" d1 = Some (VInt 1)
       /\ dict_get "TransactionID" d2 = Some (VInt 2)
       /\ dict_get "TransactionCode" d1 = dict_get "TransactionCode" d2.
Proof.
  split.
  - intros R F HR HF n w.
    destruct (ensures_transactions_data_of n w) as (data & w' & E & H).
    exists data, w'. split; [exact E|].
    eapply Forall2_seq_Forall; [|exact H]. clear.
    intros i d (code & client & cn & agent & an & td & am & cur & og & de & fee & st
                & sd & cat & icon & fr & -> & Hcode & _).
    exists code. split; [reflexivity|exact Hcode].
  - vm_compute. do 3 eexists. repeat split.
Qed.

(** A world where the draw behind [Amount] is [random() = 0.5]: ten draws
    come before it (eight for the code, two for the identifiers). *)
Definition half_world : World (list N) (list N) :=
  mkWorld (repeat 0%N 10 ++ [(2 ^ 52)%N])%list [] (stopped_clock sample_time) 0.

(** C2, as stated, fails: when [random()] returns 0.5 the amount is
    [round(10 + 9990 * 0.5, 2) = 5005.0], written [5005.0] in both files: it
    has no second decimal digit. *)
Lemma C2_counterexample :
  exists d w',
    transaction 0 half_world = Ok (d, w')
    /\ dict_get "Amount" d = Some (VFloat (float_of_Z 5005))
    /\ float_repr (float_of_Z 5005) = "5005.0"
    /\ decimal_places (float_of_Z 5005) <> 2.
Proof.
  eexists _, _. split; [vm_compute; reflexivity|].
  split; [vm_compute; reflexivity|].
  split; [vm_compute; reflexivity|].
  vm_compute. discriminate.
Qed.

(** C2, amended. Every generated [Amount] lies in [10, 10000] and every
    [Fee] in [1, 50]; each is [round(x, 2)] of a sample
    [x = a + (b - a) * random()], hence the float nearest to [k / 100] for an
    integer [k], and shows at most 2 decimal digits. *)
Theorem C2_amount_fee :
  forall (R F : Type) (HR : RandomGen R) (HF : FakerGen F) (n : nat) (w : World R F),
    exists data w',
      transactions_data_of n w = Ok (data, w')
      /\ Forall (fun d =>
           exists amount fee,
             dict_get "Amount" d = Some (VFloat amount)
             /\ dict_get "Fee" d = Some (VFloat fee)
             /\ float_leb (float_of_Z 10) amount = true
             /\ float_leb amount (float_of_Z 10000) = true
             /\ float_leb (float_of_Z 1) fee = true
             /\ float_leb fee (float_of_Z 50) = true
             /\ rounded_uniform 10 10000 amount
             /\ rounded_uniform 1 50 fee
             /\ 0 <= decimal_places amount <= 2
             /\ 0 <= decimal_places fee <= 2) data.
Proof.
  intros R F HR HF n w.
  destruct (ensures_transactions_data_of n w) as (data & w' & E & H).
  exists data, w'. split; [exact E|].
  eapply Forall2_seq_Forall; [|exact H]. clear.
  intros i d (code & client & cn & agent & an & td & am & cur & og & de & fee & st
              & sd & cat & icon & fr & -> & _ & _ & _ & Ham & _ & Hfee & _).
  exists am, fee.
  pose proof Ham as (ma & ka & _ & _ & Eka & Hka).
  pose proof Hfee as (mf & kf & _ & _ & Ekf & Hkf).
  assert (H39 : 100 * 10000 < 2 ^ 39) by reflexivity.
  destruct (float_of_ratio_100_bounds ka 10 10000) as [Ha1 Ha2]; [lia|discriminate|lia|].
  destruct (float_of_ratio_100_bounds kf 1 50) as [Hf1 Hf2]; [lia|discriminate|lia|].
  pose proof (decimal_places_ratio_100 ka ltac:(lia)) as Hda.
  pose proof (decimal_places_ratio_100 kf ltac:(lia)) as Hdf.
  rewrite <- Eka in Ha1, Ha2, Hda. rewrite <- Ekf in Hf1, Hf2, Hdf.
  split; [reflexivity|]. split; [reflexivity|].
  repeat (split; [assumption|]). assumption.
Qed.

(** The provider's draws, in order: two names, the transaction date, two
    countries, the status date, the URL.  Here the transaction date is drawn
    a day after the start of the window and the status date at its start. *)
Definition late_early_world : World (list N) (list N) :=
  mkWorld [] [0; 0; 86400; 0; 0; 0; 0]%N (stopped_clock sample_time) 0.

Definition early_late_world : World (list N) (list N) :=
  mkWorld [] [0; 0; 0; 0; 0; 86400; 0]%N (stopped_clock sample_time) 0.

(** C6. [TransactionDate] and [StatusDate] come from two separate calls of
    [random_datetime], nothing relating their results: for some outcome of
    the random source the [StatusDate] of a record is strictly earlier than
    its [TransactionDate] (and for another one strictly later). *)
Theorem C6_status_date_unconstrained :
  (exists d w' (tdate sdate : datetime),
     transaction 0 late_early_world = Ok (d, w')
     /\ dict_get "TransactionDate" d = Some (VStr (isoformat tdate))
     /\ dict_get "StatusDate" d = Some (VStr (isoformat sdate))
     /\ sdate < tdate
     /\ isoformat tdate = "2020-11-06T09:53:20"
     /\ isoformat sdate = "2020-11-05T09:53:20")
  /\ (exists d w' (tdate sdate : datetime),
        transaction 0 early_late_world = Ok (d, w')
        /\ dict_get "TransactionDate" d = Some (VStr (isoformat tdate))
        /\ dict_get "StatusDate" d = Some (VStr (isoformat sdate))
        /\ tdate < sdate).
Proof.
  split.
  - eexists _, _, (1604656400 * usec_per_sec), (1604570000 * usec_per_sec).
    split; [vm_compute; reflexivity|].
    split; [vm_compute; reflexivity|].
    split; [vm_compute; reflexivity|].
    split; [reflexivity|].
    split; vm_compute; reflexivity.
  - eexists _, _, (1604570000 * usec_per_sec), (1604656400 * usec_per_sec).
    split; [vm_compute; reflexivity|].
    split; [vm_compute; reflexivity|].
    split; [vm_compute; reflexivity|].
    reflexivity.
Qed.

(** Two worlds with the same generator states, a decade apart. *)
Definition world_2025 : World (list N) (list N) :=
  mkWorld [] [] (stopped_clock sample_time) 0.

Definition world_2035 : World (list N) (list N) :=
  mkWorld [] [] (stopped_clock (sample_time + 3650 * sec_per_day * usec_per_sec)) 0.

(** C10, as stated, fails: from identical states of the random and Faker
    sources, a run in 2025 and a run in 2035 give different records, since
    [random_datetime("-5y", "now")] resolves its bounds against the clock. *)
Lemma C10_counterexample :
  w_random world_2025 = w_random world_2035
  /\ w_faker world_2025 = w_faker world_2035
  /\ exists d1 d2 w1' w2',
       transactions_data_of 1 world_2025 = Ok ([d1], w1')
       /\ transactions_data_of 1 world_2035 = Ok ([d2], w2')
       /\ dict_get "TransactionDate" d1 = Some (VStr "2020-11-05T09:53:20")
       /\ dict_get "TransactionDate" d2 = Some (VStr "2030-11-03T09:53:20")
       /\ d1 <> d2.
Proof.
  split; [reflexivity|]. split; [reflexivity|].
  eexists _, _, _, _.
  split; [vm_compute; reflexivity|].
  split; [vm_compute; reflexivity|].
  split; [vm_compute; reflexivity|].
  split; [vm_compute; reflexivity|].
  intros Heq. apply (f_equal (dict_get "TransactionDate")) in Heq.
  vm_compute in Heq. discriminate.
Qed.

(** C10, amended. Generation is deterministic in the random source and the
    clock: two runs that start from identical states of the random and Faker
    sources and read the same clock values produce identical record
    sequences, and the script then writes identical files. *)
Theorem C10_deterministic :
  forall (R F : Type) (HR : RandomGen R) (HF : FakerGen F) (n : nat)
         (w1 w2 : World R F) (fs : filesystem),
    same_inputs w1 w2 ->
    (exists data w1' w2',
       transactions_data_of n w1 = Ok (data, w1')
       /\ transactions_data_of n w2 = Ok (data, w2'))
    /\ run_script_of n w1 fs = run_script_of n w2 fs.
Proof.
  intros R F HR HF n w1 w2 fs Hsame.
  pose proof (det_transactions_data_of n w1 w2 Hsame) as Hdet.
  destruct (ensures_transactions_data_of n w1) as (data & w1' & E1 & _).
  unfold run_script_of. unfold same_outcome in Hdet. rewrite E1 in Hdet |- *.
  destruct (transactions_data_of n w2) as [[data2 w2']|e]; [|contradiction].
  destruct Hdet as [<- _]. split; [|reflexivity].
  exists data, w1', w2'. split; reflexivity.
Qed.

(** Two worlds that differ, yet give a run the same inputs: the second
    clock has already been read twice. *)
Definition world_a : World (list N) (list N) :=
  mkWorld [3; 1; 4; 1; 5]%N [9; 2; 6]%N (fun i => sample_time + Z.of_nat i) 0.

Definition world_b : World (list N) (list N) :=
  mkWorld [3; 1; 4; 1; 5]%N [9; 2; 6]%N (fun i => sample_time + Z.of_nat i - 2) 2.

Lemma same_inputs_a_b : same_inputs world_a world_b.
Proof.
  split; [reflexivity|]. split; [reflexivity|].
  intros i. cbn [world_a world_b w_clock w_ticks]. lia.
Defined.

Lemma C10_witness :
  same_inputs world_a world_b
  /\ ((exists data w1' w2',
         transactions_data_of 3 world_a = Ok (data, w1')
         /\ transactions_data_of 3 world_b = Ok (data, w2'))
      /\ run_script_of 3 world_a (mkFS ∅ ∅) = run_script_of 3 world_b (mkFS ∅ ∅)).
Proof.
  split; [exact same_inputs_a_b|].
  apply (C10_deterministic _ _ _ _ 3 world_a world_b (mkFS ∅ ∅)).
  exact same_inputs_a_b.
Defined.

(** A working directory where [transactions_.csv] cannot be opened for
    writing. *)
Definition readonly_fs : filesystem := mkFS ∅ {[ "transactions_.csv" ]}.



(** C4. Round trip: after a completed run, reading [transactions_.json]
    back with [json.load] gives a list with as many objects as there are
    records in memory, and each object has the field names of its record,
    in the same order, with values of the same types. *)
Theorem C4_json_round_trip :
  forall (R F : Type) (HR : RandomGen R) (HF : FakerGen F) (n : nat)
         (w : World R F) (fs : filesystem),
    exit_code (run_script_of n w fs) = 0 ->
    exists data w' text loaded,
      transactions_data_of n w = Ok (data, w')
      /\ fs_files (files (run_script_of n w fs)) !! "transactions_.json" = Some text
      /\ json_loads text = Some (PList loaded)
      /\ length loaded = length data
      /\ Forall2 (fun d o =>
                    exists members,
                      o = PDict members
                      /\ map fst members = keys d
                      /\ map type_of (map snd members) = map value_type (values d))
           data loaded.
Proof.
  intros R F HR HF n w fs Hexit.
  destruct (run_script_of_done n w fs Hexit) as (data & w' & E & Hrec & ->).
  assert (Hall : Forall object_ok data).
  { eapply Forall2_seq_Forall; [|exact Hrec]. intros i d.
    apply record_ok_object_ok. }
  destruct (json_loads_data data Hall) as (loaded & Hload & Hback).
  exists data, w', (json_dumps_indent4 (obj_of_data data)), loaded.
  split; [exact E|]. split; [apply lookup_insert_eq|]. split; [exact Hload|].
  split; [symmetry; eapply Forall2_length, Hback|].
  eapply Forall2_impl; [exact Hback|].
  intros d o (members & -> & Hk & Hv). exists members.
  split; [reflexivity|]. split; [exact Hk|]. apply read_back_types, Hv.
Qed.

Lemma C4_witness :
  exit_code (run_script_of 1 zero_world (mkFS ∅ ∅)) = 0
  /\ exists data w' text loaded,
      transactions_data_of 1 zero_world = Ok (data, w')
      /\ fs_files (files (run_script_of 1 zero_world (mkFS ∅ ∅))) !! "transactions_.json"
         = Some text
      /\ json_loads text = Some (PList loaded)
      /\ length loaded = length data
      /\ Forall2 (fun d o =>
                    exists members,
                      o = PDict members
                      /\ map fst members = keys d
                      /\ map type_of (map snd members) = map value_type (values d))
           data loaded.
Proof.
  pose proof (run_script_of_mkFS 1 zero_world ∅) as H.
  split; [exact H|].
  exact (C4_json_round_trip _ _ _ _ 1%nat zero_world (mkFS ∅ ∅) H).
Defined.

(** Whether [needle] occurs in [s]. *)
Fixpoint occurs_in (needle s : string) : bool :=
  String.prefix needle s
  || match s with
     | EmptyString => false
     | String _ s' => occurs_in needle s'
     end.

(** C9. A completed run leaves exactly two files written,
    [transactions_.csv] and [transactions_.json]: every other path holds
    what it held before, so no SQL dump is written, although the message
    printed mentions one. *)
Theorem C9_two_files :
  forall (R F : Type) (HR : RandomGen R) (HF : FakerGen F) (n : nat)
         (w : World R F) (fs : filesystem),
    exit_code (run_script_of n w fs) = 0 ->
    let after := fs_files (files (run_script_of n w fs)) in
    is_Some (after !! "transactions_.csv")
    /\ is_Some (after !! "transactions_.json")
    /\ dom after = dom (fs_files fs) ∪ {[ "transactions_.csv"; "transactions_.json" ]}
    /\ (forall path, path <> "transactions_.csv" -> path <> "transactions_.json" ->
          after !! path = fs_files fs !! path)
    /\ stdout (run_script_of n w fs) = [completion_message]
    /\ occurs_in "SQL dump" completion_message = true.
Proof.
  intros R F HR HF n w fs Hexit after. subst after.
  destruct (run_script_of_cases n w fs) as (data & w' & E & Hrun).
  rewrite Hrun in Hexit |- *. clear Hrun. unfold csv_path, json_path in *.
  destruct (accepts fs "transactions_.csv" (to_csv data)); [|discriminate].
  cbv zeta in Hexit |- *.
  destruct (accepts fs "transactions_.json" _); [|discriminate].
  cbn [files fs_files stdout with_file].
  split; [rewrite lookup_insert_ne by discriminate; rewrite lookup_insert_eq; eauto|].
  split; [rewrite lookup_insert_eq; eauto|].
  split.
  { rewrite !dom_insert_L. apply set_eq. intros x.
    rewrite !elem_of_union, !elem_of_singleton. tauto. }
  split; [|split; reflexivity].
  intros path Hc Hj. rewrite !lookup_insert_ne by congruence. reflexivity.
Qed.

Lemma C9_witness :
  exit_code (run_script_of 1 zero_world (mkFS ∅ ∅)) = 0
  /\ (let after := fs_files (files (run_script_of 1 zero_world (mkFS ∅ ∅))) in
      is_Some (after !! "transactions_.csv")
      /\ is_Some (after !! "transactions_.json")
      /\ dom after = dom (fs_files (mkFS ∅ ∅)) ∪ {[ "transactions_.csv"; "transactions_.json" ]}
      /\ (forall path, path <> "transactions_.csv" -> path <> "transactions_.json" ->
            after !! path = fs_files (mkFS ∅ ∅) !! path)
      /\ stdout (run_script_of 1 zero_world (mkFS ∅ ∅)) = [completion_message]
      /\ occurs_in "SQL dump" completion_message = true).
Proof.
  pose proof (run_script_of_mkFS 1 zero_world ∅) as H.
  split; [exact H|].
  exact (C9_two_files _ _ _ _ 1%nat zero_world (mkFS ∅ ∅) H).
Defined.
(* ===================================================================== *)
(** * Further properties of the script *)

(** ** The records *)

Ltac record_fields H :=
  destruct H as (code & client & cn & agent & an & td & am & cur & og & de & fee
                 & st & sd & cat & icon & fr & -> & Hcode & Hclient & Hagent & Ham
                 & Hcur & Hfee & Hst & Hcat & Hfr).

(** X1. In every generated record, [ClientID] is an integer from 1 to
    [NUM_CLIENTS] = 100, [AgentID] an integer from 1 to [NUM_AGENTS] = 25,
    and [IsFraudulent] is 0 or 1. *)
Theorem X1_identifier_ranges :
  forall (R F : Type) (HR : RandomGen R) (HF : FakerGen F) (n : nat) (w : World R F),
    exists data w',
      transactions_data_of n w = Ok (data, w')
      /\ Forall (fun d =>
           exists client agent fraud,
             dict_get "ClientID" d = Some (VInt client) /\ 1 <= client <= 100
             /\ dict_get "AgentID" d = Some (VInt agent) /\ 1 <= agent <= 25
             /\ dict_get "IsFraudulent" d = Some (VInt fraud)
             /\ (fraud = 0 \/ fraud = 1)) data.
Proof.
  intros R F HR HF n w.
  destruct (ensures_transactions_data_of n w) as (data & w' & E & H).
  exists data, w'. split; [exact E|].
  eapply Forall2_seq_Forall; [|exact H]. clear.
  intros i d Hd. record_fields Hd.
  exists client, agent, fr.
  split; [reflexivity|]. split; [exact Hclient|].
  split; [reflexivity|]. split; [exact Hagent|].
  split; [reflexivity|].
  cbn in Hfr. intuition auto.
Qed.

(** The type of each field, in the order of the dict literal. *)
Definition schema_types : list (string * pytype) :=
  [ ("TransactionID", TInt); ("TransactionCode", TStr); ("ClientID", TInt);
    ("ClientFullName", TStr); ("AgentID", TInt); ("AgentFullName", TStr);
    ("TransactionDate", TStr); ("Amount", TFloat); ("Currency", TStr);
    ("OriginalCountry", TStr); ("DestinationCountry", TStr); ("Fee", TFloat);
    ("TransactionStatus", TStr); ("StatusDate", TStr); ("Category", TStr);
    ("Icon", TStr); ("IsFraudulent", TInt) ].

(** X2. Every generated record holds the 17 fields with the same types:
    [int] for the three identifiers and the fraud flag, [float] for [Amount]
    and [Fee] (never an [int], also when the rounded value is whole), [str]
    for the others, dates included. *)
Theorem X2_field_types :
  forall (R F : Type) (HR : RandomGen R) (HF : FakerGen F) (n : nat) (w : World R F),
    exists data w',
      transactions_data_of n w = Ok (data, w')
      /\ Forall (fun d => map (fun kv => (fst kv, value_type (snd kv))) d = schema_types)
           data.
Proof.
  intros R F HR HF n w.
  destruct (ensures_transactions_data_of n w) as (data & w' & E & H).
  exists data, w'. split; [exact E|].
  eapply Forall2_seq_Forall; [|exact H]. clear.
  intros i d Hd. record_fields Hd. reflexivity.
Qed.

(** ** Failed runs *)

Lemma accepts_denied (fs : filesystem) (path content : string) :
  path ∈ fs_denied fs -> accepts fs path content = false.
Proof.
  intros H. unfold accepts. rewrite bool_decide_eq_false_2; [reflexivity|tauto].
Qed.

Lemma accepts_unlimited (fs : filesystem) (path content : string) :
  path ∉ fs_denied fs -> fs_room fs !! path = None -> accepts fs path content = true.
Proof.
  intros Hd Hr. unfold accepts. rewrite bool_decide_eq_true_2 by exact Hd.
  rewrite Hr. reflexivity.
Qed.

(** X3. When [transactions_.csv] cannot be opened for writing, the run ends
    with status 1 and leaves every file as it was: the JSON file is not
    written either. *)
Theorem X3_csv_failure_writes_nothing :
  forall (R F : Type) (HR : RandomGen R) (HF : FakerGen F) (n : nat)
         (w : World R F) (fs : filesystem),
    ("transactions_.csv" ∈ fs_denied fs) ->
    exit_code (run_script_of n w fs) = 1
    /\ files (run_script_of n w fs) = fs
    /\ stdout (run_script_of n w fs) = [].
Proof.
  intros R F HR HF n w fs Hc.
  destruct (run_script_of_cases n w fs) as (data & w' & _ & ->).
  unfold csv_path. rewrite (accepts_denied _ _ _ Hc).
  split; [reflexivity|]. split; [|reflexivity].
  cbn [files]. apply write_file_rejects; [apply accepts_denied, Hc|exact Hc].
Qed.

Lemma X3_witness :
  ("transactions_.csv" ∈ fs_denied readonly_fs)
  /\ exit_code (run_script_of 2 zero_world readonly_fs) = 1
  /\ files (run_script_of 2 zero_world readonly_fs) = readonly_fs
  /\ stdout (run_script_of 2 zero_world readonly_fs) = [].
Proof.
  assert (H : "transactions_.csv" ∈ fs_denied readonly_fs).
  { unfold readonly_fs, mkFS. cbn [fs_denied]. apply elem_of_singleton. reflexivity. }
  split; [exact H|].
  exact (X3_csv_failure_writes_nothing _ _ _ _ 2%nat zero_world readonly_fs H).
Defined.

(** A working directory where only [transactions_.json] cannot be opened
    for writing. *)
Definition json_readonly_fs : filesystem := mkFS ∅ {[ "transactions_.json" ]}.

(** X4. When [transactions_.csv] can be opened and [transactions_.json]
    cannot, the run ends with status 1 and the completion message is not
    printed; no path other than [transactions_.csv] is touched, so the JSON
    file is left as it was; and when the file system had room for all of
    the CSV text, the CSV file has been written in full: it holds all the
    records. *)
Theorem X4_json_failure_leaves_csv :
  forall (R F : Type) (HR : RandomGen R) (HF : FakerGen F) (n : nat)
         (w : World R F) (fs : filesystem),
    ("transactions_.csv" ∉ fs_denied fs) ->
    ("transactions_.json" ∈ fs_denied fs) ->
    exists data w',
      transactions_data_of n w = Ok (data, w')
      /\ exit_code (run_script_of n w fs) = 1
      /\ stdout (run_script_of n w fs) = []
      /\ (accepts fs "transactions_.csv" (to_csv data) = true ->
          fs_files (files (run_script_of n w fs)) !! "transactions_.csv"
          = Some (to_csv data))
      /\ forall path, path <> "transactions_.csv" ->
           fs_files (files (run_script_of n w fs)) !! path = fs_files fs !! path.
Proof.
  intros R F HR HF n w fs Hc Hj.
  destruct (run_script_of_cases n w fs) as (data & w' & E & ->).
  exists data, w'. split; [exact E|].
  unfold csv_path, json_path.
  destruct (accepts fs "transactions_.csv" (to_csv data)) eqn:Ec.
  - cbv zeta. rewrite (accepts_denied _ _ _ Hj). cbn [exit_code stdout files].
    split; [reflexivity|]. split; [reflexivity|].
    rewrite (proj2 (proj2 (write_file_rejects
               (with_file "transactions_.csv" (to_csv data) fs) "transactions_.json"
               (json_dumps_indent4 (obj_of_data data)) (accepts_denied _ _ _ Hj))) Hj).
    cbn [with_file fs_files]. split; [intros _; apply lookup_insert_eq|].
    intros path Hp. apply lookup_insert_ne. congruence.
  - cbn [exit_code stdout files].
    split; [reflexivity|]. split; [reflexivity|]. split; [discriminate|].
    intros path Hp. apply (write_file_rejects _ _ _ Ec). exact Hp.
Qed.

Lemma X4_witness :
  ("transactions_.csv" ∉ fs_denied json_readonly_fs)
  /\ ("transactions_.json" ∈ fs_denied json_readonly_fs)
  /\ (forall content, accepts json_readonly_fs "transactions_.csv" content = true)
  /\ exists data w',
      transactions_data_of 2 zero_world = Ok (data, w')
      /\ exit_code (run_script_of 2 zero_world json_readonly_fs) = 1
      /\ stdout (run_script_of 2 zero_world json_readonly_fs) = []
      /\ (accepts json_readonly_fs "transactions_.csv" (to_csv data) = true ->
          fs_files (files (run_script_of 2 zero_world json_readonly_fs))
            !! "transactions_.csv" = Some (to_csv data))
      /\ forall path, path <> "transactions_.csv" ->
           fs_files (files (run_script_of 2 zero_world json_readonly_fs)) !! path
           = fs_files json_readonly_fs !! path.
Proof.
  assert (Hc : "transactions_.csv" ∉ fs_denied json_readonly_fs).
  { unfold json_readonly_fs, mkFS. cbn [fs_denied]. rewrite elem_of_singleton.
    discriminate. }
  assert (Hj : "transactions_.json" ∈ fs_denied json_readonly_fs).
  { unfold json_readonly_fs, mkFS. cbn [fs_denied]. apply elem_of_singleton.
    reflexivity. }
  split; [exact Hc|]. split; [exact Hj|].
  split; [intros content; apply accepts_unlimited; [exact Hc|apply lookup_empty]|].
  exact (X4_json_failure_leaves_csv _ _ _ _ 2%nat zero_world json_readonly_fs Hc Hj).
Defined.

(** A working directory on a full disk: [transactions_.csv] can be opened,
    and no character written to it reaches the file. *)
Definition full_disk_fs : filesystem :=
  mkFileSystem ∅ ∅ {[ "transactions_.csv" := 0%nat ]}.

(** The CSV text is never empty: the header row ends with a line feed. *)
Lemma to_csv_nonempty (data : list dict) : (0 < String.length (to_csv data))%nat.
Proof.
  unfold to_csv, csv_lines. cbn [unlines]. rewrite !length_append.
  change (String.length nl) with 1%nat. lia.
Qed.

(** X17. When [transactions_.csv] can be opened and the disk is full, so
    that no character written to it reaches the file, the run ends with
    status 1 and the completion message is not printed: the CSV file is
    left empty, as [open] left it, and the JSON file is not written; every
    other path is as it was. *)
Theorem X17_full_disk :
  forall (R F : Type) (HR : RandomGen R) (HF : FakerGen F) (n : nat)
         (w : World R F) (fs : filesystem),
    ("transactions_.csv" ∉ fs_denied fs) ->
    fs_room fs !! "transactions_.csv" = Some 0%nat ->
    exit_code (run_script_of n w fs) = 1
    /\ stdout (run_script_of n w fs) = []
    /\ fs_files (files (run_script_of n w fs)) !! "transactions_.csv" = Some ""
    /\ forall path, path <> "transactions_.csv" ->
         fs_files (files (run_script_of n w fs)) !! path = fs_files fs !! path.
Proof.
  intros R F HR HF n w fs Hc Hroom.
  destruct (run_script_of_cases n w fs) as (data & w' & _ & ->).
  pose proof (to_csv_nonempty data) as Hlen.
  assert (Ec : accepts fs csv_path (to_csv data) = false).
  { unfold accepts, csv_path. rewrite Hroom. apply andb_false_iff. right.
    apply Nat.leb_gt. exact Hlen. }
  rewrite Ec. cbn [exit_code stdout files].
  split; [reflexivity|]. split; [reflexivity|]. split.
  - unfold write_file, csv_path. rewrite decide_False by exact Hc. rewrite Hroom.
    destruct (Nat.ltb_spec 0 (String.length (to_csv data))) as [_|H]; [|lia].
    cbn [fst with_file fs_files]. rewrite lookup_insert_eq.
    destruct (to_csv data); reflexivity.
  - intros path Hp. apply (write_file_rejects _ _ _ Ec). exact Hp.
Qed.

Lemma X17_witness :
  ("transactions_.csv" ∉ fs_denied full_disk_fs)
  /\ fs_room full_disk_fs !! "transactions_.csv" = Some 0%nat
  /\ exit_code (run_script_of 2 zero_world full_disk_fs) = 1
  /\ stdout (run_script_of 2 zero_world full_disk_fs) = []
  /\ fs_files (files (run_script_of 2 zero_world full_disk_fs)) !! "transactions_.csv"
     = Some ""
  /\ forall path, path <> "transactions_.csv" ->
       fs_files (files (run_script_of 2 zero_world full_disk_fs)) !! path
       = fs_files full_disk_fs !! path.
Proof.
  assert (Hc : "transactions_.csv" ∉ fs_denied full_disk_fs).
  { unfold full_disk_fs. cbn [fs_denied]. apply not_elem_of_empty. }
  assert (Hr : fs_room full_disk_fs !! "transactions_.csv" = Some 0%nat).
  { unfold full_disk_fs. cbn [fs_room]. apply lookup_singleton_eq. }
  split; [exact Hc|]. split; [exact Hr|].
  exact (X17_full_disk _ _ _ _ 2%nat zero_world full_disk_fs Hc Hr).
Defined.

(** ** The loop index and the count *)

Section IndexProps.
Context {R F : Type} {HR : RandomGen R} {HF : FakerGen F}.

Lemma transaction_tail (i j : nat) (w : World R F) :
exists id_i id_j fields w',
  transaction i w = Ok (("TransactionID", VInt id_i) :: fields, w')
  /\ transaction j w = Ok (("TransactionID", VInt id_j) :: fields, w')
  /\ id_i = Z.of_nat i + 1 /\ id_j = Z.of_nat j + 1.
Proof.
destruct (ensures_transaction i w) as (rec1 & w1 & E1 & _).
revert E1. unfold transaction, bind.
repeat match goal with
       | |- context [match ?c ?x with Ok _ => _ | Raise _ => _ end] =>
           destruct (c x) as [[? ?]|?]; [|discriminate]
       end.
unfold ret. intros _. eexists _, _, _, _. repeat split.
Qed.

(** A comprehension over a range of [n + m] indices runs the first [n],
  then the other [m] from the state reached. *)
Lemma comprehension_add {A} (f : nat -> M R F A) (n m : nat) :
forall start w,
  comprehension f start (n + m) w
  = match comprehension f start n w with
    | Ok (l1, w1) =>
        match comprehension f (start + n) m w1 with
        | Ok (l2, w2) => Ok ((l1 ++ l2)%list, w2)
        | Raise e => Raise e
        end
    | Raise e => Raise e
    end.
Proof.
induction n as [|n IH]; intros start w.
- cbn [Nat.add comprehension]. unfold ret. rewrite Nat.add_0_r.
  destruct (comprehension f start m w) as [[l2 w2]|e]; reflexivity.
- cbn [Nat.add comprehension]. unfold bind, ret.
  destruct (f start w) as [[x w0]|e]; [|reflexivity].
  rewrite IH.
  destruct (comprehension f (S start) n w0) as [[l1 w1]|e]; [|reflexivity].
  replace (start + S n)%nat with (S start + n)%nat by lia.
  destruct (comprehension f (S start + n) m w1) as [[l2 w2]|e]; reflexivity.
Qed.

End IndexProps.

(** X5. The loop index enters a record through [TransactionID] only: from
    the same state of the sources, the records built for two indices agree
    on every other field, and leave the sources in the same state. *)
Theorem X5_index_only_in_id :
  forall (R F : Type) (HR : RandomGen R) (HF : FakerGen F) (i j : nat) (w : World R F),
    exists rec_i rec_j w',
      transaction i w = Ok (rec_i, w')
      /\ transaction j w = Ok (rec_j, w')
      /\ dict_get "TransactionID" rec_i = Some (VInt (Z.of_nat i + 1))
      /\ dict_get "TransactionID" rec_j = Some (VInt (Z.of_nat j + 1))
      /\ forall k, k <> "TransactionID" -> dict_get k rec_i = dict_get k rec_j.
Proof.
  intros R F HR HF i j w.
  destruct (transaction_tail i j w) as (a & b & fields & w' & Ei & Ej & -> & ->).
  eexists _, _, w'. split; [exact Ei|]. split; [exact Ej|].
  split; [reflexivity|]. split; [reflexivity|].
  intros k Hk. cbn [dict_get].
  destruct (String.eqb_spec k "TransactionID") as [->|_]; [congruence|reflexivity].
Qed.

(** X6. Raising the count keeps the records already generated: from the
    same state of the sources and the same clock readings, the first [n]
    records of a run for [n + m] transactions are the records of a run for
    [n]. *)
Theorem X6_count_prefix :
  forall (R F : Type) (HR : RandomGen R) (HF : FakerGen F) (n m : nat) (w : World R F),
    exists longer w'' shorter w',
      transactions_data_of (n + m) w = Ok (longer, w'')
      /\ transactions_data_of n w = Ok (shorter, w')
      /\ firstn n longer = shorter
      /\ length longer = (n + m)%nat.
Proof.
  intros R F HR HF n m w.
  destruct (ensures_transactions_data_of n w) as (shorter & w' & En & Hn).
  destruct (ensures_comprehension transaction record_ok ensures_transaction m (0 + n) w')
    as (more & w'' & Em & Hm).
  assert (Hlen : length shorter = n).
  { apply Forall2_length in Hn. rewrite length_seq in Hn. congruence. }
  assert (Hlen' : length more = m).
  { apply Forall2_length in Hm. rewrite length_seq in Hm. congruence. }
  exists (shorter ++ more)%list, w'', shorter, w'.
  unfold transactions_data_of in *. rewrite comprehension_add, En, Em.
  split; [reflexivity|]. split; [reflexivity|]. split.
  - rewrite <- Hlen at 1. rewrite firstn_app, Nat.sub_diag, firstn_all. cbn [firstn].
    apply app_nil_r.
  - rewrite length_app. lia.
Qed.

(** ** The characters written *)

Fixpoint all_chars (P : ascii -> bool) (s : string) : bool :=
  match s with
  | EmptyString => true
  | String c s' => P c && all_chars P s'
  end.

Lemma all_chars_app (P : ascii -> bool) (a b : string) :
  all_chars P (a ++ b) = all_chars P a && all_chars P b.
Proof.
  induction a as [|c a IH]; [reflexivity|].
  rewrite append_String. cbn [all_chars]. rewrite IH. apply andb_assoc.
Qed.

Lemma all_chars_impl (P Q : ascii -> bool) (s : string) :
  (forall c, P c = true -> Q c = true) ->
  all_chars P s = true -> all_chars Q s = true.
Proof.
  intros HPQ. induction s as [|c s IH]; [reflexivity|].
  cbn [all_chars]. intros H. apply andb_true_iff in H as [Hc Hs].
  rewrite (HPQ c Hc), (IH Hs). reflexivity.
Qed.

Lemma all_chars_digits (P : ascii -> bool) (s : string) :
  (forall c, is_digit c = true -> P c = true) ->
  all_digits s = true -> all_chars P s = true.
Proof.
  intros HP. induction s as [|c s IH]; [reflexivity|].
  cbn [all_digits all_chars]. intros H. apply andb_true_iff in H as [Hc Hs].
  rewrite (HP c Hc), (IH Hs). reflexivity.
Qed.

Lemma all_chars_forallb (P : ascii -> bool) (s : string) :
  all_chars P s = forallb P (list_ascii_of_string s).
Proof.
  induction s as [|c s IH]; [reflexivity|].
  cbn [all_chars list_ascii_of_string forallb]. rewrite IH. reflexivity.
Qed.

(** A character both writers copy as it is: printable ASCII other than the
    double quote, the backslash and the comma. *)
Definition verbatim_char (c : ascii) : bool :=
  let n := N_of_ascii c in
  ((32 <=? n) && (n <=? 126))%N
  && negb (Ascii.eqb c dquote) && negb (Ascii.eqb c backslash)
  && negb (Ascii.eqb c ",").

Lemma escape_char_verbatim (c : ascii) :
  verbatim_char c = true -> escape_char c = String c "".
Proof.
  destruct c as [[|] [|] [|] [|] [|] [|] [|] [|]];
    intros H; try discriminate H; reflexivity.
Qed.

Lemma escape_chars_verbatim (s : string) :
  all_chars verbatim_char s = true -> escape_chars s = s.
Proof.
  induction s as [|c s IH]; [reflexivity|].
  cbn [all_chars escape_chars]. intros H. apply andb_true_iff in H as [Hc Hs].
  rewrite (escape_char_verbatim c Hc), (IH Hs). reflexivity.
Qed.

Lemma quoting_char_verbatim (c : ascii) :
  verbatim_char c = true ->
  Ascii.eqb c "," || Ascii.eqb c dquote || Ascii.eqb c newline = false.
Proof.
  destruct c as [[|] [|] [|] [|] [|] [|] [|] [|]];
    intros H; try discriminate H; reflexivity.
Qed.

Lemma csv_field_verbatim (s : string) :
  all_chars verbatim_char s = true -> csv_field s = s.
Proof.
  intros H. unfold csv_field.
  assert (Hq : needs_quoting s = false); [|rewrite Hq; reflexivity].
  unfold needs_quoting. induction s as [|c s IH]; [reflexivity|].
  cbn [all_chars] in H. apply andb_true_iff in H as [Hc Hs].
  cbn [list_ascii_of_string existsb].
  rewrite (quoting_char_verbatim c Hc), (IH Hs). reflexivity.
Qed.

Lemma verbatim_digit (c : ascii) : is_digit c = true -> verbatim_char c = true.
Proof.
  destruct c as [[|] [|] [|] [|] [|] [|] [|] [|]];
    intros H; try discriminate H; reflexivity.
Qed.

Lemma verbatim_upper_or_digit (c : ascii) :
  is_upper_or_digit c = true -> verbatim_char c = true.
Proof.
  destruct c as [[|] [|] [|] [|] [|] [|] [|] [|]];
    intros H; try discriminate H; reflexivity.
Qed.

Lemma verbatim_zfill (k : nat) (n : N) : all_chars verbatim_char (zfill k n) = true.
Proof.
  apply all_chars_digits; [apply verbatim_digit|apply zfill_digits].
Qed.

(** The text of a date holds digits and the separators [-], [T], [:] and
    [.] only. *)
Lemma verbatim_isoformat (dt : datetime) :
  all_chars verbatim_char (isoformat dt) = true.
Proof.
  unfold isoformat. cbv zeta.
  destruct (civil_from_days _) as [[y m] d].
  rewrite !all_chars_app, !verbatim_zfill.
  destruct (_ =? 0); [reflexivity|].
  rewrite all_chars_app, verbatim_zfill. reflexivity.
Qed.

Lemma matches_txn_pattern_inv (s : string) :
  matches_txn_pattern s = true ->
  exists rest,
    s = "TXN-" ++ rest /\ String.length rest = 8%nat
    /\ all_chars is_upper_or_digit rest = true.
Proof.
  intros H.
  destruct s as [|c1 s]; [discriminate H|].
  destruct c1 as [[|] [|] [|] [|] [|] [|] [|] [|]]; try discriminate H.
  destruct s as [|c2 s]; [discriminate H|].
  destruct c2 as [[|] [|] [|] [|] [|] [|] [|] [|]]; try discriminate H.
  destruct s as [|c3 s]; [discriminate H|].
  destruct c3 as [[|] [|] [|] [|] [|] [|] [|] [|]]; try discriminate H.
  destruct s as [|c4 s]; [discriminate H|].
  destruct c4 as [[|] [|] [|] [|] [|] [|] [|] [|]]; try discriminate H.
  cbn [matches_txn_pattern] in H. apply andb_true_iff in H as [Hlen Hall].
  exists s. split; [reflexivity|]. split; [apply Nat.eqb_eq, Hlen|].
  rewrite all_chars_forallb. exact Hall.
Qed.

Lemma verbatim_code (s : string) :
  matches_txn_pattern s = true -> all_chars verbatim_char s = true.
Proof.
  intros H. destruct (matches_txn_pattern_inv s H) as (rest & -> & _ & Hall).
  rewrite all_chars_app. change (all_chars verbatim_char "TXN-") with true.
  apply (all_chars_impl _ _ _ verbatim_upper_or_digit Hall).
Qed.

Lemma verbatim_enums (s : string) :
  In s currencies \/ In s statuses \/ In s categories ->
  all_chars verbatim_char s = true.
Proof.
  cbn. intros H. decompose [or] H; try contradiction; subst s; reflexivity.
Qed.

(** The six columns whose text the script makes itself. *)
Definition verbatim_columns : list string :=
  [ "TransactionCode"; "TransactionDate"; "Currency"; "TransactionStatus";
    "StatusDate"; "Category" ].

(** X7. The code, the two dates and the three enumerated fields of every
    record hold no comma, quote, backslash, control or non-ASCII character:
    the CSV file shows each of them unquoted, and the JSON file shows each
    between two quotes with no escape. *)
Theorem X7_verbatim_columns :
  forall (R F : Type) (HR : RandomGen R) (HF : FakerGen F) (n : nat) (w : World R F),
    exists data w',
      transactions_data_of n w = Ok (data, w')
      /\ Forall (fun d =>
           Forall (fun k =>
             exists s,
               dict_get k d = Some (VStr s)
               /\ csv_cell (dict_get k d) = s
               /\ json_text (VStr s) = String dquote (s ++ String dquote ""))
             verbatim_columns) data.
Proof.
  intros R F HR HF n w.
  destruct (ensures_transactions_data_of n w) as (data & w' & E & H).
  exists data, w'. split; [exact E|].
  eapply Forall2_seq_Forall; [|exact H]. clear.
  intros i d Hd. record_fields Hd.
  assert (Hall : forall s, all_chars verbatim_char s = true ->
            csv_cell (Some (VStr s)) = s
            /\ json_text (VStr s) = String dquote (s ++ String dquote "")).
  { intros s Hs. cbn [csv_cell json_text]. unfold py_encode_basestring_ascii.
    rewrite (csv_field_verbatim s Hs), (escape_chars_verbatim s Hs). auto. }
  unfold verbatim_columns.
  repeat (apply Forall_cons; split); [..|apply Forall_nil];
    eexists; (split; [reflexivity|]); apply Hall.
  - apply verbatim_code, Hcode.
  - apply verbatim_isoformat.
  - apply verbatim_enums. auto.
  - apply verbatim_enums. auto.
  - apply verbatim_isoformat.
  - apply verbatim_enums. auto.
Qed.

(** Printable ASCII: from the space to the tilde. *)
Definition printable (c : ascii) : bool :=
  let n := N_of_ascii c in ((32 <=? n) && (n <=? 126))%N.

(** The characters of the JSON file: printable ASCII and the line break. *)
Definition json_char (c : ascii) : bool := printable c || Ascii.eqb c newline.

Lemma printable_json_char (c : ascii) : printable c = true -> json_char c = true.
Proof. intros H. unfold json_char. rewrite H. reflexivity. Qed.

Lemma printable_digit (c : ascii) : is_digit c = true -> printable c = true.
Proof.
  destruct c as [[|] [|] [|] [|] [|] [|] [|] [|]];
    intros H; try discriminate H; reflexivity.
Qed.

Lemma printable_escape_char (c : ascii) : all_chars printable (escape_char c) = true.
Proof. destruct c as [[|] [|] [|] [|] [|] [|] [|] [|]]; reflexivity. Qed.

Lemma printable_escape_chars (s : string) : all_chars printable (escape_chars s) = true.
Proof.
  induction s as [|c s IH]; [reflexivity|].
  cbn [escape_chars]. rewrite all_chars_app, printable_escape_char, IH. reflexivity.
Qed.

(** Whatever a string holds, its JSON text is printable ASCII. *)
Lemma printable_encoded_string (s : string) :
  all_chars printable (py_encode_basestring_ascii s) = true.
Proof.
  unfold py_encode_basestring_ascii. cbn [all_chars].
  rewrite all_chars_app, printable_escape_chars. reflexivity.
Qed.

Lemma printable_str_of_N (n : N) : all_chars printable (str_of_N n) = true.
Proof. apply all_chars_digits; [apply printable_digit|apply all_digits_str_of_N]. Qed.

Lemma printable_str_of_Z (z : Z) : all_chars printable (str_of_Z z) = true.
Proof.
  destruct z as [|p|p]; cbn [str_of_Z];
    rewrite ?all_chars_app, printable_str_of_N; reflexivity.
Qed.

Lemma printable_fixed_repr (j d : Z) : all_chars printable (fixed_repr j d) = true.
Proof.
  unfold fixed_repr. rewrite !all_chars_app, printable_str_of_N.
  change (all_chars printable ".") with true. cbn [andb].
  destruct (d =? 0); [reflexivity|].
  apply all_chars_digits; [apply printable_digit|apply zfill_digits].
Qed.

Lemma printable_float_json (x : float) : all_chars printable (float_json x) = true.
Proof.
  destruct x as [[|]|[|]| |s m e]; try reflexivity.
  cbn [float_json float_repr]. destruct (shortest_decimal 17 0 m e) as [j d].
  rewrite all_chars_app, printable_fixed_repr. destruct s; reflexivity.
Qed.

Lemma printable_value (indent level : nat) (v : value) :
  all_chars printable (encode indent level (obj_of_value v)) = true.
Proof.
  destruct v as [z|x|s]; cbn [obj_of_value encode].
  - apply printable_str_of_Z.
  - apply printable_float_json.
  - apply printable_encoded_string.
Qed.

Lemma all_chars_join (P : ascii -> bool) (sep : string) (l : list string) :
  all_chars P sep = true -> Forall (fun s => all_chars P s = true) l ->
  all_chars P (join sep l) = true.
Proof.
  intros Hsep. induction 1 as [|x l Hx Hl IH]; [reflexivity|].
  destruct l as [|y l]; [exact Hx|].
  rewrite join_cons by discriminate. rewrite !all_chars_app, Hx, Hsep, IH. reflexivity.
Qed.

Lemma json_char_newline_indent (indent level : nat) :
  all_chars json_char (newline_indent indent level) = true.
Proof.
  unfold newline_indent, nl. rewrite append_String, append_nil_l. cbn [all_chars].
  change (json_char newline) with true. cbn [andb].
  induction (indent * level)%nat as [|k IH]; [reflexivity|exact IH].
Qed.

Lemma json_char_member (indent level : nat) (kv : string * value) :
  all_chars json_char
    (py_encode_basestring_ascii (fst kv) ++ ": "
     ++ encode indent level (obj_of_value (snd kv))) = true.
Proof.
  rewrite !all_chars_app.
  rewrite (all_chars_impl _ _ _ printable_json_char (printable_encoded_string _)).
  rewrite (all_chars_impl _ _ _ printable_json_char (printable_value _ _ _)).
  reflexivity.
Qed.

Lemma json_char_dict (level : nat) (d : dict) :
  all_chars json_char (encode 4 level (obj_of_dict d)) = true.
Proof.
  destruct d as [|kv0 d]; [reflexivity|].
  unfold obj_of_dict. cbn [map encode].
  rewrite !all_chars_app, !json_char_newline_indent.
  rewrite all_chars_join; [reflexivity| |].
  - rewrite all_chars_app, json_char_newline_indent. reflexivity.
  - constructor; [apply (json_char_member 4 (S level) kv0)|].
    apply List.Forall_forall. intros x Hx.
    apply in_map_iff in Hx as ([k o] & <- & Hin).
    apply in_map_iff in Hin as (kv & [= <- <-] & _).
    apply (json_char_member 4 (S level) kv).
Qed.

(** Whatever the records hold, the JSON text is printable ASCII and line
    breaks. *)
Lemma json_char_data (data : list dict) :
  all_chars json_char (json_dumps_indent4 (obj_of_data data)) = true.
Proof.
  unfold json_dumps_indent4, obj_of_data.
  destruct data as [|d data]; [reflexivity|].
  cbn [map encode].
  rewrite !all_chars_app, !json_char_newline_indent.
  rewrite all_chars_join; [reflexivity| |].
  - rewrite all_chars_app, json_char_newline_indent. reflexivity.
  - constructor; [apply json_char_dict|].
    apply List.Forall_forall. intros x Hx.
    apply in_map_iff in Hx as (o & <- & Hin).
    apply in_map_iff in Hin as (d' & <- & _).
    apply json_char_dict.
Qed.

(** A run of one transaction from the tapes of zeros, in an empty
    directory, completes. *)
Lemma zero_run_completes : exit_code (run_script_of 1 zero_world (mkFS ∅ ∅)) = 0.
Proof.
  exact (run_script_of_mkFS 1 zero_world ∅).
Defined.

(** X8. After a completed run, [transactions_.json] holds printable ASCII
    characters and line breaks only, whatever names, countries and URLs the
    Faker object returned: every other character is written as an escape. *)
Theorem X8_json_file_is_ascii :
  forall (R F : Type) (HR : RandomGen R) (HF : FakerGen F) (n : nat)
         (w : World R F) (fs : filesystem),
    exit_code (run_script_of n w fs) = 0 ->
    exists text,
      fs_files (files (run_script_of n w fs)) !! "transactions_.json" = Some text
      /\ all_chars json_char text = true.
Proof.
  intros R F HR HF n w fs Hexit.
  destruct (run_script_of_done n w fs Hexit) as (data & w' & _ & _ & ->).
  exists (json_dumps_indent4 (obj_of_data data)).
  split; [apply lookup_insert_eq|apply json_char_data].
Qed.

Lemma X8_witness :
  exit_code (run_script_of 1 zero_world (mkFS ∅ ∅)) = 0
  /\ exists text,
      fs_files (files (run_script_of 1 zero_world (mkFS ∅ ∅))) !! "transactions_.json"
      = Some text
      /\ all_chars json_char text = true.
Proof.
  split; [exact zero_run_completes|].
  exact (X8_json_file_is_ascii _ _ _ _ 1%nat zero_world (mkFS ∅ ∅) zero_run_completes).
Defined.

(** ** The lines of the JSON file *)

Fixpoint count_char (c : ascii) (s : string) : nat :=
  match s with
  | EmptyString => 0
  | String x s' => (if Ascii.eqb x c then 1 else 0) + count_char c s'
  end.

Lemma count_char_app (c : ascii) (a b : string) :
  count_char c (a ++ b) = (count_char c a + count_char c b)%nat.
Proof.
  induction a as [|x a IH]; [reflexivity|].
  rewrite append_String. cbn [count_char]. rewrite IH. lia.
Qed.

Lemma printable_not_newline (c : ascii) : printable c = true -> Ascii.eqb c newline = false.
Proof.
  destruct c as [[|] [|] [|] [|] [|] [|] [|] [|]];
    intros H; try discriminate H; reflexivity.
Qed.

Lemma count_newline_printable (s : string) :
  all_chars printable s = true -> count_char newline s = 0%nat.
Proof.
  induction s as [|c s IH]; [reflexivity|].
  cbn [all_chars count_char]. intros H. apply andb_true_iff in H as [Hc Hs].
  rewrite (printable_not_newline c Hc), (IH Hs). reflexivity.
Qed.

(** Parts with [k] occurrences each, joined: the separators add theirs. *)
Lemma count_char_join (c : ascii) (sep : string) (k : nat) (l : list string) :
  Forall (fun s => count_char c s = k) l -> l <> [] ->
  count_char c (join sep l)
  = (length l * k + (length l - 1) * count_char c sep)%nat.
Proof.
  induction 1 as [|x l Hx Hl IH]; [congruence|]. intros _.
  destruct l as [|y l].
  - change (join sep [x]) with x. cbn [length]. lia.
  - rewrite join_cons by discriminate. rewrite !count_char_app, Hx, IH by discriminate.
    cbn [length]. rewrite !Nat.sub_succ, !Nat.sub_0_r. nia.
Qed.

Lemma printable_json_text (v : value) : all_chars printable (json_text v) = true.
Proof.
  destruct v as [z|x|s]; cbn [json_text].
  - apply printable_str_of_Z.
  - destruct x as [[|]|[|]| |s m e]; try reflexivity.
    cbn [float_repr]. destruct (shortest_decimal 17 0 m e) as [j d].
    rewrite all_chars_app, printable_fixed_repr. destruct s; reflexivity.
  - apply printable_encoded_string.
Qed.

(** A member takes one line. *)
Lemma count_newline_member (kv : string * value) :
  count_char newline (field_member kv) = 0%nat.
Proof.
  apply count_newline_printable. unfold field_member.
  rewrite !all_chars_app, printable_encoded_string, printable_json_text.
  reflexivity.
Qed.

(** An object of 17 members takes 19 lines. *)
Lemma count_newline_object (d : dict) :
  length d = 17%nat -> count_char newline (record_object d) = 18%nat.
Proof.
  intros Hlen. unfold record_object. rewrite !count_char_app.
  rewrite (count_char_join newline ("," ++ nl) 0 (map field_member d)).
  - rewrite length_map, Hlen. reflexivity.
  - apply List.Forall_forall. intros x Hx. apply in_map_iff in Hx as (kv & <- & _).
    apply count_newline_member.
  - destruct d; [discriminate Hlen|discriminate].
Qed.

(** X9. After a completed run for [n >= 1] transactions,
    [transactions_.json] holds exactly [19 * n + 1] line breaks: a line for
    each bracket of the array and, for each record, a line for each brace
    and one for each of the 17 members.  No string value can add a line,
    since a line break inside a string is written as an escape. *)
Theorem X9_json_line_count :
  forall (R F : Type) (HR : RandomGen R) (HF : FakerGen F) (n : nat)
         (w : World R F) (fs : filesystem),
    (0 < n)%nat ->
    exit_code (run_script_of n w fs) = 0 ->
    exists text,
      fs_files (files (run_script_of n w fs)) !! "transactions_.json" = Some text
      /\ count_char newline text = (19 * n + 1)%nat.
Proof.
  intros R F HR HF n w fs Hn Hexit.
  destruct (run_script_of_done n w fs Hexit) as (data & w' & _ & Hrec & ->).
  exists (json_dumps_indent4 (obj_of_data data)).
  split; [apply lookup_insert_eq|].
  assert (Hlen : length data = n).
  { apply Forall2_length in Hrec. rewrite length_seq in Hrec. congruence. }
  assert (Hne : data <> []) by (intros ->; cbn in Hlen; lia).
  rewrite (json_dumps_records n data Hne Hrec). unfold records_json.
  rewrite !count_char_app.
  rewrite (count_char_join newline ("," ++ nl) 18 (map record_object data)).
  - rewrite length_map, Hlen.
    change (count_char newline "[") with 0%nat.
    change (count_char newline "]") with 0%nat.
    change (count_char newline nl) with 1%nat.
    change (count_char newline ("," ++ nl)) with 1%nat. lia.
  - apply List.Forall_forall. intros x Hx. apply in_map_iff in Hx as (d & <- & Hd).
    apply count_newline_object.
    assert (Hk : Forall (fun d => keys d = schema_fields) data).
    { eapply Forall2_seq_Forall; [|exact Hrec]. intros i d'. apply record_ok_keys. }
    rewrite List.Forall_forall in Hk. specialize (Hk d Hd).
    unfold keys in Hk. rewrite <- (length_map fst), Hk. reflexivity.
  - destruct data; [congruence|discriminate].
Qed.

Lemma X9_witness :
  (0 < 1)%nat
  /\ exit_code (run_script_of 1 zero_world (mkFS ∅ ∅)) = 0
  /\ exists text,
      fs_files (files (run_script_of 1 zero_world (mkFS ∅ ∅))) !! "transactions_.json"
      = Some text
      /\ count_char newline text = (19 * 1 + 1)%nat.
Proof.
  split; [lia|]. split; [exact zero_run_completes|].
  exact (X9_json_line_count _ _ _ _ 1%nat zero_world (mkFS ∅ ∅) ltac:(lia)
           zero_run_completes).
Defined.

(** ** The text of a date *)

(** The year within its 400-year era (counted from March), the month and
    the day, for a day [doe] of the era; the year is that of [civil_from_days]
    without the era's 400 years. *)
Definition civil_of_doe (doe : Z) : Z * Z * Z :=
  let yoe := (doe - doe / 1460 + doe / 36524 - doe / 146096) / 365 in
  let doy := doe - (365 * yoe + yoe / 4 - yoe / 100) in
  let mp := (5 * doy + 2) / 153 in
  let d := doy - (153 * mp + 2) / 5 + 1 in
  let m := if mp <? 10 then mp + 3 else mp - 9 in
  (if m <=? 2 then yoe + 1 else yoe, m, d).

Lemma civil_from_days_era (days : Z) :
  let era := (days + 719468) / 146097 in
  let doe := (days + 719468) - era * 146097 in
  civil_from_days days
  = let '(y, m, d) := civil_of_doe doe in (y + era * 400, m, d).
Proof.
  unfold civil_from_days, civil_of_doe. cbv zeta.
  destruct (_ <=? 2); [|reflexivity]. do 2 f_equal. lia.
Qed.

Definition doe_ok (doe : Z) : bool :=
  let '(y, m, d) := civil_of_doe doe in
  (0 <=? y) && (y <=? 400) && (1 <=? m) && (m <=? 12) && (1 <=? d) && (d <=? 31)
  && ((doe <? 306) || (1 <=? y)) && ((146036 <? doe) || (y <=? 399)).

Lemma doe_ok_all : all_below 146097 doe_ok 0 = true.
Proof. vm_cast_no_check (@eq_refl bool true). Qed.

(** The days of [datetime.min] and [datetime.max], counted from 1970-01-01. *)
Definition min_days : Z := -719162.
Definition max_days : Z := 2932896.

(** A day count that [datetime] represents is a date of a year from 1 to
    9999, with a month from 1 to 12 and a day from 1 to 31. *)
Lemma civil_from_days_range (days : Z) :
  min_days <= days <= max_days ->
  let '(y, m, d) := civil_from_days days in
  1 <= y <= 9999 /\ 1 <= m <= 12 /\ 1 <= d <= 31.
Proof.
  unfold min_days, max_days. intros Hdays.
  rewrite civil_from_days_era. cbv zeta.
  set (z := days + 719468).
  pose proof (Z.div_mod z 146097 ltac:(lia)) as Hdm.
  pose proof (Z.mod_pos_bound z 146097 ltac:(lia)) as Hmod.
  set (era := z / 146097) in *.
  set (doe := z - era * 146097).
  assert (Hdoe : 0 <= doe < 146097) by (subst doe; lia).
  assert (Hera : 0 <= era <= 24) by (subst z; lia).
  pose proof (all_below_spec _ _ _ doe_ok_all doe ltac:(lia)) as Hok.
  unfold doe_ok in Hok. destruct (civil_of_doe doe) as [[y m] d].
  repeat (apply andb_true_iff in Hok as [Hok ?]).
  repeat match goal with
         | H : (_ <=? _) = true |- _ => apply Z.leb_le in H
         | H : (_ || _) = true |- _ => apply orb_true_iff in H
         end.
  assert (Hlo : doe < 306 -> 1 <= era) by (subst doe z; lia).
  assert (Hhi : 146036 < doe -> era <= 23) by (subst doe z; lia).
  rewrite !Z.ltb_lt, !Z.leb_le in *. lia.
Qed.

(** A text [s] has the shape [pat] when it has the same length and every
    [9] of [pat] stands over a digit, every other character over itself. *)
Fixpoint has_shape (pat s : string) : bool :=
  match pat, s with
  | EmptyString, EmptyString => true
  | String p pat', String c s' =>
      (if Ascii.eqb p "9" then is_digit c else Ascii.eqb c p) && has_shape pat' s'
  | _, _ => false
  end.

Lemma has_shape_app (p1 p2 s1 s2 : string) :
  has_shape p1 s1 = true -> has_shape p2 s2 = true ->
  has_shape (p1 ++ p2) (s1 ++ s2) = true.
Proof.
  revert s1. induction p1 as [|p p1 IH]; intros [|c s1] H1 H2;
    try discriminate H1; [exact H2|].
  rewrite !append_String. cbn [has_shape] in *.
  apply andb_true_iff in H1 as [Hc H1]. rewrite Hc, (IH s1 H1 H2). reflexivity.
Qed.

Fixpoint nines (k : nat) : string :=
  match k with
  | O => ""
  | S k' => String "9" (nines k')
  end.

Lemma has_shape_digits (s : string) :
  all_digits s = true -> has_shape (nines (String.length s)) s = true.
Proof.
  induction s as [|c s IH]; [reflexivity|].
  cbn [all_digits String.length nines has_shape]. intros H.
  apply andb_true_iff in H as [Hc Hs]. rewrite (IH Hs).
  change (Ascii.eqb "9" "9") with true. cbv iota. rewrite Hc. reflexivity.
Qed.

Lemma has_shape_zfill (k : nat) (n : Z) :
  (1 <= k)%nat -> 0 <= n < 10 ^ Z.of_nat k ->
  has_shape (nines k) (zfill k (Z.to_N n)) = true.
Proof.
  intros Hk Hn.
  assert (HN : (Z.to_N n < 10 ^ N.of_nat k)%N).
  { apply N2Z.inj_lt. rewrite N2Z.inj_pow, Z2N.id, nat_N_Z by lia. apply Hn. }
  destruct (zfill_exact k (Z.to_N n) Hk HN) as [Hlen _].
  rewrite <- Hlen at 1. apply has_shape_digits, zfill_digits.
Qed.

(** [datetime.min] and [datetime.max], in microseconds from 1970-01-01. *)
Definition datetime_min : datetime := min_days * sec_per_day * usec_per_sec.
Definition datetime_max : datetime := (max_days + 1) * sec_per_day * usec_per_sec - 1.

(** The two shapes of [isoformat()]. *)
Definition iso_seconds : string := "9999-99-99T99:99:99".
Definition iso_microseconds : string := "9999-99-99T99:99:99.999999".

Lemma isoformat_shape (dt : datetime) :
  datetime_min <= dt <= datetime_max ->
  has_shape (if dt mod usec_per_sec =? 0 then iso_seconds else iso_microseconds)
    (isoformat dt) = true.
Proof.
  unfold datetime_min, datetime_max, min_days, max_days, sec_per_day, usec_per_sec.
  intros Hdt. unfold isoformat. cbv zeta.
  unfold sec_per_day, usec_per_sec.
  set (secs := dt / 1000000).
  set (us := dt mod 1000000).
  set (days := secs / 86400).
  set (sod := secs mod 86400).
  assert (Hus : 0 <= us < 1000000) by (apply Z.mod_pos_bound; lia).
  assert (Hsod : 0 <= sod < 86400) by (apply Z.mod_pos_bound; lia).
  assert (Hdays : min_days <= days <= max_days).
  { assert (Hsecs : -62135596800 <= secs <= 253402300799).
    { subst secs. split.
      - apply Z.div_le_lower_bound; lia.
      - apply Z.lt_succ_r, Z.div_lt_upper_bound; lia. }
    unfold min_days, max_days. subst days. split.
    - apply Z.div_le_lower_bound; lia.
    - apply Z.lt_succ_r, Z.div_lt_upper_bound; lia. }
  clearbody sod us days. clear Hdt secs.
  pose proof (civil_from_days_range days Hdays) as Hciv.
  destruct (civil_from_days days) as [[y m] d]. destruct Hciv as (Hy & Hm & Hd).
  assert (Hh : 0 <= sod / 3600 < 100).
  { split; [apply Z.div_pos; lia|apply Z.div_lt_upper_bound; lia]. }
  assert (Hmi : 0 <= sod mod 3600 / 60 < 100).
  { pose proof (Z.mod_pos_bound sod 3600 ltac:(lia)).
    split; [apply Z.div_pos; lia|apply Z.div_lt_upper_bound; lia]. }
  assert (Hs : 0 <= sod mod 60 < 100).
  { pose proof (Z.mod_pos_bound sod 60 ltac:(lia)). lia. }
  assert (Hdate :
    has_shape iso_seconds
      (zfill 4 (Z.to_N y) ++ "-" ++ zfill 2 (Z.to_N m) ++ "-" ++ zfill 2 (Z.to_N d)
       ++ "T" ++ zfill 2 (Z.to_N (sod / 3600)) ++ ":"
       ++ zfill 2 (Z.to_N (sod mod 3600 / 60)) ++ ":" ++ zfill 2 (Z.to_N (sod mod 60)))
    = true).
  { change iso_seconds
      with (nines 4 ++ "-" ++ nines 2 ++ "-" ++ nines 2 ++ "T" ++ nines 2 ++ ":"
            ++ nines 2 ++ ":" ++ nines 2).
    repeat (apply has_shape_app; [first [apply has_shape_zfill; [lia|cbn; lia]
                                        |reflexivity]|]).
    apply has_shape_zfill; [lia|cbn; lia]. }
  destruct (Z.eqb_spec us 0) as [E|E].
  - rewrite append_nil_r. exact Hdate.
  - change iso_microseconds with (iso_seconds ++ "." ++ nines 6).
    rewrite <- !append_assoc. rewrite <- !append_assoc in Hdate.
    apply has_shape_app; [apply has_shape_app; [exact Hdate|reflexivity]|].
    apply has_shape_zfill; [lia|cbn; lia].
Qed.

(** ** Reading the file back, value for value *)

(** A value of a generated record: any [int] or [str], and a float that is
    the nearest to some [k / 100] from 1.00 to 10000.00. *)
Definition exact (v : value) : Prop :=
  match v with
  | VFloat x => exists k, 100 <= Zpos k <= 1000000 /\ x = float_of_ratio k 100
  | _ => True
  end.

Lemma exact_plain (v : value) : exact v -> plain v.
Proof.
  destruct v as [z|x|s]; cbn [exact plain]; auto.
  intros (k & Hk & ->).
  apply (float_of_ratio_100_spec k). change (2 ^ 39) with 549755813888. lia.
Qed.

Lemma scan_value_exact (depth : nat) (v : value) (rest : string) :
  exact v -> ends_value rest ->
  scan_value (S depth) (json_text v ++ rest) = Some (obj_of_value v, rest).
Proof.
  intros Hv Hr. destruct v as [z|x|s]; cbn [json_text obj_of_value].
  - apply scan_value_int, Hr.
  - pose proof (exact_plain _ Hv) as Hn. cbn [plain] in Hn.
    destruct Hv as (k & Hk & ->).
    rewrite <- (float_repr_reads_back k rest Hk (or_intror Hr)).
    destruct (float_repr_normal _ Hn) as (j & d & ->).
    unfold fixed_repr.
    destruct (str_of_N_head (Z.to_N (j / 10 ^ d))) as (c & t & -> & Hc).
    rewrite !append_String. apply scan_value_digit, Hc.
  - apply scan_value_str.
Qed.

Lemma scan_members_exact (depth k1 k0 : nat) (d : dict) (rest : string) :
  d <> [] -> Forall exact (values d) ->
  forall fuel, (length d <= fuel)%nat ->
    scan_members (scan_value (S depth)) fuel
      (join ("," ++ newline_indent 4 k1) (map member_text d)
       ++ newline_indent 4 k0 ++ "}" ++ rest)
    = Some (map (fun kv => (fst kv, obj_of_value (snd kv))) d, rest).
Proof.
  intros Hne Hall. induction d as [|[k v] d IH]; [congruence|].
  intros fuel Hfuel. destruct fuel as [|fuel]; [cbn in Hfuel; lia|].
  cbn [length] in Hfuel. apply le_S_n in Hfuel.
  unfold values in Hall. cbn [map snd] in Hall.
  apply Forall_cons in Hall as [Hv Hall].
  pose proof (solid_json_text v (exact_plain v Hv)) as Hsolid.
  destruct d as [|kv d].
  - clear IH. cbn [map]. change (join _ [member_text (k, v)]) with (member_text (k, v)).
    set (t := newline_indent 4 k0 ++ "}" ++ rest).
    pose proof (scan_value_exact depth v t Hv (ends_value_newline_indent _ _ _)) as Ho.
    rewrite (scan_members_step _ fuel k v _ t Ho Hsolid).
    subst t. rewrite skip_ws_newline_indent. reflexivity.
  - cbn [map]. rewrite join_cons by discriminate.
    rewrite !append_assoc.
    set (t := "," ++ _).
    pose proof (scan_value_exact depth v t Hv (ends_value_comma _)) as Ho.
    rewrite (scan_members_step _ fuel k v _ t Ho Hsolid).
    subst t. rewrite append_String, append_nil_l. cbn [skip_ws].
    change (is_ws ",") with false. cbv match.
    rewrite skip_ws_newline_indent.
    pose proof (IH ltac:(discriminate) Hall fuel Hfuel) as E.
    cbn [map] in E. rewrite <- !append_assoc in E |- *.
    rewrite skip_ws_solid.
    2:{ rewrite !append_assoc. apply solid_app, solid_join; [discriminate|].
        constructor; [apply solid_member_text|].
        apply List.Forall_forall. intros x Hx. apply in_map_iff in Hx as (y & <- & _).
        apply solid_member_text. }
    rewrite !append_assoc in E |- *. rewrite E. reflexivity.
Qed.

(** A record the file gives back as it is. *)
Definition object_exact (d : dict) : Prop :=
  d <> [] /\ Forall exact (values d) /\ distinct (keys d) = true.

Lemma object_exact_ok (d : dict) : object_exact d -> object_ok d.
Proof.
  intros (Hne & Hall & Hk). split; [exact Hne|]. split; [|exact Hk].
  eapply Forall_impl; [exact Hall|]. apply exact_plain.
Qed.

Lemma scan_value_dict_exact (depth level : nat) (d : dict) (rest : string) :
  object_exact d ->
  scan_value (S (S depth)) (encode 4 level (obj_of_dict d) ++ rest)
  = Some (obj_of_dict d, rest).
Proof.
  intros Hd. pose proof (object_exact_ok d Hd) as (Hne & Hplain & Hkeys).
  destruct Hd as (_ & Hall & _).
  rewrite encode_dict by assumption.
  rewrite !append_assoc. rewrite append_String, append_nil_l.
  set (text := join _ _ ++ _).
  pose proof (scan_members_exact depth (S level) level d rest Hne Hall
                (String.length text)) as E.
  fold text in E.
  assert (Hhead : exists u, text = String dquote u) by (apply members_head, Hne).
  assert (Hskip : skip_ws (newline_indent 4 (S level) ++ text) = text).
  { rewrite skip_ws_newline_indent. apply skip_ws_solid.
    destruct Hhead as (u & ->). eexists _, _. split; reflexivity. }
  destruct Hhead as (u & Hu).
  rewrite (scan_value_brace _ _ u (eq_trans Hskip Hu)). rewrite <- Hu, E.
  - rewrite fold_dict_set; [reflexivity|]. cbn [app]. rewrite map_map. exact Hkeys.
  - subst text. rewrite length_append.
    pose proof (length_join ("," ++ newline_indent 4 (S level)) (map member_text d)) as Hl.
    rewrite length_map in Hl.
    assert (Hs : Forall solid (map member_text d)).
    { apply List.Forall_forall. intros x Hx. apply in_map_iff in Hx as (y & <- & _).
      apply solid_member_text. }
    specialize (Hl Hs). lia.
Qed.

Lemma scan_items_exact (depth : nat) (data : list dict) (rest : string) :
  data <> [] -> Forall object_exact data ->
  forall fuel, (length data <= fuel)%nat ->
    scan_items (scan_value (S (S depth))) fuel
      (join ("," ++ newline_indent 4 1) (object_texts data)
       ++ newline_indent 4 0 ++ "]" ++ rest)
    = Some (map obj_of_dict data, rest).
Proof.
  intros Hne Hall. induction data as [|d data IH]; [congruence|].
  intros fuel Hfuel. destruct fuel as [|fuel]; [cbn in Hfuel; lia|].
  cbn [length] in Hfuel. apply le_S_n in Hfuel.
  apply Forall_cons in Hall as [Hd Hall].
  destruct data as [|d' data].
  - clear IH. unfold object_texts. cbn [map].
    change (join _ [encode 4 1 (obj_of_dict d)]) with (encode 4 1 (obj_of_dict d)).
    set (t := newline_indent 4 0 ++ "]" ++ rest).
    rewrite (scan_items_step _ fuel _ _ t (scan_value_dict_exact depth 1 d t Hd)).
    subst t. rewrite skip_ws_newline_indent. reflexivity.
  - unfold object_texts in *. cbn [map] in *. rewrite join_cons by discriminate.
    rewrite !append_assoc.
    set (t := "," ++ _).
    rewrite (scan_items_step _ fuel _ _ t (scan_value_dict_exact depth 1 d t Hd)).
    subst t. rewrite append_String, append_nil_l. cbn [skip_ws].
    change (is_ws ",") with false. cbv match.
    rewrite skip_ws_newline_indent.
    pose proof (IH ltac:(discriminate) Hall fuel Hfuel) as E.
    assert (Hok : Forall object_ok (d' :: data)).
    { eapply Forall_impl; [exact Hall|]. apply object_exact_ok. }
    rewrite skip_ws_solid.
    2:{ apply solid_app.
        apply (solid_join _ (object_texts (d' :: data))); [discriminate|].
        apply solid_object_texts, Hok. }
    rewrite E. reflexivity.
Qed.

(** The records come back as they were written. *)
Lemma json_loads_exact (data : list dict) :
  Forall object_exact data ->
  json_loads (json_dumps_indent4 (obj_of_data data)) = Some (obj_of_data data).
Proof.
  intros Hall. destruct data as [|d data]; [reflexivity|].
  assert (Hok : Forall object_ok (d :: data)).
  { eapply Forall_impl; [exact Hall|]. apply object_exact_ok. }
  unfold json_dumps_indent4, obj_of_data. cbn [encode].
  change (map (encode 4 1) (map obj_of_dict (d :: data))) with (object_texts (d :: data)).
  set (text := join ("," ++ newline_indent 4 1) (object_texts (d :: data))
               ++ newline_indent 4 0 ++ "]" ++ "").
  assert (Hsolid : solid text).
  { apply solid_app, solid_join; [discriminate|apply solid_object_texts, Hok]. }
  assert (Hhead : exists u, text = String "{" u).
  { subst text. unfold object_texts. cbn [map].
    pose proof Hok as Hok'. apply Forall_cons in Hok' as [Hd _].
    destruct (encode_dict_head 1 d Hd) as (u & Eu).
    destruct data as [|d' data]; cbn [map].
    - change (join _ [encode 4 1 (obj_of_dict d)]) with (encode 4 1 (obj_of_dict d)).
      rewrite Eu, append_String. eauto.
    - rewrite join_cons by discriminate. rewrite Eu, !append_String. eauto. }
  pose proof (scan_items_exact 997 (d :: data) "" ltac:(discriminate) Hall
                (String.length text)) as E.
  fold text in E.
  unfold json_loads.
  assert (Hall_text :
    "[" ++ newline_indent 4 1 ++ join ("," ++ newline_indent 4 1) (object_texts (d :: data))
    ++ newline_indent 4 0 ++ "]" = String "[" (newline_indent 4 1 ++ text)).
  { subst text. rewrite append_nil_r. reflexivity. }
  rewrite Hall_text. clear Hall_text.
  change (skip_ws (String "[" (newline_indent 4 1 ++ text)))
    with (String "[" (newline_indent 4 1 ++ text)).
  destruct Hhead as (u & Hu).
  assert (Hskip : skip_ws (newline_indent 4 1 ++ text) = String "{" u).
  { rewrite skip_ws_newline_indent, (skip_ws_solid text Hsolid). exact Hu. }
  change recursion_limit with (S (S (S 997))).
  rewrite (scan_value_bracket _ _ u Hskip). rewrite <- Hu, E; [reflexivity|].
  subst text. rewrite length_append.
  pose proof (length_join ("," ++ newline_indent 4 1) (object_texts (d :: data))
                (solid_object_texts _ Hok)) as Hl.
  unfold object_texts in Hl at 1. rewrite !length_map in Hl. lia.
Qed.

Section RecordsExact.
Context {R F : Type} {HR : RandomGen R} {HF : FakerGen F}.

Lemma rounded_uniform_exact (a b : Z) (x : float) :
1 <= a -> b <= 10000 -> rounded_uniform a b x -> exact (VFloat x).
Proof.
intros Ha Hb (m & k & _ & _ & -> & Hk). exists k. split; [lia|reflexivity].
Qed.

Lemma record_ok_object_exact (i : nat) (d : dict) : record_ok i d -> object_exact d.
Proof.
intros H. pose proof (record_ok_keys i d H) as Hk. record_fields H.
split; [discriminate|]. split; [|rewrite Hk; reflexivity].
unfold values. cbn [map snd].
repeat constructor.
- apply (rounded_uniform_exact 10 10000); [lia|lia|exact Ham].
- apply (rounded_uniform_exact 1 50); [lia|lia|exact Hfee].
Qed.

End RecordsExact.

(** X11. Reading [transactions_.json] back after a completed run gives
    exactly the records in memory: the same list of objects, with the same
    keys in the same order, the same integers and strings, and for [Amount]
    and [Fee] the same floats, bit for bit. *)
Theorem X11_json_reads_back_exactly :
  forall (R F : Type) (HR : RandomGen R) (HF : FakerGen F) (n : nat)
         (w : World R F) (fs : filesystem),
    exit_code (run_script_of n w fs) = 0 ->
    exists data w' text,
      transactions_data_of n w = Ok (data, w')
      /\ fs_files (files (run_script_of n w fs)) !! "transactions_.json" = Some text
      /\ json_loads text = Some (obj_of_data data).
Proof.
  intros R F HR HF n w fs Hexit.
  destruct (run_script_of_done n w fs Hexit) as (data & w' & E & Hrec & ->).
  exists data, w', (json_dumps_indent4 (obj_of_data data)).
  split; [exact E|]. split; [apply lookup_insert_eq|].
  apply json_loads_exact.
  eapply Forall2_seq_Forall; [|exact Hrec]. intros i d. apply record_ok_object_exact.
Qed.

Lemma X11_witness :
  exit_code (run_script_of 1 zero_world (mkFS ∅ ∅)) = 0
  /\ exists data w' text,
      transactions_data_of 1 zero_world = Ok (data, w')
      /\ fs_files (files (run_script_of 1 zero_world (mkFS ∅ ∅))) !! "transactions_.json"
         = Some text
      /\ json_loads text = Some (obj_of_data data).
Proof.
  split; [exact zero_run_completes|].
  exact (X11_json_reads_back_exactly _ _ _ _ 1%nat zero_world (mkFS ∅ ∅)
           zero_run_completes).
Defined.

(** ** The lines of the CSV file *)

Lemma count_newline_double_quotes (s : string) :
  count_char newline (double_quotes s) = count_char newline s.
Proof.
  induction s as [|c s IH]; [reflexivity|].
  cbn [double_quotes]. destruct (Ascii.eqb_spec c dquote) as [->|Hc].
  - cbn [count_char]. rewrite IH. reflexivity.
  - cbn [count_char]. rewrite IH. reflexivity.
Qed.

(** Quoting a field adds no line break and removes none. *)
Lemma count_newline_csv_field (s : string) :
  count_char newline (csv_field s) = count_char newline s.
Proof.
  unfold csv_field. destruct (needs_quoting s); [|reflexivity].
  cbn [count_char]. rewrite count_char_app, count_newline_double_quotes.
  cbn. lia.
Qed.

Lemma count_newline_float_repr (x : float) : count_char newline (float_repr x) = 0%nat.
Proof. apply count_newline_printable, (printable_json_text (VFloat x)). Qed.

Lemma count_newline_str_of_Z (z : Z) : count_char newline (str_of_Z z) = 0%nat.
Proof. apply count_newline_printable, printable_str_of_Z. Qed.

Lemma count_newline_verbatim (s : string) :
  all_chars verbatim_char s = true -> count_char newline (csv_field s) = 0%nat.
Proof.
  intros H. rewrite (csv_field_verbatim s H).
  apply count_newline_printable. revert H. apply all_chars_impl.
  intros c Hc. unfold verbatim_char in Hc. unfold printable.
  do 3 (apply andb_true_iff in Hc as [Hc _]). exact Hc.
Qed.

Lemma count_newline_unlines (ls : list string) :
  count_char newline (unlines ls)
  = (length ls + list_sum (map (count_char newline) ls))%nat.
Proof.
  induction ls as [|l ls IH]; [reflexivity|].
  cbn [unlines length map]. rewrite !count_char_app, IH.
  change (list_sum (count_char newline l :: map (count_char newline) ls))
    with (count_char newline l + list_sum (map (count_char newline) ls))%nat.
  change (count_char newline nl) with 1%nat. lia.
Qed.

(** The line breaks in the five strings of a record that come from Faker. *)
Definition faker_line_breaks (d : dict) : nat :=
  list_sum
    (map (fun k =>
            match dict_get k d with
            | Some (VStr s) => count_char newline s
            | _ => 0%nat
            end)
       ["ClientFullName"; "AgentFullName"; "OriginalCountry"; "DestinationCountry";
        "Icon"]).

Section CsvLines.
Context {R F : Type} {HR : RandomGen R} {HF : FakerGen F}.

Lemma count_newline_row (i : nat) (d : dict) :
record_ok i d ->
count_char newline (join "," (map csv_text (values d))) = faker_line_breaks d.
Proof.
intros H. record_fields H.
unfold values, faker_line_breaks. cbn [map snd dict_get String.eqb Ascii.eqb Bool.eqb].
cbn [join String.concat csv_text list_sum].
rewrite !count_char_app, !count_newline_str_of_Z, !count_newline_float_repr.
rewrite !count_newline_csv_field.
change (count_char newline ",") with 0%nat.
rewrite <- !(count_newline_csv_field code), <- !(count_newline_csv_field cur),
  <- !(count_newline_csv_field st), <- !(count_newline_csv_field cat),
  <- !(count_newline_csv_field (isoformat _)).
rewrite (count_newline_verbatim code) by (apply verbatim_code, Hcode).
rewrite (count_newline_verbatim cur) by (apply verbatim_enums; auto).
rewrite (count_newline_verbatim st) by (apply verbatim_enums; auto).
rewrite (count_newline_verbatim cat) by (apply verbatim_enums; auto).
rewrite !count_newline_verbatim by apply verbatim_isoformat.
unfold list_sum. cbn [fold_right]. lia.
Qed.

End CsvLines.

(** X12. After a completed run for [n >= 1] transactions, the line breaks
    of [transactions_.csv] are one for the header, one for each record, and
    those inside the five strings Faker supplied (names, countries, URL):
    a record takes one line unless one of these strings holds a line
    break. *)
Theorem X12_csv_line_count :
  forall (R F : Type) (HR : RandomGen R) (HF : FakerGen F) (n : nat)
         (w : World R F) (fs : filesystem),
    (0 < n)%nat ->
    exit_code (run_script_of n w fs) = 0 ->
    exists data w' text,
      transactions_data_of n w = Ok (data, w')
      /\ fs_files (files (run_script_of n w fs)) !! "transactions_.csv" = Some text
      /\ count_char newline text
         = (n + 1 + list_sum (map faker_line_breaks data))%nat.
Proof.
  intros R F HR HF n w fs Hn Hexit.
  destruct (run_script_of_done n w fs Hexit) as (data & w' & E & Hrec & ->).
  exists data, w', (to_csv data). split; [exact E|].
  split.
  { unfold csv_path, json_path. rewrite lookup_insert_ne by discriminate.
    apply lookup_insert_eq. }
  assert (Hlen : length data = n).
  { apply Forall2_length in Hrec. rewrite length_seq in Hrec. congruence. }
  assert (Hne : data <> []) by (intros ->; cbn in Hlen; lia).
  rewrite (to_csv_records n data Hne Hrec). unfold records_csv.
  rewrite count_newline_unlines. cbn [length map]. rewrite length_map, Hlen.
  change (list_sum (?x :: ?l)) with (x + list_sum l)%nat.
  change (count_char newline (join "," schema_fields)) with 0%nat.
  rewrite map_map.
  assert (Hrows : map (fun d => count_char newline (join "," (map csv_text (values d)))) data
                  = map faker_line_breaks data).
  { clear - Hrec. remember (seq 0 n) as is_ eqn:Eis. clear Eis.
    induction Hrec as [|i d is_ ds Hd _ IH]; [reflexivity|].
    cbn [map]. rewrite IH, (count_newline_row i d Hd). reflexivity. }
  rewrite Hrows. lia.
Qed.

Lemma X12_witness :
  (0 < 1)%nat
  /\ exit_code (run_script_of 1 zero_world (mkFS ∅ ∅)) = 0
  /\ exists data w' text,
      transactions_data_of 1 zero_world = Ok (data, w')
      /\ fs_files (files (run_script_of 1 zero_world (mkFS ∅ ∅))) !! "transactions_.csv"
         = Some text
      /\ count_char newline text
         = (1 + 1 + list_sum (map faker_line_breaks data))%nat.
Proof.
  split; [lia|]. split; [exact zero_run_completes|].
  exact (X12_csv_line_count _ _ _ _ 1%nat zero_world (mkFS ∅ ∅) ltac:(lia)
           zero_run_completes).
Defined.

(** ** The text of an amount *)






Section AmountText.
Context {R F : Type} {HR : RandomGen R} {HF : FakerGen F}.


End AmountText.


(** ** The two sources of a record *)

Section SourceProps.
Context {R F : Type} {HR : RandomGen R} {HF : FakerGen F}.

(** Two runs of [c] from related worlds end alike: with the same value,
  in related worlds, or with the same exception. *)
Definition agree (rel : World R F -> World R F -> Prop) {A} (c : M R F A) : Prop :=
forall w1 w2, rel w1 w2 ->
  match c w1, c w2 with
  | Ok (a1, w1'), Ok (a2, w2') => a1 = a2 /\ rel w1' w2'
  | Raise e1, Raise e2 => e1 = e2
  | _, _ => False
  end.

Lemma agree_ret rel {A} (a : A) : agree rel (ret a).
Proof. intros w1 w2 H. cbn. auto. Qed.

Lemma agree_raise rel {A} (e : exn) : agree rel (raise e : M R F A).
Proof. intros w1 w2 H. reflexivity. Qed.

Lemma agree_bind rel {A B} (c : M R F A) (k : A -> M R F B) :
agree rel c -> (forall a, agree rel (k a)) -> agree rel (bind c k).
Proof.
intros Hc Hk w1 w2 H. unfold bind. specialize (Hc w1 w2 H).
destruct (c w1) as [[a1 w1']|e1], (c w2) as [[a2 w2']|e2]; try contradiction.
- destruct Hc as [<- H']. apply Hk, H'.
- exact Hc.
Qed.

(** [c] leaves the state of the [random] module as it was. *)
Definition preserves_random {A} (c : M R F A) : Prop :=
forall w,
  match c w with
  | Ok (_, w') => w_random w' = w_random w
  | Raise _ => True
  end.

(** [c] leaves the Faker object and the clock as they were. *)
Definition preserves_faker {A} (c : M R F A) : Prop :=
forall w,
  match c w with
  | Ok (_, w') =>
      w_faker w' = w_faker w /\ w_clock w' = w_clock w /\ w_ticks w' = w_ticks w
  | Raise _ => True
  end.

Lemma preserves_random_with_faker {A} (f : F -> A * F) : preserves_random (with_faker f).
Proof. intros w. unfold with_faker. destruct (f _). reflexivity. Qed.

Lemma preserves_random_random_datetime (start end_ : string) :
preserves_random (random_datetime start end_).
Proof.
intros w. unfold random_datetime, bind, now, with_faker. cbn.
destruct (fk_date_time_between _ _ _ _). reflexivity.
Qed.

Lemma preserves_faker_ret {A} (a : A) : preserves_faker (ret a).
Proof. intros w. cbn. auto. Qed.

Lemma preserves_faker_raise {A} (e : exn) : preserves_faker (raise e : M R F A).
Proof. intros w. exact I. Qed.

Lemma preserves_faker_bind {A B} (c : M R F A) (k : A -> M R F B) :
preserves_faker c -> (forall a, preserves_faker (k a)) -> preserves_faker (bind c k).
Proof.
intros Hc Hk w. unfold bind. specialize (Hc w).
destruct (c w) as [[a w']|e]; [|exact I].
specialize (Hk a w'). destruct (k a w') as [[b w'']|e]; [|exact I].
destruct Hc as (H1 & H2 & H3), Hk as (H4 & H5 & H6).
repeat split; congruence.
Qed.

Lemma preserves_faker_with_random {A} (f : R -> A * R) : preserves_faker (with_random f).
Proof. intros w. unfold with_random. destruct (f _). cbn. auto. Qed.

Lemma preserves_faker_random : preserves_faker random.
Proof.
apply preserves_faker_bind; [apply preserves_faker_with_random|].
intros m. apply preserves_faker_ret.
Qed.

Lemma preserves_faker_randint (a b : Z) : preserves_faker (randint a b).
Proof.
unfold randint. destruct (_ <=? 0); [apply preserves_faker_raise|].
apply preserves_faker_bind; [apply preserves_faker_with_random|].
intros k. apply preserves_faker_ret.
Qed.

Lemma preserves_faker_choice {A} (seq : list A) : preserves_faker (choice seq).
Proof.
unfold choice. destruct seq as [|x seq]; [apply preserves_faker_raise|].
apply preserves_faker_bind; [apply preserves_faker_with_random|].
intros i. destruct (nth_error _ _); [apply preserves_faker_ret|apply preserves_faker_raise].
Qed.

Lemma preserves_faker_uniform (a b : Z) : preserves_faker (uniform a b).
Proof.
apply preserves_faker_bind; [apply preserves_faker_random|].
intros r. apply preserves_faker_ret.
Qed.

Lemma preserves_faker_getitem {A} (seq : list A) (i : Z) : preserves_faker (getitem seq i).
Proof.
unfold getitem. cbv zeta. destruct (_ && _); [|apply preserves_faker_raise].
destruct (nth_error _ _); [apply preserves_faker_ret|apply preserves_faker_raise].
Qed.

Lemma preserves_faker_choices {A} (population : list A) (k : nat) :
preserves_faker (choices population k).
Proof.
induction k as [|k IH]; cbn [choices]; [apply preserves_faker_ret|].
apply preserves_faker_bind; [apply preserves_faker_random|]. intros r.
destruct (py_floor _); [|apply preserves_faker_raise].
apply preserves_faker_bind; [apply preserves_faker_getitem|]. intros x.
apply preserves_faker_bind; [exact IH|]. intros xs. apply preserves_faker_ret.
Qed.

Lemma preserves_faker_generate_transaction_code :
preserves_faker generate_transaction_code.
Proof.
apply preserves_faker_bind; [apply preserves_faker_choices|].
intros cs. apply preserves_faker_ret.
Qed.

(** *** The same state of the [random] module *)

Definition same_random (w1 w2 : World R F) : Prop := w_random w1 = w_random w2.

Lemma agree_random_with_random {A} (f : R -> A * R) : agree same_random (with_random f).
Proof.
intros w1 w2 H. unfold with_random, same_random in *. rewrite H.
destruct (f _). split; reflexivity.
Qed.

Lemma agree_random_random : agree same_random random.
Proof.
apply agree_bind; [apply agree_random_with_random|]. intros m. apply agree_ret.
Qed.

Lemma agree_random_randint (a b : Z) : agree same_random (randint a b).
Proof.
unfold randint. destruct (_ <=? 0); [apply agree_raise|].
apply agree_bind; [apply agree_random_with_random|]. intros k. apply agree_ret.
Qed.

Lemma agree_random_choice {A} (seq : list A) : agree same_random (choice seq).
Proof.
unfold choice. destruct seq as [|x seq]; [apply agree_raise|].
apply agree_bind; [apply agree_random_with_random|].
intros i. destruct (nth_error _ _); [apply agree_ret|apply agree_raise].
Qed.

Lemma agree_random_uniform (a b : Z) : agree same_random (uniform a b).
Proof.
apply agree_bind; [apply agree_random_random|]. intros r. apply agree_ret.
Qed.

Lemma agree_getitem rel {A} (seq : list A) (i : Z) : agree rel (getitem seq i).
Proof.
unfold getitem. cbv zeta. destruct (_ && _); [|apply agree_raise].
destruct (nth_error _ _); [apply agree_ret|apply agree_raise].
Qed.

Lemma agree_random_choices {A} (population : list A) (k : nat) :
agree same_random (choices population k).
Proof.
induction k as [|k IH]; cbn [choices]; [apply agree_ret|].
apply agree_bind; [apply agree_random_random|]. intros r.
destruct (py_floor _); [|apply agree_raise].
apply agree_bind; [apply agree_getitem|]. intros x.
apply agree_bind; [exact IH|]. intros xs. apply agree_ret.
Qed.

Lemma agree_random_generate_transaction_code :
agree same_random generate_transaction_code.
Proof.
apply agree_bind; [apply agree_random_choices|]. intros cs. apply agree_ret.
Qed.

(** *** The same Faker object and the same clock readings *)

Definition same_faker (w1 w2 : World R F) : Prop :=
w_faker w1 = w_faker w2
/\ forall i, w_clock w1 (w_ticks w1 + i)%nat = w_clock w2 (w_ticks w2 + i)%nat.

Lemma agree_faker_with_faker {A} (f : F -> A * F) : agree same_faker (with_faker f).
Proof.
intros w1 w2 [Hf Hc]. unfold with_faker. rewrite Hf.
destruct (f _). split; [reflexivity|]. split; [reflexivity|exact Hc].
Qed.

Lemma agree_faker_random_datetime (start end_ : string) :
agree same_faker (random_datetime start end_).
Proof.
intros w1 w2 [Hf Hc]. unfold random_datetime, bind, now, with_faker. cbn.
pose proof (Hc 0%nat) as H0. rewrite !Nat.add_0_r in H0. rewrite H0, Hf.
destruct (fk_date_time_between _ _ _ _). split; [reflexivity|].
split; [reflexivity|]. cbn. intros i. specialize (Hc (S i)).
rewrite !Nat.add_succ_r in Hc. exact Hc.
Qed.

End SourceProps.

Create HintDb sources discriminated.

#[export] Hint Resolve agree_random_generate_transaction_code agree_random_randint
  agree_random_uniform agree_random_choice agree_faker_with_faker
  agree_faker_random_datetime preserves_random_with_faker
  preserves_random_random_datetime preserves_faker_generate_transaction_code
  preserves_faker_randint preserves_faker_uniform preserves_faker_choice : sources.

(** The fields drawn through the [random] module, and those drawn through
    the Faker object. *)
Definition random_fields : list string :=
  [ "TransactionID"; "TransactionCode"; "ClientID"; "AgentID"; "Amount"; "Currency";
    "Fee"; "TransactionStatus"; "Category"; "IsFraudulent" ].

Definition faker_fields : list string :=
  [ "ClientFullName"; "AgentFullName"; "TransactionDate"; "OriginalCountry";
    "DestinationCountry"; "StatusDate"; "Icon" ].

Definition agree_on (ks : list string) (r1 r2 : dict) : Prop :=
  Forall (fun k => dict_get k r1 = dict_get k r2) ks.

Section TwoRuns.
Context {R F : Type} {HR : RandomGen R} {HF : FakerGen F}.

(** One step of two runs of a record, for a call that agrees. *)
Ltac agree_step rel :=
match goal with
| Hr : rel ?x ?y
  |- (match ?c ?x with Ok _ => _ | Raise _ => _ end = _) ->
     (match ?c ?y with Ok _ => _ | Raise _ => _ end = _) -> _ =>
    let Ha := fresh "Ha" in
    assert (Ha : agree rel c) by auto with sources;
    specialize (Ha x y Hr); clear Hr;
    destruct (c x) as [[? ?]|?]; [|let E := fresh in intros E; discriminate E];
    destruct (c y) as [[? ?]|?]; [|contradiction];
    destruct Ha as [<- Hr]
end.

Ltac random_frame_step :=
match goal with
| Hr : same_random ?x ?y
  |- (match ?c ?x with Ok _ => _ | Raise _ => _ end = _) ->
     (match ?c ?y with Ok _ => _ | Raise _ => _ end = _) -> _ =>
    let Hp := fresh "Hp" in
    assert (Hp : preserves_random c) by auto with sources;
    let H1 := fresh "H1" in let H2 := fresh "H2" in
    pose proof (Hp x) as H1; pose proof (Hp y) as H2; clear Hp;
    destruct (c x) as [[? ?]|?]; [|let E := fresh in intros E; discriminate E];
    destruct (c y) as [[? ?]|?]; [|let E := fresh in intros _ E; discriminate E];
    match type of H1 with
    | w_random ?a = _ =>
        match type of H2 with
        | w_random ?b = _ =>
            let Hn := fresh "Hr" in
            assert (Hn : same_random a b) by (unfold same_random in *; congruence)
        end
    end;
    clear Hr H1 H2
end.

Ltac faker_frame_step :=
match goal with
| Hr : same_faker ?x ?y
  |- (match ?c ?x with Ok _ => _ | Raise _ => _ end = _) ->
     (match ?c ?y with Ok _ => _ | Raise _ => _ end = _) -> _ =>
    let Hp := fresh "Hp" in
    assert (Hp : preserves_faker c) by auto with sources;
    let H1 := fresh "H1" in let H2 := fresh "H2" in
    pose proof (Hp x) as H1; pose proof (Hp y) as H2; clear Hp;
    destruct (c x) as [[? ?]|?]; [|let E := fresh in intros E; discriminate E];
    destruct (c y) as [[? ?]|?]; [|let E := fresh in intros _ E; discriminate E];
    destruct H1 as (H1 & ? & ?), H2 as (H2 & ? & ?);
    match type of H1 with
    | w_faker ?a = _ =>
        match type of H2 with
        | w_faker ?b = _ =>
            let Hn := fresh "Hr" in
            assert (Hn : same_faker a b) by
              (destruct Hr as [Hf Hc]; split; [congruence|];
               intros j; specialize (Hc j); congruence)
        end
    end;
    clear Hr H1 H2
end.

Lemma transaction_same_random (i : nat) (w1 w2 : World R F) :
same_random w1 w2 ->
forall r1 w1' r2 w2',
  transaction i w1 = Ok (r1, w1') -> transaction i w2 = Ok (r2, w2') ->
  agree_on random_fields r1 r2 /\ same_random w1' w2'.
Proof.
intros Hr r1 w1' r2 w2'. unfold transaction, bind.
repeat first [agree_step (@same_random R F)|random_frame_step].
unfold ret. intros [= <- <-] [= <- <-]. split; [|assumption].
unfold agree_on, random_fields. repeat constructor.
Qed.

Lemma transaction_same_faker (i : nat) (w1 w2 : World R F) :
same_faker w1 w2 ->
forall r1 w1' r2 w2',
  transaction i w1 = Ok (r1, w1') -> transaction i w2 = Ok (r2, w2') ->
  agree_on faker_fields r1 r2 /\ same_faker w1' w2'.
Proof.
intros Hr r1 w1' r2 w2'. unfold transaction, bind.
repeat first [agree_step (@same_faker R F)|faker_frame_step].
unfold ret. intros [= <- <-] [= <- <-]. split; [|assumption].
unfold agree_on, faker_fields. repeat constructor.
Qed.

(** Two runs of a comprehension whose steps keep [rel] and give values
  related by [P]. *)
Lemma comprehension_two_runs {A} (rel : World R F -> World R F -> Prop)
  (P : A -> A -> Prop) (f : nat -> M R F A) :
(forall i w1 w2, rel w1 w2 ->
   forall a1 w1' a2 w2', f i w1 = Ok (a1, w1') -> f i w2 = Ok (a2, w2') ->
     P a1 a2 /\ rel w1' w2') ->
forall count start w1 w2, rel w1 w2 ->
  forall l1 w1' l2 w2',
    comprehension f start count w1 = Ok (l1, w1') ->
    comprehension f start count w2 = Ok (l2, w2') ->
    Forall2 P l1 l2 /\ rel w1' w2'.
Proof.
intros Hf. induction count as [|count IH]; intros start w1 w2 Hr l1 w1' l2 w2'.
- cbn [comprehension]. unfold ret. intros [= <- <-] [= <- <-]. split; [constructor|exact Hr].
- cbn [comprehension]. unfold bind, ret.
  destruct (f start w1) as [[a1 x1]|e1] eqn:E1; [|discriminate].
  destruct (f start w2) as [[a2 x2]|e2] eqn:E2; [|let E := fresh in intros _ E; discriminate E].
  destruct (Hf start w1 w2 Hr _ _ _ _ E1 E2) as [Ha Hr'].
  destruct (comprehension f (S start) count x1) as [[t1 y1]|] eqn:T1; [|discriminate].
  destruct (comprehension f (S start) count x2) as [[t2 y2]|] eqn:T2;
    [|let E := fresh in intros _ E; discriminate E].
  destruct (IH (S start) x1 x2 Hr' _ _ _ _ T1 T2) as [Ht Hr''].
  intros [= <- <-] [= <- <-]. split; [constructor; assumption|exact Hr''].
Qed.

End TwoRuns.

(** X14. The ten fields drawn through the [random] module (and the index)
    depend on the state of that module only: two runs that start from the
    same [random] state give records that agree on [TransactionID],
    [TransactionCode], [ClientID], [AgentID], [Amount], [Currency], [Fee],
    [TransactionStatus], [Category] and [IsFraudulent], whatever the Faker
    object returns and whatever the clock reads. *)
Theorem X14_random_fields :
  forall (R F : Type) (HR : RandomGen R) (HF : FakerGen F) (n : nat)
         (w1 w2 : World R F),
    w_random w1 = w_random w2 ->
    exists data1 data2 w1' w2',
      transactions_data_of n w1 = Ok (data1, w1')
      /\ transactions_data_of n w2 = Ok (data2, w2')
      /\ Forall2 (fun r1 r2 =>
                    Forall (fun k => dict_get k r1 = dict_get k r2)
                      [ "TransactionID"; "TransactionCode"; "ClientID"; "AgentID";
                        "Amount"; "Currency"; "Fee"; "TransactionStatus";
                        "Category"; "IsFraudulent" ]) data1 data2.
Proof.
  intros R F HR HF n w1 w2 Hr.
  destruct (ensures_transactions_data_of n w1) as (data1 & w1' & E1 & _).
  destruct (ensures_transactions_data_of n w2) as (data2 & w2' & E2 & _).
  exists data1, data2, w1', w2'. split; [exact E1|]. split; [exact E2|].
  unfold transactions_data_of in *.
  destruct (comprehension_two_runs same_random (agree_on random_fields) transaction
              (fun i => transaction_same_random i) n 0%nat w1 w2 Hr _ _ _ _ E1 E2)
    as [H _].
  exact H.
Qed.

(** Two worlds with the same tape of [random] draws, different Faker tapes
    and different clocks. *)
Definition same_seed_a : World (list N) (list N) :=
  mkWorld [3; 1; 4; 1; 5; 9; 2; 6]%N [1; 2; 3]%N (stopped_clock sample_time) 0.

Definition same_seed_b : World (list N) (list N) :=
  mkWorld [3; 1; 4; 1; 5; 9; 2; 6]%N [7; 7]%N
    (stopped_clock (sample_time + 86400 * usec_per_sec)) 5.

Lemma X14_witness :
  w_random same_seed_a = w_random same_seed_b
  /\ exists data1 data2 w1' w2',
      transactions_data_of 2 same_seed_a = Ok (data1, w1')
      /\ transactions_data_of 2 same_seed_b = Ok (data2, w2')
      /\ Forall2 (fun r1 r2 =>
                    Forall (fun k => dict_get k r1 = dict_get k r2)
                      [ "TransactionID"; "TransactionCode"; "ClientID"; "AgentID";
                        "Amount"; "Currency"; "Fee"; "TransactionStatus";
                        "Category"; "IsFraudulent" ]) data1 data2.
Proof.
  split; [reflexivity|].
  exact (X14_random_fields _ _ _ _ 2%nat same_seed_a same_seed_b eq_refl).
Defined.

(** X15. The seven fields drawn through the Faker object depend on the
    state of that object and on the clock readings only: two runs that
    start from the same Faker state and read the same clock values give
    records that agree on [ClientFullName], [AgentFullName],
    [TransactionDate], [OriginalCountry], [DestinationCountry],
    [StatusDate] and [Icon], whatever the state of the [random] module:
    seeding [random] does not fix them. *)
Theorem X15_faker_fields :
  forall (R F : Type) (HR : RandomGen R) (HF : FakerGen F) (n : nat)
         (w1 w2 : World R F),
    w_faker w1 = w_faker w2 ->
    (forall i, w_clock w1 (w_ticks w1 + i)%nat = w_clock w2 (w_ticks w2 + i)%nat) ->
    exists data1 data2 w1' w2',
      transactions_data_of n w1 = Ok (data1, w1')
      /\ transactions_data_of n w2 = Ok (data2, w2')
      /\ Forall2 (fun r1 r2 =>
                    Forall (fun k => dict_get k r1 = dict_get k r2)
                      [ "ClientFullName"; "AgentFullName"; "TransactionDate";
                        "OriginalCountry"; "DestinationCountry"; "StatusDate";
                        "Icon" ]) data1 data2.
Proof.
  intros R F HR HF n w1 w2 Hf Hc.
  destruct (ensures_transactions_data_of n w1) as (data1 & w1' & E1 & _).
  destruct (ensures_transactions_data_of n w2) as (data2 & w2' & E2 & _).
  exists data1, data2, w1', w2'. split; [exact E1|]. split; [exact E2|].
  unfold transactions_data_of in *.
  destruct (comprehension_two_runs same_faker (agree_on faker_fields) transaction
              (fun i => transaction_same_faker i) n 0%nat w1 w2 (conj Hf Hc)
              _ _ _ _ E1 E2) as [H _].
  exact H.
Qed.

(** Two worlds with the same Faker tape and the same clock, and different
    tapes of [random] draws. *)
Definition same_faker_a : World (list N) (list N) :=
  mkWorld [3; 1; 4; 1; 5; 9; 2; 6]%N [1; 2; 3]%N (stopped_clock sample_time) 0.

Definition same_faker_b : World (list N) (list N) :=
  mkWorld [2; 7; 1; 8; 2; 8]%N [1; 2; 3]%N (stopped_clock sample_time) 0.

Lemma X15_witness :
  w_faker same_faker_a = w_faker same_faker_b
  /\ (forall i, w_clock same_faker_a (w_ticks same_faker_a + i)%nat
                = w_clock same_faker_b (w_ticks same_faker_b + i)%nat)
  /\ exists data1 data2 w1' w2',
      transactions_data_of 2 same_faker_a = Ok (data1, w1')
      /\ transactions_data_of 2 same_faker_b = Ok (data2, w2')
      /\ Forall2 (fun r1 r2 =>
                    Forall (fun k => dict_get k r1 = dict_get k r2)
                      [ "ClientFullName"; "AgentFullName"; "TransactionDate";
                        "OriginalCountry"; "DestinationCountry"; "StatusDate";
                        "Icon" ]) data1 data2.
Proof.
  split; [reflexivity|]. split; [intros i; reflexivity|].
  exact (X15_faker_fields _ _ _ _ 2%nat same_faker_a same_faker_b eq_refl
           (fun i => eq_refl)).
Defined.

(** ** The bounds are attained *)

(** A world where the draws behind [Amount] and [Fee] are the largest
    [random()] can return, [1 - 2^-53]; every other draw is zero. *)
Definition top_world : World (list N) (list N) :=
  mkWorld (repeat 0%N 10 ++ [(2 ^ 53 - 1)%N; 0%N; (2 ^ 53 - 1)%N])%list []
    (stopped_clock sample_time) 0.

(** X16. The ranges of [Amount] and [Fee] are closed at both ends: when
    [random()] returns 0 the record holds [Amount = 10.0] and [Fee = 1.0],
    and when it returns its largest value, [1 - 2^-53], rounding to two
    decimals gives [Amount = 10000.0] and [Fee = 50.0]. *)
Theorem X16_bounds_attained :
  (exists d w',
     transaction 0 zero_world = Ok (d, w')
     /\ dict_get "Amount" d = Some (VFloat (float_of_Z 10))
     /\ dict_get "Fee" d = Some (VFloat (float_of_Z 1))
     /\ csv_cell (dict_get "Amount" d) = "10.0"
     /\ csv_cell (dict_get "Fee" d) = "1.0")
  /\ (exists d w',
        transaction 0 top_world = Ok (d, w')
        /\ dict_get "Amount" d = Some (VFloat (float_of_Z 10000))
        /\ dict_get "Fee" d = Some (VFloat (float_of_Z 50))
        /\ csv_cell (dict_get "Amount" d) = "10000.0"
        /\ csv_cell (dict_get "Fee" d) = "50.0").
Proof.
  split; eexists _, _; (split; [vm_compute; reflexivity|]);
    repeat split; vm_compute; reflexivity.
Qed.
(* ===================================================================== *)
(** ** The dates of a run *)

(** A provider that picks its date between the two resolved bounds to the
    microsecond. *)
Record micro_tape : Type := MicroTape { micro_draws : list N }.

Definition micro_pick (table : list string) (t : micro_tape) : string * micro_tape :=
  let '(s, t') := tape_pick table (micro_draws t) in (s, MicroTape t').

Definition micro_date_time_between (start end_ : string) (now : datetime)
    (t : micro_tape) : datetime * micro_tape :=
  let lo := now + relative_seconds start * usec_per_sec in
  let hi := now + relative_seconds end_ * usec_per_sec in
  let '(x, t') := tape_next (micro_draws t) in
  (lo + Z.of_N x mod (hi - lo + 1), MicroTape t').

#[export] Instance micro_FakerGen : FakerGen micro_tape :=
  Build_FakerGen micro_tape (micro_pick sample_names) (micro_pick sample_countries)
    (micro_pick sample_urls) micro_date_time_between.

(** A run in which the third call of the provider, the first date, falls on
    a whole second, and no other date does. *)
Definition mixed_world : World (list N) micro_tape :=
  mkWorld [] (MicroTape [0; 0; 876544]%N) (stopped_clock sample_time) 0.

Section RunDates.
Context {R F : Type} {HR : RandomGen R} {HF : FakerGen F}.

(** What the Faker object returns for the two dates of one record, and the
  object after the record: its seven calls in the order of the dict
  literal, the clock read once before each date. *)
Definition record_dates (clock : nat -> datetime) (ticks : nat) (f0 : F)
: datetime * datetime * F :=
let f1 := snd (fk_name f0) in
let f2 := snd (fk_name f1) in
let r3 := fk_date_time_between "-5y" "now" (clock ticks) f2 in
let f4 := snd (fk_country (snd r3)) in
let f5 := snd (fk_country f4) in
let r6 := fk_date_time_between "-5y" "now" (clock (S ticks)) f5 in
(fst r3, fst r6, snd (fk_image_url (snd r6))).

(** The pairs of dates of a run of [n] records. *)
Fixpoint run_dates (clock : nat -> datetime) (ticks : nat) (f : F) (n : nat)
: list (datetime * datetime) :=
match n with
| O => []
| S n' =>
    let r := record_dates clock ticks f in
    fst r :: run_dates clock (S (S ticks)) (snd r) n'
end.

(** The Faker object and the clock of a world. *)
Definition at_state (w : World R F) (clock : nat -> datetime) (ticks : nat) (f : F)
: Prop :=
w_faker w = f /\ w_clock w = clock /\ w_ticks w = ticks.

Lemma with_faker_at {A} (g : F -> A * F) (w : World R F) clock ticks f :
at_state w clock ticks f ->
exists w', with_faker g w = Ok (fst (g f), w') /\ at_state w' clock ticks (snd (g f)).
Proof.
intros (<- & <- & <-). unfold with_faker. destruct (g (w_faker w)) as [a f'].
eexists. split; [reflexivity|]. repeat split.
Qed.

Lemma random_datetime_at (start end_ : string) (w : World R F) clock ticks f :
at_state w clock ticks f ->
exists w',
  random_datetime start end_ w
  = Ok (fst (fk_date_time_between start end_ (clock ticks) f), w')
  /\ at_state w' clock (S ticks)
       (snd (fk_date_time_between start end_ (clock ticks) f)).
Proof.
intros (<- & <- & <-). unfold random_datetime, bind, now, with_faker.
cbn [w_faker w_clock w_ticks].
destruct (fk_date_time_between _ _ _ _) as [a f'].
eexists. split; [reflexivity|]. repeat split.
Qed.

Lemma preserves_faker_at {A} (c : M R F A) (w : World R F) clock ticks f :
preserves_faker c -> at_state w clock ticks f ->
forall a w', c w = Ok (a, w') -> at_state w' clock ticks f.
Proof.
intros Hp (<- & <- & <-) a w' E. specialize (Hp w). rewrite E in Hp. exact Hp.
Qed.

(** One call of the dict literal, with the Faker object and the clock
  followed through it. *)
Ltac dates_step :=
match goal with
| Hs : at_state ?x _ _ _
  |- (match with_faker ?g ?x with Ok _ => _ | Raise _ => _ end = _) -> _ =>
    let E := fresh "E" in let Hn := fresh "Hs" in
    destruct (with_faker_at g x _ _ _ Hs) as (? & E & Hn);
    rewrite E; clear E Hs; cbv beta match
| Hs : at_state ?x _ _ _
  |- (match random_datetime ?a ?b ?x with Ok _ => _ | Raise _ => _ end = _) -> _ =>
    let E := fresh "E" in let Hn := fresh "Hs" in
    destruct (random_datetime_at a b x _ _ _ Hs) as (? & E & Hn);
    rewrite E; clear E Hs; cbv beta match
| Hs : at_state ?x _ _ _
  |- (match ?c ?x with Ok _ => _ | Raise _ => _ end = _) -> _ =>
    let Hp := fresh "Hp" in let E := fresh "E" in let Hn := fresh "Hs" in
    assert (Hp : preserves_faker c) by auto with sources;
    destruct (c x) as [[? ?]|?] eqn:E; [|let D := fresh in intros D; discriminate D];
    pose proof (preserves_faker_at c x _ _ _ Hp Hs _ _ E) as Hn;
    clear Hp E Hs
end.

(** The two dates of a record are those the Faker object returned. *)
Lemma transaction_record_dates (i : nat) (w : World R F) :
exists d w',
  transaction i w = Ok (d, w')
  /\ dict_get "TransactionDate" d
     = Some (VStr (isoformat
               (fst (fst (record_dates (w_clock w) (w_ticks w) (w_faker w))))))
  /\ dict_get "StatusDate" d
     = Some (VStr (isoformat
               (snd (fst (record_dates (w_clock w) (w_ticks w) (w_faker w))))))
  /\ at_state w' (w_clock w) (S (S (w_ticks w)))
       (snd (record_dates (w_clock w) (w_ticks w) (w_faker w))).
Proof.
destruct (ensures_transaction i w) as (d & w' & E & _).
exists d, w'. split; [exact E|].
assert (Hs : at_state w (w_clock w) (w_ticks w) (w_faker w)) by (repeat split).
revert E. generalize (w_clock w) (w_ticks w) (w_faker w) Hs. clear Hs.
intros clock ticks f0 Hs.
unfold transaction, bind.
repeat dates_step.
unfold ret. intros [= <- <-].
split; [reflexivity|]. split; [reflexivity|]. exact Hs.
Qed.

(** The dates of the records of a run are the dates of the run. *)
Lemma comprehension_run_dates (n : nat) :
forall (start : nat) (w : World R F),
  exists data w',
    comprehension transaction start n w = Ok (data, w')
    /\ Forall2 (fun d ts =>
         dict_get "TransactionDate" d = Some (VStr (isoformat (fst ts)))
         /\ dict_get "StatusDate" d = Some (VStr (isoformat (snd ts))))
         data (run_dates (w_clock w) (w_ticks w) (w_faker w) n).
Proof.
induction n as [|n IH]; intros start w.
- exists [], w. split; [reflexivity|constructor].
- destruct (transaction_record_dates start w) as (d & w1 & E & Ht & Hs & Hf & Hc & Hk).
  destruct (IH (S start) w1) as (data & w' & E' & Hall).
  exists (d :: data), w'. cbn [comprehension run_dates]. unfold bind.
  rewrite E, E'. split; [reflexivity|].
  rewrite Hf, Hc, Hk in Hall.
  constructor; [split; assumption|exact Hall].
Qed.

End RunDates.

(** X10. [TransactionDate] and [StatusDate] are the ISO texts of the dates
    the Faker object returned for the record, in the order of its calls.
    When the dates of the run are dates [datetime] represents (years 1 to
    9999), the text of a date whose microseconds are zero reads
    [YYYY-MM-DDTHH:MM:SS], 19 characters, and the text of any other date
    reads [YYYY-MM-DDTHH:MM:SS.ffffff], 26 characters.  One column can hold
    both: with a provider that picks dates to the microsecond, a run of two
    records gives a [TransactionDate] of 19 characters and then one of 26
    characters. *)
Theorem X10_date_texts :
  (forall (R F : Type) (HR : RandomGen R) (HF : FakerGen F) (n : nat) (w : World R F),
     Forall (fun ts => datetime_min <= fst ts <= datetime_max
                       /\ datetime_min <= snd ts <= datetime_max)
       (run_dates (w_clock w) (w_ticks w) (w_faker w) n) ->
     exists data w',
       transactions_data_of n w = Ok (data, w')
       /\ Forall2 (fun d ts =>
            dict_get "TransactionDate" d = Some (VStr (isoformat (fst ts)))
            /\ dict_get "StatusDate" d = Some (VStr (isoformat (snd ts)))
            /\ has_shape (if fst ts mod 1000000 =? 0 then "9999-99-99T99:99:99"
                          else "9999-99-99T99:99:99.999999") (isoformat (fst ts)) = true
            /\ has_shape (if snd ts mod 1000000 =? 0 then "9999-99-99T99:99:99"
                          else "9999-99-99T99:99:99.999999") (isoformat (snd ts)) = true)
            data (run_dates (w_clock w) (w_ticks w) (w_faker w) n))
  /\ (exists data w',
        transactions_data_of 2 mixed_world = Ok (data, w')
        /\ map (dict_get "TransactionDate") data
           = [ Some (VStr "2020-11-05T09:53:21");
               Some (VStr "2020-11-05T09:53:20.123456") ]).
Proof.
  split.
  - intros R F HR HF n w Hrep.
    destruct (comprehension_run_dates n 0%nat w) as (data & w' & E & Hall).
    exists data, w'. split; [exact E|].
    revert Hall Hrep. generalize (run_dates (w_clock w) (w_ticks w) (w_faker w) n).
    clear E. intros dates Hall.
    induction Hall as [|d ts data dates' (Ht & Hs) _ IH]; intros Hrep; [constructor|].
    apply Forall_cons in Hrep as [[Hrt Hrs] Hrep].
    constructor; [|apply IH, Hrep].
    split; [exact Ht|]. split; [exact Hs|].
    split; [exact (isoformat_shape _ Hrt)|exact (isoformat_shape _ Hrs)].
  - destruct (comprehension_run_dates 2 0%nat mixed_world) as (data & w' & E & Hall).
    exists data, w'. split; [exact E|].
    remember (run_dates (w_clock mixed_world) (w_ticks mixed_world)
                (w_faker mixed_world) 2) as dates eqn:Ed.
    vm_compute in Ed. subst dates.
    inversion Hall as [|rec1 ts1 l1 l1' (Ht1 & _) Hall1]; subst.
    inversion Hall1 as [|rec2 ts2 l2 l2' (Ht2 & _) Hall2]; subst.
    inversion Hall2; subst.
    cbn [map]. rewrite Ht1, Ht2.
    vm_compute. reflexivity.
Qed.

Lemma X10_witness :
  Forall (fun ts => datetime_min <= fst ts <= datetime_max
                    /\ datetime_min <= snd ts <= datetime_max)
    (run_dates (w_clock mixed_world) (w_ticks mixed_world) (w_faker mixed_world) 2)
  /\ exists data w',
       transactions_data_of 2 mixed_world = Ok (data, w')
       /\ Forall2 (fun d ts =>
            dict_get "TransactionDate" d = Some (VStr (isoformat (fst ts)))
            /\ dict_get "StatusDate" d = Some (VStr (isoformat (snd ts)))
            /\ has_shape (if fst ts mod 1000000 =? 0 then "9999-99-99T99:99:99"
                          else "9999-99-99T99:99:99.999999") (isoformat (fst ts)) = true
            /\ has_shape (if snd ts mod 1000000 =? 0 then "9999-99-99T99:99:99"
                          else "9999-99-99T99:99:99.999999") (isoformat (snd ts)) = true)
            data (run_dates (w_clock mixed_world) (w_ticks mixed_world)
                    (w_faker mixed_world) 2).
Proof.
  assert (H : Forall (fun ts => datetime_min <= fst ts <= datetime_max
                                /\ datetime_min <= snd ts <= datetime_max)
                (run_dates (w_clock mixed_world) (w_ticks mixed_world)
                   (w_faker mixed_world) 2)).
  { repeat constructor; vm_compute; discriminate. }
  split; [exact H|].
  exact (proj1 X10_date_texts _ _ _ _ 2%nat mixed_world H).
Defined.
(* ===================================================================== *)
(** * The layout of the two files *)

(** ** The layout, as the interface describes it *)

(** The definitions of this section follow the words of the interface and
    share nothing with the two writers: the line feed, the header and the
    indentation are literals, rows and members are put together with the
    library's [String.concat], and the cells of a row are taken apart and
    read by readers of their own. *)


















(** ** Reading a row *)


















(** ** Reading a cell *)









(** ** The lines of the two files *)






